(** * ExecutionOS: the service layer over the hosted document store

    A shallow embedding of [frontend/src/services/{projects,tasks,activity,auth}.ts].
    Every [async] service function becomes a computation in a state-and-exception
    monad over a [World]: the remote document store, the auth provider, the
    realtime watchers, the wall clock, a schedule of remote outages, the order
    in which concurrent calls settle, and the log of remote calls made so
    far. *)

From Stdlib Require Import String List Bool Arith Lia DecimalString Permutation.
From Stdlib Require DecimalNat.
Import ListNotations.
Open Scope string_scope.

Set Implicit Arguments.

(** ** JavaScript values used by the services *)

(** Truthiness of a string: [!s] holds exactly for the empty string. *)
Definition truthy (s : string) : bool := negb (s =? "").

(** ** Documents and the four collections *)

Record Document (T : Type) := mkDocument { id : string; data : T }.

Arguments mkDocument {T}.
Arguments id {T}.
Arguments data {T}.

Module Project.
Record t := make { name : string; ownerId : string; createdAt : string }.
End Project.

Module ProjectMember.
Record t := make { projectId : string; userId : string; joinedAt : string }.
End ProjectMember.

Module Task.
Record t := make {
  projectId : string;
  title : string;
  description : option string;
  status : string;
  assigneeId : option string;
  dueDate : option string;
  createdAt : string;
  updatedAt : string }.
End Task.

(** [Partial<Task>]: the object handed to [updateDocument]; an absent key is
    [None], a key present with value [null] is [Some None]. *)
Module PartialTask.
Record t := make {
  projectId : option string;
  title : option string;
  description : option (option string);
  status : option string;
  assigneeId : option (option string);
  dueDate : option (option string);
  createdAt : option string;
  updatedAt : option string }.
End PartialTask.

Module ActivityLog.
Record t := make {
  projectId : string;
  actorId : string;
  entityType : string;
  entityId : string;
  action : string;
  createdAt : string }.
End ActivityLog.

Inductive Collection := projects | project_members | tasks | activity_logs.

Definition DataOf (c : Collection) : Type :=
  match c with
  | projects => Project.t
  | project_members => ProjectMember.t
  | tasks => Task.t
  | activity_logs => ActivityLog.t
  end.

(** The remote store: each collection in the store's default order (oldest
    first), and the counter from which the store draws document ids. *)
Record Store := mkStore {
  st_projects : list (Document Project.t);
  st_project_members : list (Document ProjectMember.t);
  st_tasks : list (Document Task.t);
  st_activity_logs : list (Document ActivityLog.t);
  next_id : nat }.

Definition docs (c : Collection) (s : Store) : list (Document (DataOf c)) :=
  match c with
  | projects => st_projects s
  | project_members => st_project_members s
  | tasks => st_tasks s
  | activity_logs => st_activity_logs s
  end.

Definition set_docs (c : Collection) (l : list (Document (DataOf c))) (s : Store) : Store :=
  match c return list (Document (DataOf c)) -> Store with
  | projects => fun l =>
      mkStore l (st_project_members s) (st_tasks s) (st_activity_logs s) (next_id s)
  | project_members => fun l =>
      mkStore (st_projects s) l (st_tasks s) (st_activity_logs s) (next_id s)
  | tasks => fun l =>
      mkStore (st_projects s) (st_project_members s) l (st_activity_logs s) (next_id s)
  | activity_logs => fun l =>
      mkStore (st_projects s) (st_project_members s) (st_tasks s) l (next_id s)
  end l.

Definition bump (s : Store) : Store :=
  mkStore (st_projects s) (st_project_members s) (st_tasks s) (st_activity_logs s)
          (S (next_id s)).

Definition empty_store : Store := mkStore [] [] [] [] 0.

(** Ids issued by the store: never the empty string. *)
Definition fresh_id (n : nat) : string :=
  "doc_" ++ NilEmpty.string_of_uint (Nat.to_uint n).

Definition find_doc {T} (i : string) (l : list (Document T)) : option (Document T) :=
  find (fun d => id d =? i) l.

(** ** The auth provider and the realtime watchers *)

Record AppUser := mkAppUser { uid : string; email : string }.

Record Account := mkAccount {
  acc_user : AppUser;
  acc_password : string;
  acc_data : option (list (string * string)) }.

Record AuthState := mkAuthState {
  accounts : list Account;
  session : option AppUser;
  cached_user : option AppUser }.

(** A UI callback, known to the service layer only by reference. *)
Definition Callback := nat.

Inductive Signal := SigConnected | SigCreate | SigUpdate | SigDelete | SigError | SigClose.

Record Watcher := mkWatcher {
  topic : Collection;
  scope : string;
  listeners : list (Signal * Callback);
  connected : bool }.

(** ** Exceptions, remote calls and the world *)

Inductive Exn :=
| Error (message : string)
| NotFound (c : Collection) (i : string)
| RemoteFailure
| ChannelClosed.

Inductive Call :=
| CreateDocument (c : Collection)
| ListDocuments (c : Collection)
| GetDocument (c : Collection) (i : string)
| UpdateDocument (c : Collection) (i : string)
| AuthRegister
| AuthLogin
| AuthCurrentUser
| Connect (h : nat)
| Disconnect (h : nat).

Inductive Event :=
| Returned (call : Call)
| Raised (call : Call) (e : Exn).

(** [faults] tells, for each remote call still to come, whether it meets an
    outage. [races] tells, for each group of concurrent calls still to come,
    which of its failed calls is the first to settle. [trace] lists the
    remote calls in the order they were started, each with the outcome it
    came to. *)
Record World := mkWorld {
  store : Store;
  auth : AuthState;
  watchers : list Watcher;
  clock : string;
  faults : list bool;
  races : list nat;
  trace : list Event }.

Definition set_store (s : Store) (w : World) : World :=
  mkWorld s (auth w) (watchers w) (clock w) (faults w) (races w) (trace w).
Definition set_auth (a : AuthState) (w : World) : World :=
  mkWorld (store w) a (watchers w) (clock w) (faults w) (races w) (trace w).
Definition set_watchers (l : list Watcher) (w : World) : World :=
  mkWorld (store w) (auth w) l (clock w) (faults w) (races w) (trace w).
Definition set_faults (f : list bool) (w : World) : World :=
  mkWorld (store w) (auth w) (watchers w) (clock w) f (races w) (trace w).
Definition set_races (r : list nat) (w : World) : World :=
  mkWorld (store w) (auth w) (watchers w) (clock w) (faults w) r (trace w).
Definition record (e : Event) (w : World) : World :=
  mkWorld (store w) (auth w) (watchers w) (clock w) (faults w) (races w)
          (trace w ++ [e]).

(** No outage is scheduled for any of the remote calls still to come. *)
Definition no_faults (w : World) : bool := forallb negb (faults w).

(** ** The monad of service computations *)

Definition M (A : Type) : Type := World -> World * (Exn + A).

Definition ret {A} (a : A) : M A := fun w => (w, inr a).

Definition throw {A} (e : Exn) : M A := fun w => (w, inl e).

Definition bind {A B} (m : M A) (k : A -> M B) : M B :=
  fun w =>
    match m w with
    | (w1, inr a) => k a w1
    | (w1, inl e) => (w1, inl e)
    end.

(** [try { m } catch (err) { handler err }]. *)
Definition try_catch {A} (m : M A) (handler : Exn -> M A) : M A :=
  fun w =>
    match m w with
    | (w1, inr a) => (w1, inr a)
    | (w1, inl e) => handler e w1
    end.

Declare Scope service_scope.
Delimit Scope service_scope with service.
Notation "x <- m ;; k" := (bind m (fun x => k))
  (at level 61, m at next level, right associativity) : service_scope.
Notation "m ;; k" := (bind m (fun _ => k))
  (at level 61, right associativity) : service_scope.
Open Scope service_scope.

(** [if (cond) throw new Error(message)]. *)
Definition throw_if (cond : bool) (message : string) : M unit :=
  if cond then throw (Error message) else ret tt.

(** The promises of [xs.map(f)], for an [f] that makes one remote call: the
    calls are started in the order of [xs], every one of them whatever
    becomes of the others, and each promise settles on its own, with a value
    or with an error. *)
Fixpoint settle_all {A B} (f : A -> M B) (xs : list A)
  : World -> World * list (Exn + B) :=
  match xs with
  | [] => fun w => (w, [])
  | x :: xs' => fun w =>
      match f x w with
      | (w1, r) =>
          match settle_all f xs' w1 with
          | (w2, rs) => (w2, r :: rs)
          end
      end
  end.

Definition rejections {B} (rs : list (Exn + B)) : list Exn :=
  flat_map (fun r => match r with inl e => [e] | inr _ => [] end) rs.

Definition fulfilled {B} (rs : list (Exn + B)) : list B :=
  flat_map (fun r => match r with inl _ => [] | inr b => [b] end) rs.

(** [await Promise.all(xs.map(f))]. When every promise is fulfilled the
    resolved array keeps the order of [xs]. When some are rejected the
    [await] throws the error of the one that settled first, which is for the
    network to decide: [races] gives its place among the rejected promises
    (the first of them when it gives none). The other errors are dropped. *)
Definition Promise_all {A B} (f : A -> M B) (xs : list A) : M (list B) :=
  fun w =>
    match settle_all f xs w with
    | (w1, rs) =>
        match rejections rs with
        | [] => (w1, inr (fulfilled rs))
        | e :: es =>
            (set_races (tl (races w1)) w1, inl (nth (hd 0 (races w1)) (e :: es) e))
        end
    end.

(** [new Date().toISOString()]. *)
Definition Date_now : M string := fun w => (w, inr (clock w)).

(** A call that crosses the network: it first meets the outage schedule,
    then runs on the remote side, and its outcome is logged. *)
Definition remote {A} (call : Call) (body : M A) : M A :=
  fun w =>
    let w0 := set_faults (tl (faults w)) w in
    if hd false (faults w)
    then (record (Raised call RemoteFailure) w0, inl RemoteFailure)
    else
      match body w0 with
      | (w1, inr a) => (record (Returned call) w1, inr a)
      | (w1, inl e) => (record (Raised call e) w1, inl e)
      end.

(** ** The document store client ([cocobase.*Document*]) *)

Inductive Order := asc | desc.

Fixpoint insert_by {T} (le : T -> T -> bool) (x : T) (l : list T) : list T :=
  match l with
  | [] => [x]
  | y :: l' => if le x y then x :: l else y :: insert_by le x l'
  end.

Definition sort_by {T} (le : T -> T -> bool) (l : list T) : list T :=
  fold_right (insert_by le) [] l.

Definition sorted {T} (sort : option ((T -> string) * Order)) (l : list (Document T))
  : list (Document T) :=
  match sort with
  | None => l
  | Some (key, asc) => sort_by (fun a b => String.leb (key (data a)) (key (data b))) l
  | Some (key, desc) => sort_by (fun a b => String.leb (key (data b)) (key (data a))) l
  end.

(** Modelled from the spec: the store client's [createDocument] lives in the
    external SDK. It appends the document to the named collection under an id
    issued by the store and returns the stored document. *)
Definition createDocument (c : Collection) (d : DataOf c) : M (Document (DataOf c)) :=
  remote (CreateDocument c) (fun w =>
    let s := store w in
    let doc := mkDocument (fresh_id (next_id s)) d in
    (set_store (bump (set_docs c (docs c s ++ [doc]) s)) w, inr doc)).

(** Modelled from the spec: the store client's [listDocuments] lives in the
    external SDK. It returns the documents whose fields match [filters],
    sorted when asked to, cut at [limit]; it changes nothing. *)
Definition listDocuments (c : Collection) (filters : DataOf c -> bool) (limit : nat)
    (sort : option ((DataOf c -> string) * Order)) : M (list (Document (DataOf c))) :=
  remote (ListDocuments c) (fun w =>
    (w, inr (firstn limit
               (sorted sort (filter (fun doc => filters (data doc)) (docs c (store w))))))).

(** Modelled from the spec: the store client's [getDocument] lives in the
    external SDK. It returns the document with the given id and fails when
    the collection holds none (the spec's NotFoundError). *)
Definition getDocument (c : Collection) (i : string) : M (Document (DataOf c)) :=
  remote (GetDocument c i) (fun w =>
    match find_doc i (docs c (store w)) with
    | Some doc => (w, inr doc)
    | None => (w, inl (NotFound c i))
    end).

Definition patch_doc {T} (i : string) (patch : T -> T) (doc : Document T) : Document T :=
  if id doc =? i then mkDocument (id doc) (patch (data doc)) else doc.

(** Modelled from the spec: the store client's [updateDocument] lives in the
    external SDK. It overwrites the fields named in the patch on the document
    with the given id, keeps every other field, and returns the document as
    stored; it fails when the collection holds no such document. *)
Definition updateDocument (c : Collection) (i : string) (patch : DataOf c -> DataOf c)
  : M (Document (DataOf c)) :=
  remote (UpdateDocument c i) (fun w =>
    let s := store w in
    match find_doc i (docs c s) with
    | Some doc =>
        (set_store (set_docs c (map (patch_doc i patch) (docs c s)) s) w,
         inr (patch_doc i patch doc))
    | None => (w, inl (NotFound c i))
    end).

Definition or_else {A} (o : option A) (a : A) : A :=
  match o with Some x => x | None => a end.

(** The effect of a [Partial<Task>] on a stored task: keys present in the
    patch replace the stored value, absent keys leave it alone. *)
Definition merge_Task (p : PartialTask.t) (t : Task.t) : Task.t :=
  Task.make
    (or_else (PartialTask.projectId p) (Task.projectId t))
    (or_else (PartialTask.title p) (Task.title t))
    (or_else (PartialTask.description p) (Task.description t))
    (or_else (PartialTask.status p) (Task.status t))
    (or_else (PartialTask.assigneeId p) (Task.assigneeId t))
    (or_else (PartialTask.dueDate p) (Task.dueDate t))
    (or_else (PartialTask.createdAt p) (Task.createdAt t))
    (or_else (PartialTask.updatedAt p) (Task.updatedAt t)).

(** ** The auth provider ([cocobase.auth.*]) *)

Definition fresh_uid (n : nat) : string :=
  "user_" ++ NilEmpty.string_of_uint (Nat.to_uint n).

Definition has_email (e : string) (a : Account) : bool := email (acc_user a) =? e.

(** Modelled from the spec: [cocobase.auth.register] lives in the external SDK.
    It creates the account, opens a session for it and caches the user. *)
Definition auth_register (e p : string) (extra : option (list (string * string)))
  : M unit :=
  remote AuthRegister (fun w =>
    let a := auth w in
    if existsb (has_email e) (accounts a)
    then (w, inl (Error "email already registered"))
    else
      let u := mkAppUser (fresh_uid (length (accounts a))) e in
      (set_auth (mkAuthState (accounts a ++ [mkAccount u p extra]) (Some u) (Some u)) w,
       inr tt)).

(** Modelled from the spec: [cocobase.auth.login] lives in the external SDK.
    It opens a session for the account with these credentials and caches
    the user. *)
Definition auth_login (e p : string) : M unit :=
  remote AuthLogin (fun w =>
    let a := auth w in
    match find (fun x => has_email e x && (acc_password x =? p)) (accounts a) with
    | Some x =>
        (set_auth (mkAuthState (accounts a) (Some (acc_user x)) (Some (acc_user x))) w,
         inr tt)
    | None => (w, inl (Error "invalid credentials"))
    end).

(** Modelled from the spec: [cocobase.auth.getUser] (the locally cached user). *)
Definition auth_getUser : M (option AppUser) :=
  fun w => (w, inr (cached_user (auth w))).

(** Modelled from the spec: [cocobase.auth.isAuthenticated] (a local check). *)
Definition auth_isAuthenticated : M bool :=
  fun w => (w, inr (match session (auth w) with Some _ => true | None => false end)).

(** Modelled from the spec: [cocobase.auth.getCurrentUser] asks the server for
    the user of the current session. *)
Definition auth_getCurrentUser : M AppUser :=
  remote AuthCurrentUser (fun w =>
    match session (auth w) with
    | Some u => (set_auth (mkAuthState (accounts (auth w)) (Some u) (Some u)) w, inr u)
    | None => (w, inl (Error "not authenticated"))
    end).

(** Modelled from the spec: [cocobase.auth.logout] clears the local session. *)
Definition auth_logout : M unit :=
  fun w => (set_auth (mkAuthState (accounts (auth w)) None None) w, inr tt).

(** ** The realtime watchers ([cocobase.realtime.collection]) *)

Fixpoint update_nth {T} (n : nat) (f : T -> T) (l : list T) : list T :=
  match n, l with
  | _, [] => []
  | O, x :: l' => f x :: l'
  | S n', x :: l' => x :: update_nth n' f l'
  end.

(** Modelled from the spec: [cocobase.realtime.collection] builds a watcher
    for a collection filtered by project id; nothing is sent yet. *)
Definition realtime_collection (c : Collection) (projectId : string) : M nat :=
  fun w => (set_watchers (watchers w ++ [mkWatcher c projectId [] false]) w,
            inr (length (watchers w))).

(** Modelled from the spec: [watcher.onCreate(f)] and its siblings register a
    callback for one kind of event. *)
Definition watcher_on (h : nat) (sig : Signal) (f : Callback) : M unit :=
  fun w =>
    (set_watchers
       (update_nth h (fun x =>
          mkWatcher (topic x) (scope x) (listeners x ++ [(sig, f)]) (connected x))
          (watchers w)) w,
     inr tt).

(** Modelled from the spec: [watcher.connect] starts opening the channel and
    returns at once. Whether the channel opens is known later and is told
    through the watcher's events; a connection that fails leaves the channel
    closed, and nothing is thrown to the code that called [connect]. *)
Definition watcher_connect (h : nat) : M unit :=
  fun w =>
    let w0 := set_faults (tl (faults w)) w in
    if hd false (faults w)
    then (record (Raised (Connect h) RemoteFailure) w0, inr tt)
    else
      (record (Returned (Connect h))
         (set_watchers
            (update_nth h (fun x => mkWatcher (topic x) (scope x) (listeners x) true)
               (watchers w0)) w0),
       inr tt).

(** Modelled from the spec: [watcher.disconnect] closes the channel; on a
    channel that is not open it raises, which is the case the disposer has
    to tolerate. *)
Definition watcher_disconnect (h : nat) : M unit :=
  remote (Disconnect h) (fun w =>
    match nth_error (watchers w) h with
    | Some x =>
        if connected x
        then
          (set_watchers
             (update_nth h (fun x => mkWatcher (topic x) (scope x) (listeners x) false)
                (watchers w)) w,
           inr tt)
        else (w, inl ChannelClosed)
    | None => (w, inl ChannelClosed)
    end).

(** ** services/projects.ts *)

(** Creates the project, adds the owner as a member, logs the creation. *)
Definition createProject (ownerId name : string) : M (Document Project.t) :=
  throw_if (negb (truthy ownerId)) "ownerId is required" ;;
  throw_if (negb (truthy name)) "project name is required" ;;
  createdAt <- Date_now ;;
  project <- createDocument projects (Project.make name ownerId createdAt) ;;
  createDocument project_members
    (ProjectMember.make (id project) ownerId createdAt) ;;
  createDocument activity_logs
    (ActivityLog.make (id project) ownerId "project" (id project) "create" createdAt) ;;
  ret project.

(** The store client answers a listing with an array, so of the test
    [!memberships || memberships.length === 0] only the length matters. *)
Definition listUserProjects (userId : string) : M (list (Document Project.t)) :=
  throw_if (negb (truthy userId)) "userId is required" ;;
  memberships <- listDocuments project_members
                   (fun m => ProjectMember.userId m =? userId) 100 None ;;
  if (length memberships =? 0)%nat then ret []
  else
    found <- Promise_all
               (fun m => getDocument projects (ProjectMember.projectId (data m)))
               memberships ;;
    ret found.

(** Only a member may add a user, and nobody is added twice. *)
Definition addUserToProject (projectId userId actorId : string)
  : M (Document ProjectMember.t) :=
  throw_if (negb (truthy projectId)) "projectId is required" ;;
  throw_if (negb (truthy userId)) "userId is required" ;;
  throw_if (negb (truthy actorId)) "actorId is required" ;;
  actorMemberships <- listDocuments project_members
      (fun m => (ProjectMember.projectId m =? projectId)
                && (ProjectMember.userId m =? actorId)) 1 None ;;
  throw_if (length actorMemberships =? 0)%nat "actor is not a member of the project" ;;
  exists_ <- listDocuments project_members
      (fun m => (ProjectMember.projectId m =? projectId)
                && (ProjectMember.userId m =? userId)) 1 None ;;
  throw_if (0 <? length exists_)%nat "user is already a member of the project" ;;
  joinedAt <- Date_now ;;
  member <- createDocument project_members
              (ProjectMember.make projectId userId joinedAt) ;;
  createDocument activity_logs
    (ActivityLog.make projectId actorId "project_member" (id member) "add_member"
       joinedAt) ;;
  ret member.

(** ** services/tasks.ts *)

(** The values of the type [TaskStatus]; at run time a status is a string. *)
Definition TaskStatus : list string := ["todo"; "doing"; "done"].

(** [Array.prototype.includes] on strings. *)
Definition includes (l : list string) (s : string) : bool :=
  existsb (fun x => x =? s) l.

Definition isProjectMember (userId projectId : string) : M bool :=
  if negb (truthy userId) || negb (truthy projectId) then ret false
  else
    membership <- listDocuments project_members
        (fun m => (ProjectMember.projectId m =? projectId)
                  && (ProjectMember.userId m =? userId)) 1 None ;;
    ret (0 <? length membership)%nat.

(** An optional argument is [None] when it is [undefined] or [null], so
    [x ?? null] is [x] itself; [if (assigneeId)] holds for a non-empty string
    only. *)
Definition createTask (actorId projectId title : string) (description : option string)
    (assigneeId dueDate : option string) : M (Document Task.t) :=
  throw_if (negb (truthy actorId)) "actorId is required" ;;
  throw_if (negb (truthy projectId)) "projectId is required" ;;
  throw_if (negb (truthy title)) "title is required" ;;
  actorIsMember <- isProjectMember actorId projectId ;;
  throw_if (negb actorIsMember) "actor is not a member of the project" ;;
  match assigneeId with
  | Some a =>
      if truthy a then
        assigneeIsMember <- isProjectMember a projectId ;;
        throw_if (negb assigneeIsMember) "assignee is not a member of the project"
      else ret tt
  | None => ret tt
  end ;;
  now <- Date_now ;;
  task <- createDocument tasks
            (Task.make projectId title description "todo" assigneeId dueDate now now) ;;
  createDocument activity_logs
    (ActivityLog.make projectId actorId "task" (id task) "create" now) ;;
  ret task.

Definition assignTask (actorId taskId assigneeId : string) : M (Document Task.t) :=
  throw_if (negb (truthy actorId)) "actorId is required" ;;
  throw_if (negb (truthy taskId)) "taskId is required" ;;
  throw_if (negb (truthy assigneeId)) "assigneeId is required" ;;
  task <- getDocument tasks taskId ;;
  let projectId := Task.projectId (data task) in
  actorIsMember <- isProjectMember actorId projectId ;;
  throw_if (negb actorIsMember) "actor is not a member of the project" ;;
  assigneeIsMember <- isProjectMember assigneeId projectId ;;
  throw_if (negb assigneeIsMember) "assignee is not a member of the project" ;;
  now <- Date_now ;;
  updated <- updateDocument tasks taskId
               (merge_Task (PartialTask.make None None None None
                              (Some (Some assigneeId)) None None (Some now))) ;;
  createDocument activity_logs
    (ActivityLog.make projectId actorId "task" taskId "assign" now) ;;
  ret updated.

Definition updateTaskStatus (actorId taskId status : string) : M (Document Task.t) :=
  throw_if (negb (truthy actorId)) "actorId is required" ;;
  throw_if (negb (truthy taskId)) "taskId is required" ;;
  throw_if (negb (truthy status)) "status is required" ;;
  throw_if (negb (includes TaskStatus status)) "invalid status" ;;
  task <- getDocument tasks taskId ;;
  let projectId := Task.projectId (data task) in
  actorIsMember <- isProjectMember actorId projectId ;;
  throw_if (negb actorIsMember) "actor is not a member of the project" ;;
  now <- Date_now ;;
  updated <- updateDocument tasks taskId
               (merge_Task (PartialTask.make None None None (Some status)
                              None None None (Some now))) ;;
  createDocument activity_logs
    (ActivityLog.make projectId actorId "task" taskId ("status:" ++ status) now) ;;
  ret updated.

Definition listProjectTasks (projectId : string) : M (list (Document Task.t)) :=
  throw_if (negb (truthy projectId)) "projectId is required" ;;
  found <- listDocuments tasks (fun t => Task.projectId t =? projectId) 200 None ;;
  ret found.

(** ** services/activity.ts *)

Definition listActivityLogs (projectId : string) (limit : nat)
  : M (list (Document ActivityLog.t)) :=
  throw_if (negb (truthy projectId)) "projectId is required" ;;
  logs <- listDocuments activity_logs (fun l => ActivityLog.projectId l =? projectId)
            limit (Some (ActivityLog.createdAt, desc)) ;;
  ret logs.

Record Handlers := mkHandlers {
  onConnected : option Callback;
  onCreate : option Callback;
  onUpdate : option Callback;
  onDelete : option Callback;
  onError : option Callback;
  onClose : option Callback }.

(** [handler && register(handler)]. *)
Definition and_then (handler : option Callback) (register : Callback -> M unit) : M unit :=
  match handler with
  | Some f => register f
  | None => ret tt
  end.

(** The function returned to the caller is itself a computation: the disposer. *)
Definition subscribeActivityLogs (projectId : string) (handlers : Handlers)
  : M (M unit) :=
  throw_if (negb (truthy projectId)) "projectId is required" ;;
  watcher <- realtime_collection activity_logs projectId ;;
  and_then (onConnected handlers) (watcher_on watcher SigConnected) ;;
  and_then (onCreate handlers) (watcher_on watcher SigCreate) ;;
  and_then (onUpdate handlers) (watcher_on watcher SigUpdate) ;;
  and_then (onDelete handlers) (watcher_on watcher SigDelete) ;;
  and_then (onError handlers) (watcher_on watcher SigError) ;;
  and_then (onClose handlers) (watcher_on watcher SigClose) ;;
  watcher_connect watcher ;;
  ret (try_catch (watcher_disconnect watcher) (fun _ => ret tt)).

(** ** services/auth.ts *)

Definition signup (e p : string) (extra : option (list (string * string)))
  : M AppUser :=
  auth_register e p extra ;;
  user <- auth_getUser ;;
  match user with
  | None => auth_getCurrentUser
  | Some u => ret u
  end.

Definition login (e p : string) : M AppUser :=
  auth_login e p ;;
  user <- auth_getUser ;;
  match user with
  | None => auth_getCurrentUser
  | Some u => ret u
  end.

Definition getCurrentUser : M (option AppUser) :=
  try_catch
    (authed <- auth_isAuthenticated ;;
     if negb authed then ret None
     else
       user <- auth_getCurrentUser ;;
       ret (Some user))
    (fun _ => ret None).

Definition logout : M unit := auth_logout.

Definition isAuthenticated : M bool := auth_isAuthenticated.

(** ** The error taxonomy *)

Inductive ErrorKind :=
| ValidationError
| AuthorizationError
| ConflictError
| NotFoundError
| RemoteError.

(** Modelled from the spec: the taxonomy of section 7 is the spec's reading
    of the errors; the services throw plain [Error] objects, told apart by
    their messages. Missing or malformed input is a ValidationError, a failed
    membership precondition an AuthorizationError, a duplicate membership a
    ConflictError, an absent entity a NotFoundError, anything else raised by
    the store or the auth provider a RemoteError. *)
Definition classify (e : Exn) : ErrorKind :=
  match e with
  | Error m =>
      if includes ["ownerId is required"; "project name is required";
                   "userId is required"; "projectId is required";
                   "actorId is required"; "title is required";
                   "taskId is required"; "assigneeId is required";
                   "status is required"; "invalid status"] m
      then ValidationError
      else if includes ["actor is not a member of the project";
                        "assignee is not a member of the project"] m
      then AuthorizationError
      else if m =? "user is already a member of the project" then ConflictError
      else RemoteError
  | NotFound _ _ => NotFoundError
  | RemoteFailure => RemoteError
  | ChannelClosed => RemoteError
  end.

(** ** Views of the store used in the statements *)

Definition logs (w : World) : list (Document ActivityLog.t) :=
  st_activity_logs (store w).

(** The membership rows of the pair, as the membership query selects them. *)
Definition membership (projectId userId : string) (m : ProjectMember.t) : bool :=
  (ProjectMember.projectId m =? projectId) && (ProjectMember.userId m =? userId).

Definition member_rows (s : Store) (projectId userId : string)
  : list (Document ProjectMember.t) :=
  filter (fun doc => membership projectId userId (data doc)) (st_project_members s).

Definition has_membership (s : Store) (userId projectId : string) : bool :=
  (0 <? length (member_rows s projectId userId))%nat.

(** ** The service interface as a whole *)

Inductive Request :=
| CreateProject (ownerId name : string)
| ListUserProjects (userId : string)
| AddUserToProject (projectId userId actorId : string)
| CreateTask (actorId projectId title : string) (description : option string)
             (assigneeId dueDate : option string)
| AssignTask (actorId taskId assigneeId : string)
| UpdateTaskStatus (actorId taskId status : string)
| ListProjectTasks (projectId : string)
| ListActivityLogs (projectId : string) (limit : nat)
| SubscribeActivityLogs (projectId : string) (handlers : Handlers)
| Signup (e p : string) (extra : option (list (string * string)))
| Login (e p : string)
| GetCurrentUser
| Logout
| IsAuthenticated.

(** What the caller of a service function observes: the error it has to
    catch, if any. *)
Definition outcome {A} (m : M A) : World -> World * option Exn :=
  fun w =>
    match m w with
    | (w', inr _) => (w', None)
    | (w', inl e) => (w', Some e)
    end.

Definition serve (r : Request) : World -> World * option Exn :=
  match r with
  | CreateProject o n => outcome (createProject o n)
  | ListUserProjects u => outcome (listUserProjects u)
  | AddUserToProject p u a => outcome (addUserToProject p u a)
  | CreateTask a p t d s due => outcome (createTask a p t d s due)
  | AssignTask a t s => outcome (assignTask a t s)
  | UpdateTaskStatus a t s => outcome (updateTaskStatus a t s)
  | ListProjectTasks p => outcome (listProjectTasks p)
  | ListActivityLogs p n => outcome (listActivityLogs p n)
  | SubscribeActivityLogs p h => outcome (subscribeActivityLogs p h)
  | Signup e p x => outcome (signup e p x)
  | Login e p => outcome (login e p)
  | GetCurrentUser => outcome getCurrentUser
  | Logout => outcome logout
  | IsAuthenticated => outcome isAuthenticated
  end.

(** The five operations that write to Project, ProjectMembership or Task. *)
Definition mutating (r : Request) : bool :=
  match r with
  | CreateProject _ _ | AddUserToProject _ _ _ | CreateTask _ _ _ _ _ _
  | AssignTask _ _ _ | UpdateTaskStatus _ _ _ => true
  | _ => false
  end.

(** The write to the primary entity of a mutating operation. *)
Definition primary_write (r : Request) : option Call :=
  match r with
  | CreateProject _ _ => Some (CreateDocument projects)
  | AddUserToProject _ _ _ => Some (CreateDocument project_members)
  | CreateTask _ _ _ _ _ _ => Some (CreateDocument tasks)
  | AssignTask _ t _ => Some (UpdateDocument tasks t)
  | UpdateTaskStatus _ t _ => Some (UpdateDocument tasks t)
  | _ => None
  end.

Definition writes_log (e : Event) : bool :=
  match e with
  | Returned (CreateDocument activity_logs) => true
  | Returned (UpdateDocument activity_logs _) => true
  | _ => false
  end.

Open Scope list_scope.

(** A world to run examples in: an empty store, nobody signed in, no outage. *)
Definition genesis : World :=
  mkWorld empty_store (mkAuthState [] None None) [] "2026-01-01T00:00:00.000Z" [] [] [].

(** The world after [m] has run, whatever it returned. *)
Definition after {A} (m : M A) (w : World) : World := fst (m w).

Unset Implicit Arguments.

(** ** Vocabulary of the statements and worlds to run examples in *)

(** A project with its owner "u1" as only member, and the same project after
    "u1" has added "u2". *)
Definition launch : World := after (createProject "u1" "Launch") genesis.

Definition launch_with_u2 : World := after (addUserToProject "doc_0" "u2" "u1") launch.

(** The two patches the service sends. *)
Definition assign_patch (assigneeId now : string) : PartialTask.t :=
  PartialTask.make None None None None (Some (Some assigneeId)) None None (Some now).

Definition status_patch (status now : string) : PartialTask.t :=
  PartialTask.make None None None (Some status) None None None (Some now).

(** The membership test of the code as a function of the store:
    [isProjectMember] answers this whenever its lookup gets through. *)
Definition is_member (s : Store) (userId projectId : string) : bool :=
  truthy userId && truthy projectId && has_membership s userId projectId.

(** The project of "u1" and "u2" with one task, "doc_5", created by "u1". *)
Definition launch_with_task : World :=
  after (createTask "u1" "doc_0" "Write the brief" None None None) launch_with_u2.

(** The membership rows the lookup of [listUserProjects] selects. *)
Definition rows_of (s : Store) (userId : string) : list (Document ProjectMember.t) :=
  firstn 100
    (filter (fun doc => ProjectMember.userId (data doc) =? userId)
       (st_project_members s)).

(** The project a membership row points to is the one the store holds under
    that id. *)
Definition project_of (s : Store) (m : Document ProjectMember.t)
    (p : Document Project.t) : Prop :=
  find_doc (ProjectMember.projectId (data m)) (st_projects s) = Some p.

Definition fetch_project (m : Document ProjectMember.t) : M (Document Project.t) :=
  getDocument projects (ProjectMember.projectId (data m)).

(** What the fetch of the project of a row can come to: the project the
    store holds under the id, a not-found error when it holds none, or a
    remote failure. *)
Definition fetch_outcome (s : Store) (m : Document ProjectMember.t)
    (r : Exn + Document Project.t) : Prop :=
  match r with
  | inr p => project_of s m p
  | inl e =>
      e = RemoteFailure \/
      (e = NotFound projects (ProjectMember.projectId (data m)) /\
       find_doc (ProjectMember.projectId (data m)) (st_projects s) = None)
  end.

(** [preserves R m]: whatever [m] returns or raises, the world it leaves is
    related by [R] to the world it started in. *)
Definition preserves (R : World -> World -> Prop) {A} (m : M A) : Prop :=
  forall w w' r, m w = (w', r) -> R w w'.

(** A relation between worlds that holds along any sequence of steps, and
    that the bookkeeping of remote calls (schedules, call log) respects. *)
Class Ledger (R : World -> World -> Prop) : Prop := {
  ledger_refl : forall w, R w w;
  ledger_trans : forall a b c, R a b -> R b c -> R a c;
  ledger_faults : forall w f, R w (set_faults f w);
  ledger_races : forall w r, R w (set_races r w);
  ledger_record : forall w e, R w (record e w) }.

(** The activity log only grows: what was there stays, in place and
    unchanged, and new entries come after. *)
Definition log_grows (w w' : World) : Prop := exists new, logs w' = logs w ++ new.

(** [honest m]: the remote calls [m] makes are added to the call log, and
    any of them that failed is the error [m] ends with. *)
Definition honest {A} (m : M A) : Prop :=
  forall w w' r,
    m w = (w', r) ->
    exists evs,
      trace w' = trace w ++ evs /\
      forall call e, In (Raised call e) evs -> r = inl e.

(** [reports m]: the remote calls [m] makes are added to the call log, and
    when any of them failed [m] ends with an error, the error of one of the
    calls that failed. *)
Definition reports {A} (m : M A) : Prop :=
  forall w w' r,
    m w = (w', r) ->
    exists evs,
      trace w' = trace w ++ evs /\
      forall call e, In (Raised call e) evs ->
                     exists call' e', In (Raised call' e') evs /\ r = inl e'.

(** [silent m]: [m] makes no remote call. *)
Definition silent {A} (m : M A) : Prop :=
  forall w w' r, m w = (w', r) -> trace w' = trace w.

(** The channel of watcher [h] is not open in [w]. *)
Definition closed (h : nat) (w : World) : bool :=
  match nth_error (watchers w) h with
  | Some x => negb (connected x)
  | None => true
  end.

(** The disposer of watcher [h], as [subscribeActivityLogs] builds it. *)
Definition disposer (h : nat) : M unit :=
  try_catch (watcher_disconnect h) (fun _ => ret tt).

(** Somebody is signed in and the auth provider cannot be reached. *)
Definition signed_in_offline : World :=
  set_faults [true] (after (signup "ada@example.org" "secret" None) genesis).

(** The project store goes down after the project has been written. *)
Definition outage_after_first_write : World := set_faults [false; true] genesis.

(** ** Further vocabulary: store-level effects and invariants *)

(** What a successful [createDocument] does to the store. *)
Definition put (c : Collection) (d : DataOf c) (s : Store) : Store :=
  bump (set_docs c (docs c s ++ [mkDocument (fresh_id (next_id s)) d]) s).

(** What a successful [updateDocument] on [tasks] does to the store. *)
Definition patched (i : string) (f : Task.t -> Task.t) (s : Store) : Store :=
  set_docs tasks (map (patch_doc i f) (st_tasks s)) s.

(** The tasks of a project, in store order. *)
Definition tasks_of (s : Store) (projectId : string) : list (Document Task.t) :=
  filter (fun doc => Task.projectId (data doc) =? projectId) (st_tasks s).

(** The log entries of a project, in store order. *)
Definition entries_of (s : Store) (projectId : string)
  : list (Document ActivityLog.t) :=
  filter (fun doc => ActivityLog.projectId (data doc) =? projectId)
    (st_activity_logs s).

(** Each element is [le] the next one. *)
Fixpoint chain {T} (le : T -> T -> bool) (l : list T) : Prop :=
  match l with
  | a :: ((b :: _) as rest) => le a b = true /\ chain le rest
  | _ => True
  end.

(** [a] was created no earlier than [b], by their timestamps. *)
Definition newer (a b : Document ActivityLog.t) : bool :=
  String.leb (ActivityLog.createdAt (data b)) (ActivityLog.createdAt (data a)).

(** Most recent first: each entry is no older than the one after it. *)
Definition newest_first (l : list (Document ActivityLog.t)) : Prop := chain newer l.

(** The callbacks [subscribeActivityLogs] registers, in the order it
    registers them. *)
Definition listener (sig : Signal) (handler : option Callback)
  : list (Signal * Callback) :=
  match handler with
  | Some f => [(sig, f)]
  | None => []
  end.

Definition registered (handlers : Handlers) : list (Signal * Callback) :=
  listener SigConnected (onConnected handlers)
  ++ listener SigCreate (onCreate handlers)
  ++ listener SigUpdate (onUpdate handlers)
  ++ listener SigDelete (onDelete handlers)
  ++ listener SigError (onError handlers)
  ++ listener SigClose (onClose handlers).

(** Projects and memberships only grow: what the store held stays, in place
    and unchanged, and new documents come after. *)
Definition archive_grows (w w' : World) : Prop :=
  (exists new, st_projects (store w') = st_projects (store w) ++ new) /\
  (exists new, st_project_members (store w')
               = st_project_members (store w) ++ new).

(** The fields of a task that no service function writes after creation. *)
Definition same_origin (a b : Task.t) : Prop :=
  Task.projectId a = Task.projectId b /\
  Task.title a = Task.title b /\
  Task.description a = Task.description b /\
  Task.dueDate a = Task.dueDate b /\
  Task.createdAt a = Task.createdAt b.

(** Every task of [w] is still there in [w'], under its id and with the
    fields of its creation. *)
Definition tasks_persist (w w' : World) : Prop :=
  forall i before,
    find_doc i (st_tasks (store w)) = Some before ->
    exists now_,
      find_doc i (st_tasks (store w')) = Some now_ /\
      id now_ = id before /\
      same_origin (data now_) (data before).

(** The store is left as it was. *)
Definition store_same (w w' : World) : Prop := store w' = store w.

(** [m] never ends with a ValidationError. *)
Definition past_validation {A} (m : M A) : Prop :=
  forall w w' e, m w = (w', inl e) -> classify e <> ValidationError.

(** When [m] ends with a ValidationError it has done nothing at all. *)
Definition validates_first {A} (m : M A) : Prop :=
  forall w w' e, m w = (w', inl e) -> classify e = ValidationError -> w' = w.

(** A patch that names none of the fields of creation. *)
Definition late_fields_only (p : PartialTask.t) : Prop :=
  PartialTask.projectId p = None /\ PartialTask.title p = None /\
  PartialTask.description p = None /\ PartialTask.dueDate p = None /\
  PartialTask.createdAt p = None.

(** The pair a membership row stands for. *)
Definition pair_of (m : Document ProjectMember.t) : string * string :=
  (ProjectMember.projectId (data m), ProjectMember.userId (data m)).

(** The store has handed out the id [i]. *)
Definition issued (s : Store) (i : string) : Prop :=
  exists k, k < next_id s /\ i = fresh_id k.

(** The store holds a project under the id [i]. *)
Definition has_project (s : Store) (i : string) : Prop :=
  exists p, In p (st_projects s) /\ id p = i.

(** The referential integrity the store does not enforce by itself. *)
Record coherent (s : Store) : Prop := mkCoherent {
  project_ids_issued : forall p, In p (st_projects s) -> issued s (id p);
  task_ids_issued : forall t, In t (st_tasks s) -> issued s (id t);
  task_ids_distinct : NoDup (map id (st_tasks s));
  members_refer :
    forall m, In m (st_project_members s) ->
              has_project s (ProjectMember.projectId (data m));
  members_unique : NoDup (map pair_of (st_project_members s));
  tasks_refer :
    forall t, In t (st_tasks s) -> has_project s (Task.projectId (data t));
  tasks_status :
    forall t, In t (st_tasks s) -> In (Task.status (data t)) TaskStatus;
  tasks_assignee :
    forall t a, In t (st_tasks s) ->
                Task.assigneeId (data t) = Some a -> a <> "" ->
                has_membership s a (Task.projectId (data t)) = true }.

(** The world after a sequence of requests, each served in the world the
    one before has left. *)
Fixpoint serve_all (reqs : list Request) (w : World) : World :=
  match reqs with
  | [] => w
  | req :: rest => serve_all rest (fst (serve req w))
  end.

(** All the membership rows of a user, in store order. *)
Definition memberships_of (s : Store) (userId : string)
  : list (Document ProjectMember.t) :=
  filter (fun doc => ProjectMember.userId (data doc) =? userId)
    (st_project_members s).

(** The call an entry of the call log is about. *)
Definition call_of (e : Event) : Call :=
  match e with
  | Returned call => call
  | Raised call _ => call
  end.

(** "u1" owns two projects, "doc_0" and "doc_3", and the first of the two
    fetches of [listUserProjects] meets an outage. *)
Definition first_fetch_fails : World :=
  set_faults [false; true; false] (after (createProject "u1" "Relaunch") launch).

(** * Reasoning about service computations *)

Arguments fresh_id : simpl never.
Arguments fresh_uid : simpl never.

Ltac service_unfold :=
  cbv beta iota delta [bind ret throw throw_if try_catch Date_now remote
    createDocument listDocuments getDocument updateDocument
    docs set_docs sorted] in *.

Ltac world_simpl :=
  cbn [faults races store trace clock auth watchers record set_faults set_races
       set_store set_auth set_watchers negb bump st_projects st_project_members st_tasks
       st_activity_logs next_id logs id data fst snd DataOf] in *.

Section Schedule.

Variable l : list bool.
Hypothesis calm : forallb negb l = true.

Lemma calm_hd : hd false l = false.
Proof. destruct l as [|[] l']; simpl in *; congruence. Qed.

Lemma calm_tl : forallb negb (tl l) = true.
Proof. destruct l as [|[] l']; simpl in *; congruence. Qed.

End Schedule.

(** Under a calm schedule none of the next calls meets an outage. *)
Ltac calm H :=
  unfold no_faults in H;
  let H0 := fresh "Hcalm" in pose proof (calm_hd _ H) as H0;
  let H1 := fresh "Hcalm" in pose proof (calm_hd _ (calm_tl _ H)) as H1;
  let H2 := fresh "Hcalm" in pose proof (calm_hd _ (calm_tl _ (calm_tl _ H))) as H2;
  let H3 := fresh "Hcalm" in
  pose proof (calm_hd _ (calm_tl _ (calm_tl _ (calm_tl _ H)))) as H3;
  let H4 := fresh "Hcalm" in
  pose proof (calm_hd _ (calm_tl _ (calm_tl _ (calm_tl _ (calm_tl _ H))))) as H4.

Lemma truthy_true (s : string) : s <> "" -> truthy s = true.
Proof. intros H. unfold truthy. apply String.eqb_neq in H. now rewrite H. Qed.

Lemma truthy_nonempty (s : string) : truthy s = true -> s <> "".
Proof. unfold truthy. intros H ->. discriminate. Qed.

Lemma truthy_empty (s : string) : truthy s = false -> s = "".
Proof.
  unfold truthy. intros H. apply negb_false_iff in H. now apply String.eqb_eq in H.
Qed.

Lemma fresh_id_nonempty (n : nat) : fresh_id n <> "".
Proof. unfold fresh_id. simpl. discriminate. Qed.

(** * createProject *)

(** C2. With non-empty arguments and no remote failure, [createProject]
    writes the project, then the owner's membership, then the activity log
    entry (action "create", entity type "project"), in that order and nothing
    else, and returns the project it created; with an empty [ownerId] or an
    empty [name] it fails with a ValidationError and no remote call is made
    (the world, its call log included, is untouched). *)
Theorem createProject_sequence (ownerId name : string) (w : World) :
  (ownerId <> "" -> name <> "" -> no_faults w = true ->
   let n := next_id (store w) in
   let project := mkDocument (fresh_id n) (Project.make name ownerId (clock w)) in
   let member :=
     mkDocument (fresh_id (S n)) (ProjectMember.make (fresh_id n) ownerId (clock w)) in
   let entry :=
     mkDocument (fresh_id (S (S n)))
       (ActivityLog.make (fresh_id n) ownerId "project" (fresh_id n) "create" (clock w)) in
   exists w',
     createProject ownerId name w = (w', inr project) /\
     store w' = mkStore (st_projects (store w) ++ [project])
                        (st_project_members (store w) ++ [member])
                        (st_tasks (store w))
                        (logs w ++ [entry])
                        (S (S (S n))) /\
     trace w' = trace w ++ [Returned (CreateDocument projects);
                            Returned (CreateDocument project_members);
                            Returned (CreateDocument activity_logs)])
  /\
  (ownerId = "" \/ name = "" ->
   exists message,
     createProject ownerId name w = (w, inl (Error message)) /\
     classify (Error message) = ValidationError).
Proof.
  split.
  - intros Ho Hn Hf. calm Hf.
    unfold createProject. service_unfold.
    rewrite (truthy_true _ Ho), (truthy_true _ Hn). world_simpl.
    rewrite Hcalm. world_simpl. rewrite Hcalm0. world_simpl.
    rewrite Hcalm1. world_simpl.
    eexists. split; [reflexivity|]. split; [reflexivity|].
    world_simpl. rewrite <- !app_assoc. reflexivity.
  - intros H. unfold createProject. service_unfold.
    destruct (truthy ownerId) eqn:Eo; cbn [negb].
    + destruct H as [->| ->]; [discriminate|].
      eexists. split; reflexivity.
    + eexists. split; reflexivity.
Qed.

Lemma createProject_sequence_witness :
  exists w',
    createProject "u1" "Launch" genesis
    = (w', inr (mkDocument "doc_0"
                  (Project.make "Launch" "u1" "2026-01-01T00:00:00.000Z")))
    /\ map data (st_project_members (store w'))
       = [ProjectMember.make "doc_0" "u1" "2026-01-01T00:00:00.000Z"]
    /\ map (fun d => ActivityLog.action (data d)) (logs w') = ["create"].
Proof.
  destruct (createProject_sequence "u1" "Launch" genesis) as [H _].
  destruct H as [w' [Hrun [Hstore _]]];
    [discriminate | discriminate | reflexivity |].
  exists w'. split; [exact Hrun|]. unfold logs. rewrite Hstore.
  split; vm_compute; reflexivity.
Defined.

(** * Membership queries *)

Section Queries.

Variable T : Type.
Variable l : list T.

Lemma first_row_missing : (length (firstn 1 l) =? 0)%nat = negb (0 <? length l)%nat.
Proof. destruct l; reflexivity. Qed.

Lemma first_row_present : (0 <? length (firstn 1 l))%nat = (0 <? length l)%nat.
Proof. destruct l; reflexivity. Qed.

End Queries.

Ltac expose_membership :=
  unfold has_membership, member_rows, membership in *.

Lemma has_membership_app (s s' : Store) (p u : string)
    (more : list (Document ProjectMember.t)) :
  st_project_members s' = st_project_members s ++ more ->
  has_membership s u p = true -> has_membership s' u p = true.
Proof.
  unfold has_membership, member_rows. intros -> H.
  rewrite filter_app, length_app. apply Nat.ltb_lt in H. apply Nat.ltb_lt. lia.
Qed.

Lemma has_membership_new (s s' : Store) (p u i joined : string) :
  st_project_members s'
  = st_project_members s ++ [mkDocument i (ProjectMember.make p u joined)] ->
  has_membership s' u p = true.
Proof.
  unfold has_membership, member_rows. intros ->.
  rewrite filter_app, length_app.
  assert (Hn : length (filter (fun doc => membership p u (data doc))
                         [mkDocument i (ProjectMember.make p u joined)]) = 1).
  { unfold membership. cbn. rewrite !String.eqb_refl. reflexivity. }
  rewrite Hn. apply Nat.ltb_lt. lia.
Qed.

(** What [isProjectMember] does, call by call. *)
Lemma isProjectMember_run (userId projectId : string) (w : World) :
  isProjectMember userId projectId w =
  if negb (truthy userId) || negb (truthy projectId) then (w, inr false)
  else if hd false (faults w)
  then (record (Raised (ListDocuments project_members) RemoteFailure)
          (set_faults (tl (faults w)) w), inl RemoteFailure)
  else (record (Returned (ListDocuments project_members))
          (set_faults (tl (faults w)) w),
        inr (has_membership (store w) userId projectId)).
Proof.
  unfold isProjectMember.
  destruct (negb (truthy userId) || negb (truthy projectId)); [reflexivity|].
  service_unfold. destruct (hd false (faults w)); [reflexivity|].
  world_simpl. rewrite first_row_present. reflexivity.
Qed.

(** Settles the test the run in [H] branches on next: by an equation already
    at hand, or else by cases. *)
Ltac branch H :=
  first
    [ match goal with
      | E : ?c = _ |- _ =>
          match type of H with
          | context[match c with _ => _ end] =>
              rewrite E in H; world_simpl; try discriminate H
          end
      end
    | match type of H with
      | context[if ?c then _ else _] =>
          let E := fresh "E" in destruct c eqn:E; world_simpl; try discriminate H
      | context[match ?c with Some _ => _ | None => _ end] =>
          let E := fresh "E" in destruct c eqn:E; world_simpl; try discriminate H
      end ].

Lemma returned_eq {A} (w w' : World) (a a' : A) :
  (w, @inr Exn A a) = (w', inr a') -> w = w' /\ a = a'.
Proof. intros H. split; congruence. Qed.

Lemma raised_eq {A} (w w' : World) (e e' : Exn) :
  (w, @inl Exn A e) = (w', inl e') -> w = w' /\ e = e'.
Proof. intros H. split; congruence. Qed.

(** A finished run: read the resulting world and value off [H]. *)
Ltac finished H :=
  first [ apply returned_eq in H | apply raised_eq in H ];
  let Hw := fresh "Hw" in
  let Hr := fresh "Hr" in
  destruct H as [Hw Hr]; subst; world_simpl.

(** A run that ended in an error of the service's own making wrote nothing. *)
Ltac wrote_nothing H :=
  repeat (first [ discriminate H
                | apply raised_eq in H; destruct H as [<- _]; reflexivity
                | branch H ]).

(** * addUserToProject *)

Lemma addUserToProject_success (p u a : string) (w w1 : World)
    (m : Document ProjectMember.t) :
  addUserToProject p u a w = (w1, inr m) ->
  let n := next_id (store w) in
  p <> "" /\ u <> "" /\ a <> "" /\
  has_membership (store w) a p = true /\
  has_membership (store w) u p = false /\
  m = mkDocument (fresh_id n) (ProjectMember.make p u (clock w)) /\
  store w1 = mkStore (st_projects (store w))
                     (st_project_members (store w) ++ [m])
                     (st_tasks (store w))
                     (logs w ++ [mkDocument (fresh_id (S n))
                                   (ActivityLog.make p a "project_member" (fresh_id n)
                                      "add_member" (clock w))])
                     (S (S n)) /\
  trace w1 = trace w ++ [Returned (ListDocuments project_members);
                         Returned (ListDocuments project_members);
                         Returned (CreateDocument project_members);
                         Returned (CreateDocument activity_logs)] /\
  faults w1 = tl (tl (tl (tl (faults w)))).
Proof.
  intros H n. subst n. unfold addUserToProject in H. service_unfold.
  destruct (truthy p) eqn:Ep; [|discriminate H].
  destruct (truthy u) eqn:Eu; [|discriminate H].
  destruct (truthy a) eqn:Ea; [|discriminate H].
  cbn [negb] in H.
  branch H. rewrite first_row_missing in H. branch H.
  apply negb_false_iff in E0.
  branch H. rewrite first_row_present in H. branch H.
  branch H. branch H. finished H.
  repeat split; auto using truthy_nonempty.
  rewrite <- !app_assoc. reflexivity.
Qed.

Lemma addUserToProject_run (p u a : string) (w : World) :
  p <> "" -> u <> "" -> a <> "" -> no_faults w = true ->
  exists w',
    addUserToProject p u a w
    = (w', if has_membership (store w) a p
           then if has_membership (store w) u p
                then inl (Error "user is already a member of the project")
                else inr (mkDocument (fresh_id (next_id (store w)))
                            (ProjectMember.make p u (clock w)))
           else inl (Error "actor is not a member of the project")) /\
    (has_membership (store w) a p = false ->
     trace w' = trace w ++ [Returned (ListDocuments project_members)]).
Proof.
  intros Hp Hu Ha Hf. calm Hf.
  unfold addUserToProject. service_unfold.
  rewrite (truthy_true _ Hp), (truthy_true _ Hu), (truthy_true _ Ha). world_simpl.
  rewrite Hcalm. world_simpl. rewrite first_row_missing.
  expose_membership.
  destruct (0 <? length _)%nat eqn:E1; world_simpl.
  - rewrite Hcalm0. world_simpl. rewrite first_row_present.
    destruct (0 <? length _)%nat eqn:E2 in |- *; world_simpl.
    + eexists; split; [reflexivity|]. discriminate.
    + rewrite Hcalm1. world_simpl. rewrite Hcalm2. world_simpl.
      eexists; split; [reflexivity|]. discriminate.
  - eexists; split; [reflexivity|]. reflexivity.
Qed.

(** An error thrown by the service itself leaves the store as it was. *)
Lemma addUserToProject_error (p u a message : string) (w w' : World) :
  addUserToProject p u a w = (w', inl (Error message)) -> store w' = store w.
Proof.
  intros H. unfold addUserToProject in H. service_unfold. wrote_nothing H.
Qed.

(** C3. Once [addUserToProject] has succeeded the pair has a membership row,
    so [isProjectMember userId projectId] answers true, and the same call
    made a second time fails with the ConflictError "user is already a
    member of the project" and writes nothing. So does a second call for the
    same pair made by any other member of the project; the actor of the
    first call is a member. *)
Theorem addUserToProject_then_member (projectId userId actorId : string)
    (w w1 : World) (member : Document ProjectMember.t) :
  addUserToProject projectId userId actorId w = (w1, inr member) ->
  (no_faults w1 = true ->
   exists w2, isProjectMember userId projectId w1 = (w2, inr true)) /\
  (no_faults w1 = true ->
   exists w2,
     addUserToProject projectId userId actorId w1
     = (w2, inl (Error "user is already a member of the project")) /\
     classify (Error "user is already a member of the project") = ConflictError /\
     store w2 = store w1) /\
  (forall actor,
     actor <> "" -> has_membership (store w1) actor projectId = true ->
     no_faults w1 = true ->
     exists w2,
       addUserToProject projectId userId actor w1
       = (w2, inl (Error "user is already a member of the project")) /\
       classify (Error "user is already a member of the project") = ConflictError /\
       store w2 = store w1) /\
  actorId <> "" /\ has_membership (store w1) actorId projectId = true.
Proof.
  intros H.
  destruct (addUserToProject_success _ _ _ _ _ _ H)
    as (Hp & Hu & Ha & Hactor & _ & Hm & Hstore & _).
  assert (Hrows : st_project_members (store w1)
                  = st_project_members (store w) ++ [member])
    by (rewrite Hstore; reflexivity).
  assert (Huser : has_membership (store w1) userId projectId = true)
    by (rewrite Hm in Hrows; exact (has_membership_new _ _ _ _ _ _ Hrows)).
  assert (Hagain : forall actor,
             actor <> "" -> has_membership (store w1) actor projectId = true ->
             no_faults w1 = true ->
             exists w2,
               addUserToProject projectId userId actor w1
               = (w2, inl (Error "user is already a member of the project")) /\
               classify (Error "user is already a member of the project")
               = ConflictError /\
               store w2 = store w1).
  { intros actor Hne Hmem Hf.
    destruct (addUserToProject_run _ _ _ _ Hp Hu Hne Hf) as (w2 & Hrun & _).
    rewrite Hmem, Huser in Hrun.
    exists w2. split; [exact Hrun|]. split; [reflexivity|].
    exact (addUserToProject_error _ _ _ _ _ _ Hrun). }
  split; [|split; [|split; [|split]]].
  - intros Hf. rewrite isProjectMember_run.
    rewrite (truthy_true _ Hu), (truthy_true _ Hp). cbn [negb orb].
    rewrite (calm_hd _ Hf), Huser. eexists. reflexivity.
  - intros Hf. apply Hagain; [exact Ha | | exact Hf].
    exact (has_membership_app _ _ _ _ _ Hrows Hactor).
  - intros actor Hne Hmem Hf.
    destruct (addUserToProject_run _ _ _ _ Hp Hu Hne Hf) as (w2 & Hrun & _).
    rewrite Hmem, Huser in Hrun.
    exists w2. split; [exact Hrun|]. split; [reflexivity|].
    exact (addUserToProject_error _ _ _ _ _ _ Hrun).
  - exact Ha.
  - exact (has_membership_app _ _ _ _ _ Hrows Hactor).
Qed.

Lemma addUserToProject_then_member_witness :
  exists w2,
    addUserToProject "doc_0" "u2" "u1" launch_with_u2
    = (w2, inl (Error "user is already a member of the project")).
Proof.
  assert (H : addUserToProject "doc_0" "u2" "u1" launch
              = (launch_with_u2,
                 inr (mkDocument "doc_3"
                        (ProjectMember.make "doc_0" "u2" "2026-01-01T00:00:00.000Z"))))
    by (vm_compute; reflexivity).
  destruct (addUserToProject_then_member _ _ _ _ _ _ H) as (_ & Hagain & _).
  destruct Hagain as (w2 & Hrun & _); [vm_compute; reflexivity|].
  exists w2. exact Hrun.
Defined.

(** C10. When the actor is not a member of the project and the user already
    is, [addUserToProject] fails with the AuthorizationError "actor is not a
    member of the project": the actor lookup is the only remote call made, so
    the duplicate check is never reached. Whichever of the two checks turns
    the call down, the store is left as it was. *)
Theorem addUserToProject_actor_check_first (projectId userId actorId : string)
    (w : World) :
  (projectId <> "" -> userId <> "" -> actorId <> "" ->
   has_membership (store w) actorId projectId = false ->
   has_membership (store w) userId projectId = true ->
   no_faults w = true ->
   exists w',
     addUserToProject projectId userId actorId w
     = (w', inl (Error "actor is not a member of the project")) /\
     classify (Error "actor is not a member of the project") = AuthorizationError /\
     trace w' = trace w ++ [Returned (ListDocuments project_members)] /\
     store w' = store w)
  /\
  (forall w' e,
     addUserToProject projectId userId actorId w = (w', inl e) ->
     classify e = AuthorizationError \/ classify e = ConflictError ->
     store w' = store w).
Proof.
  split.
  - intros Hp Hu Ha Hactor Huser Hf.
    destruct (addUserToProject_run _ _ _ _ Hp Hu Ha Hf) as (w' & Hrun & Htrace).
    rewrite Hactor in Hrun.
    exists w'. split; [exact Hrun|]. split; [reflexivity|].
    split; [exact (Htrace Hactor)|].
    exact (addUserToProject_error _ _ _ _ _ _ Hrun).
  - intros w' e Hrun Hkind.
    destruct e as [message| | |];
      try (destruct Hkind; discriminate).
    exact (addUserToProject_error _ _ _ _ _ _ Hrun).
Qed.

Lemma addUserToProject_actor_check_first_witness :
  exists w',
    addUserToProject "doc_0" "u2" "u3" launch_with_u2
    = (w', inl (Error "actor is not a member of the project")) /\
    store w' = store launch_with_u2.
Proof.
  destruct (addUserToProject_actor_check_first "doc_0" "u2" "u3" launch_with_u2)
    as [H _].
  destruct H as (w' & Hrun & _ & _ & Hstore);
    [discriminate | discriminate | discriminate
    | vm_compute; reflexivity | vm_compute; reflexivity | vm_compute; reflexivity |].
  exists w'. split; assumption.
Defined.

(** * The tasks service *)

Lemma find_doc_id {T} (i : string) (l : list (Document T)) (d : Document T) :
  find_doc i l = Some d -> id d = i.
Proof.
  unfold find_doc. intros H. apply find_some in H. destruct H as [_ H].
  now apply String.eqb_eq in H.
Qed.

Lemma find_doc_patched {T} (i : string) (f : T -> T) (l : list (Document T))
    (d : Document T) :
  find_doc i l = Some d ->
  find_doc i (map (patch_doc i f) l) = Some (mkDocument i (f (data d))).
Proof.
  unfold find_doc. induction l as [|x l IH]; [discriminate|]. cbn [find map].
  unfold patch_doc at 1 2. destruct (id x =? i) eqn:E.
  - cbn [id]. rewrite E. intros [= <-]. apply String.eqb_eq in E. now rewrite E.
  - rewrite E. exact IH.
Qed.

Lemma find_doc_untouched {T} (i j : string) (f : T -> T) (l : list (Document T)) :
  j <> i -> find_doc j (map (patch_doc i f) l) = find_doc j l.
Proof.
  intros Hne. unfold find_doc. induction l as [|x l IH]; [reflexivity|].
  cbn [find map]. unfold patch_doc at 1 2. destruct (id x =? i) eqn:E.
  - cbn [id]. apply String.eqb_eq in E. rewrite E.
    apply String.eqb_neq in Hne. rewrite String.eqb_sym in Hne. rewrite Hne.
    exact IH.
  - destruct (id x =? j); [reflexivity|exact IH].
Qed.

Lemma createTask_success (a p t : string) (d s due : option string) (w w1 : World)
    (task : Document Task.t) :
  createTask a p t d s due w = (w1, inr task) ->
  let n := next_id (store w) in
  a <> "" /\ p <> "" /\ t <> "" /\
  has_membership (store w) a p = true /\
  (forall x, s = Some x -> x <> "" -> has_membership (store w) x p = true) /\
  task = mkDocument (fresh_id n) (Task.make p t d "todo" s due (clock w) (clock w)) /\
  store w1 = mkStore (st_projects (store w)) (st_project_members (store w))
               (st_tasks (store w) ++ [task])
               (logs w ++ [mkDocument (fresh_id (S n))
                             (ActivityLog.make p a "task" (fresh_id n) "create" (clock w))])
               (S (S n)) /\
  exists lookups,
    trace w1 = trace w ++ lookups ++ [Returned (CreateDocument tasks);
                                      Returned (CreateDocument activity_logs)] /\
    Forall (eq (Returned (ListDocuments project_members))) lookups.
Proof.
  intros H n. subst n. unfold createTask in H. service_unfold.
  destruct (truthy a) eqn:Ea; [|discriminate H].
  destruct (truthy p) eqn:Ep; [|discriminate H].
  destruct (truthy t) eqn:Et; [|discriminate H].
  cbn [negb] in H.
  rewrite isProjectMember_run, Ea, Ep in H. cbn [negb orb] in H.
  branch H. branch H. apply negb_false_iff in E0.
  destruct s as [x|]; [destruct (truthy x) eqn:Ex|].
  - rewrite isProjectMember_run, Ex, Ep in H. cbn [negb orb] in H.
    branch H. branch H. apply negb_false_iff in E2.
    branch H. branch H. finished H.
    repeat split; auto using truthy_nonempty.
    + intros y [= <-] _. exact E2.
    + exists [Returned (ListDocuments project_members);
              Returned (ListDocuments project_members)].
      split; [rewrite <- !app_assoc; reflexivity | repeat constructor].
  - branch H. branch H. finished H.
    repeat split; auto using truthy_nonempty.
    + intros y [= <-] Hy. apply truthy_empty in Ex. contradiction.
    + exists [Returned (ListDocuments project_members)].
      split; [rewrite <- !app_assoc; reflexivity | repeat constructor].
  - branch H. branch H. finished H.
    repeat split; auto using truthy_nonempty.
    + discriminate.
    + exists [Returned (ListDocuments project_members)].
      split; [rewrite <- !app_assoc; reflexivity | repeat constructor].
Qed.

Lemma createTask_error (a p t message : string) (d s due : option string)
    (w w' : World) :
  createTask a p t d s due w = (w', inl (Error message)) -> store w' = store w.
Proof.
  intros H. unfold createTask in H. service_unfold.
  destruct (truthy a) eqn:Ea; [|wrote_nothing H].
  destruct (truthy p) eqn:Ep; [|wrote_nothing H].
  destruct (truthy t) eqn:Et; [|wrote_nothing H].
  cbn [negb] in H.
  rewrite isProjectMember_run, Ea, Ep in H. cbn [negb orb] in H.
  branch H. branch H; [wrote_nothing H|].
  destruct s as [x|]; [destruct (truthy x) eqn:Ex|].
  - rewrite isProjectMember_run, Ex, Ep in H. cbn [negb orb] in H.
    wrote_nothing H.
  - wrote_nothing H.
  - wrote_nothing H.
Qed.

Lemma assignTask_success (a t s : string) (w w1 : World) (updated : Document Task.t) :
  assignTask a t s w = (w1, inr updated) ->
  exists before,
    a <> "" /\ t <> "" /\ s <> "" /\
    find_doc t (st_tasks (store w)) = Some before /\
    is_member (store w) a (Task.projectId (data before)) = true /\
    is_member (store w) s (Task.projectId (data before)) = true /\
    updated = mkDocument t (merge_Task (assign_patch s (clock w)) (data before)) /\
    store w1 = mkStore (st_projects (store w)) (st_project_members (store w))
                 (map (patch_doc t (merge_Task (assign_patch s (clock w))))
                    (st_tasks (store w)))
                 (logs w ++ [mkDocument (fresh_id (next_id (store w)))
                               (ActivityLog.make (Task.projectId (data before)) a
                                  "task" t "assign" (clock w))])
                 (S (next_id (store w))) /\
    trace w1 = trace w ++ [Returned (GetDocument tasks t);
                           Returned (ListDocuments project_members);
                           Returned (ListDocuments project_members);
                           Returned (UpdateDocument tasks t);
                           Returned (CreateDocument activity_logs)].
Proof.
  intros H. unfold assignTask in H. service_unfold.
  destruct (truthy a) eqn:Ea; [|discriminate H].
  destruct (truthy t) eqn:Et; [|discriminate H].
  destruct (truthy s) eqn:Es; [|discriminate H].
  cbn [negb] in H.
  branch H. branch H. rewrite isProjectMember_run, Ea in H. cbn [negb orb] in H.
  destruct (truthy (Task.projectId (data d))) eqn:Ep; cbn [negb] in H;
    [|discriminate H].
  branch H. branch H. apply negb_false_iff in E2.
  rewrite isProjectMember_run, Es, Ep in H. cbn [negb orb] in H.
  branch H. branch H. apply negb_false_iff in E4.
  branch H. branch H. branch H. finished H.
  exists d. pose proof (find_doc_id _ _ _ E0) as Hid.
  unfold patch_doc, is_member. rewrite Hid, String.eqb_refl, Ea, Es, Ep, E2, E4.
  repeat split; auto using truthy_nonempty.
  rewrite <- !app_assoc. reflexivity.
Qed.

Lemma updateTaskStatus_success (a t s : string) (w w1 : World)
    (updated : Document Task.t) :
  updateTaskStatus a t s w = (w1, inr updated) ->
  exists before,
    a <> "" /\ t <> "" /\ includes TaskStatus s = true /\
    find_doc t (st_tasks (store w)) = Some before /\
    is_member (store w) a (Task.projectId (data before)) = true /\
    updated = mkDocument t (merge_Task (status_patch s (clock w)) (data before)) /\
    store w1 = mkStore (st_projects (store w)) (st_project_members (store w))
                 (map (patch_doc t (merge_Task (status_patch s (clock w))))
                    (st_tasks (store w)))
                 (logs w ++ [mkDocument (fresh_id (next_id (store w)))
                               (ActivityLog.make (Task.projectId (data before)) a
                                  "task" t ("status:" ++ s)%string (clock w))])
                 (S (next_id (store w))) /\
    trace w1 = trace w ++ [Returned (GetDocument tasks t);
                           Returned (ListDocuments project_members);
                           Returned (UpdateDocument tasks t);
                           Returned (CreateDocument activity_logs)].
Proof.
  intros H. unfold updateTaskStatus in H. service_unfold.
  destruct (truthy a) eqn:Ea; [|discriminate H].
  destruct (truthy t) eqn:Et; [|discriminate H].
  destruct (truthy s) eqn:Es; [|discriminate H].
  destruct (includes TaskStatus s) eqn:Ei; [|discriminate H].
  cbn [negb] in H.
  branch H. branch H. rewrite isProjectMember_run, Ea in H. cbn [negb orb] in H.
  destruct (truthy (Task.projectId (data d))) eqn:Ep; cbn [negb] in H;
    [|discriminate H].
  branch H. branch H. apply negb_false_iff in E2.
  branch H. branch H. branch H. finished H.
  exists d. pose proof (find_doc_id _ _ _ E0) as Hid.
  unfold patch_doc, is_member. rewrite Hid, String.eqb_refl, Ea, Ep, E2.
  repeat split; auto using truthy_nonempty.
  rewrite <- !app_assoc. reflexivity.
Qed.

Lemma updateTaskStatus_error (a t s message : string) (w w' : World) :
  updateTaskStatus a t s w = (w', inl (Error message)) -> store w' = store w.
Proof.
  intros H. unfold updateTaskStatus in H. service_unfold.
  destruct (truthy a) eqn:Ea; [|wrote_nothing H].
  destruct (truthy t) eqn:Et; [|wrote_nothing H].
  destruct (truthy s) eqn:Es; [|wrote_nothing H].
  destruct (includes TaskStatus s) eqn:Ei; [|wrote_nothing H].
  cbn [negb] in H.
  branch H. branch H. rewrite isProjectMember_run in H. wrote_nothing H.
Qed.

Lemma createTask_run (a p t : string) (d s due : option string) (w : World) :
  a <> "" -> p <> "" -> t <> "" -> no_faults w = true ->
  exists w',
    createTask a p t d s due w
    = (w', if has_membership (store w) a p
           then if match s with
                   | Some x => truthy x && negb (has_membership (store w) x p)
                   | None => false
                   end
                then inl (Error "assignee is not a member of the project")
                else inr (mkDocument (fresh_id (next_id (store w)))
                            (Task.make p t d "todo" s due (clock w) (clock w)))
           else inl (Error "actor is not a member of the project")).
Proof.
  intros Ha Hp Ht Hf. calm Hf.
  unfold createTask. service_unfold.
  rewrite (truthy_true _ Ha), (truthy_true _ Hp), (truthy_true _ Ht). cbn [negb].
  rewrite isProjectMember_run, (truthy_true _ Ha), (truthy_true _ Hp).
  cbn [negb orb]. rewrite Hcalm. world_simpl.
  destruct (has_membership (store w) a p); world_simpl;
    [|eexists; reflexivity].
  destruct s as [x|]; [destruct (truthy x) eqn:Ex|]; cbn [andb].
  - rewrite isProjectMember_run, Ex, (truthy_true _ Hp). cbn [negb orb].
    world_simpl. rewrite Hcalm0. world_simpl.
    destruct (has_membership (store w) x p); world_simpl;
      [|eexists; reflexivity].
    rewrite Hcalm1. world_simpl. rewrite Hcalm2. world_simpl.
    eexists; reflexivity.
  - world_simpl. rewrite Hcalm0. world_simpl. rewrite Hcalm1. world_simpl.
    eexists; reflexivity.
  - world_simpl. rewrite Hcalm0. world_simpl. rewrite Hcalm1. world_simpl.
    eexists; reflexivity.
Qed.

Lemma status_truthy (s : string) : includes TaskStatus s = true -> truthy s = true.
Proof.
  unfold includes, TaskStatus. cbn [existsb]. intros H.
  destruct s; [discriminate H | reflexivity].
Qed.

Lemma includes_In (l : list string) (s : string) :
  includes l s = true <-> In s l.
Proof.
  unfold includes. rewrite existsb_exists. split.
  - intros (x & Hx & E). apply String.eqb_eq in E. now subst.
  - intros H. exists s. split; [exact H | apply String.eqb_refl].
Qed.

Lemma updateTaskStatus_run (a t s : string) (w : World) (before : Document Task.t) :
  t <> "" ->
  find_doc t (st_tasks (store w)) = Some before ->
  is_member (store w) a (Task.projectId (data before)) = true ->
  includes TaskStatus s = true ->
  no_faults w = true ->
  exists w',
    updateTaskStatus a t s w
    = (w', inr (mkDocument t (merge_Task (status_patch s (clock w)) (data before)))).
Proof.
  intros Ht Hfind Hmem Hs Hf. calm Hf.
  unfold is_member in Hmem. apply andb_prop in Hmem. destruct Hmem as [Hmem Hrow].
  apply andb_prop in Hmem. destruct Hmem as [Ha Hp].
  unfold updateTaskStatus. service_unfold.
  rewrite Ha, (truthy_true _ Ht), (status_truthy _ Hs), Hs. cbn [negb].
  rewrite Hcalm. world_simpl. rewrite Hfind. world_simpl.
  rewrite isProjectMember_run, Ha, Hp. cbn [negb orb]. world_simpl.
  rewrite Hcalm0, Hrow. world_simpl.
  rewrite Hcalm1. world_simpl. rewrite Hfind. world_simpl.
  rewrite Hcalm2. world_simpl.
  unfold patch_doc. rewrite (find_doc_id _ _ _ Hfind), String.eqb_refl.
  eexists. reflexivity.
Qed.

(** C4. An actor without a membership row for the project cannot create a
    task in it: with non-empty [actorId], [projectId] and [title], and no
    remote failure, [createTask] fails with the AuthorizationError "actor is
    not a member of the project" and leaves the store, hence the tasks and the
    activity log, exactly as they were. *)
Theorem createTask_requires_membership (actorId projectId title : string)
    (description assigneeId dueDate : option string) (w : World) :
  actorId <> "" -> projectId <> "" -> title <> "" ->
  has_membership (store w) actorId projectId = false ->
  no_faults w = true ->
  exists w',
    createTask actorId projectId title description assigneeId dueDate w
    = (w', inl (Error "actor is not a member of the project")) /\
    classify (Error "actor is not a member of the project") = AuthorizationError /\
    store w' = store w.
Proof.
  intros Ha Hp Ht Hmem Hf.
  destruct (createTask_run actorId projectId title description assigneeId dueDate w
              Ha Hp Ht Hf) as (w' & Hrun).
  rewrite Hmem in Hrun.
  exists w'. split; [exact Hrun|]. split; [reflexivity|].
  exact (createTask_error _ _ _ _ _ _ _ _ _ Hrun).
Qed.

Lemma createTask_requires_membership_witness :
  exists w',
    createTask "u3" "doc_0" "Sneak in" None None None launch_with_u2
    = (w', inl (Error "actor is not a member of the project")) /\
    store w' = store launch_with_u2.
Proof.
  destruct (createTask_requires_membership "u3" "doc_0" "Sneak in" None None None
              launch_with_u2) as (w' & Hrun & _ & Hstore);
    [discriminate | discriminate | discriminate
    | vm_compute; reflexivity | vm_compute; reflexivity |].
  exists w'. split; assumption.
Defined.

(** C5, as the code has it. When [assigneeId] is a non-empty string without a
    membership row for the project, [createTask] fails with an
    AuthorizationError and writes nothing; if the actor is a member the error
    is "assignee is not a member of the project". *)
Theorem createTask_checks_assignee (actorId projectId title assigneeId : string)
    (description dueDate : option string) (w : World) :
  actorId <> "" -> projectId <> "" -> title <> "" ->
  assigneeId <> "" ->
  has_membership (store w) assigneeId projectId = false ->
  no_faults w = true ->
  exists w' message,
    createTask actorId projectId title description (Some assigneeId) dueDate w
    = (w', inl (Error message)) /\
    classify (Error message) = AuthorizationError /\
    store w' = store w /\
    (has_membership (store w) actorId projectId = true ->
     message = "assignee is not a member of the project").
Proof.
  intros Ha Hp Ht Hs Hmem Hf.
  destruct (createTask_run actorId projectId title description (Some assigneeId)
              dueDate w Ha Hp Ht Hf) as (w' & Hrun).
  rewrite Hmem, (truthy_true _ Hs) in Hrun. cbn [negb andb] in Hrun.
  exists w'.
  destruct (has_membership (store w) actorId projectId);
    eexists; (split; [exact Hrun|]); (split; [reflexivity|]);
    (split; [exact (createTask_error _ _ _ _ _ _ _ _ _ Hrun)|]);
    [reflexivity | discriminate].
Qed.

Lemma createTask_checks_assignee_witness :
  exists w',
    createTask "u1" "doc_0" "Review" None (Some "u3") None launch_with_u2
    = (w', inl (Error "assignee is not a member of the project")) /\
    store w' = store launch_with_u2.
Proof.
  destruct (createTask_checks_assignee "u1" "doc_0" "Review" "u3" None None
              launch_with_u2) as (w' & message & Hrun & _ & Hstore & Hmsg);
    [discriminate | discriminate | discriminate | discriminate
    | vm_compute; reflexivity | vm_compute; reflexivity |].
  exists w'. rewrite Hmsg in Hrun by (vm_compute; reflexivity).
  split; assumption.
Defined.

(** C5 as the spec words it fails on the empty string: [if (assigneeId)]
    takes an empty [assigneeId] for an absent one, so a member's call with
    [assigneeId = ""], which has no membership row, goes through and the task
    is stored. *)
Lemma createTask_empty_assignee_unchecked :
  exists w' task,
    has_membership (store launch) "" "doc_0" = false /\
    createTask "u1" "doc_0" "Review" None (Some "") None launch = (w', inr task) /\
    Task.assigneeId (data task) = Some "" /\
    st_tasks (store w') = st_tasks (store launch) ++ [task].
Proof.
  exists (after (createTask "u1" "doc_0" "Review" None (Some "") None) launch).
  exists (mkDocument "doc_3"
            (Task.make "doc_0" "Review" None "todo" (Some "") None
               "2026-01-01T00:00:00.000Z" "2026-01-01T00:00:00.000Z")).
  split; [vm_compute; reflexivity|].
  split; [vm_compute; reflexivity|].
  split; vm_compute; reflexivity.
Qed.

(** C6. On an existing task and for an actor who is a member of its project,
    [updateTaskStatus] accepts each of "todo", "doing" and "done" whatever
    the status the task has: it returns the task with [status] set to the
    given value and [updatedAt] set to the current time, the store holds that
    task under [taskId], and one entry with action "status:" followed by the
    status is appended to the activity log. A status outside the three values
    is turned down with a ValidationError before any remote call, so before
    the task is fetched (the world, its call log included, is untouched). *)
Theorem updateTaskStatus_sets_status (actorId taskId status : string) (w : World) :
  (forall before,
     taskId <> "" ->
     find_doc taskId (st_tasks (store w)) = Some before ->
     is_member (store w) actorId (Task.projectId (data before)) = true ->
     In status TaskStatus ->
     no_faults w = true ->
     exists w' updated,
       updateTaskStatus actorId taskId status w = (w', inr updated) /\
       find_doc taskId (st_tasks (store w')) = Some updated /\
       Task.status (data updated) = status /\
       Task.updatedAt (data updated) = clock w /\
       logs w' = logs w ++
                 [mkDocument (fresh_id (next_id (store w)))
                    (ActivityLog.make (Task.projectId (data before)) actorId "task"
                       taskId ("status:" ++ status)%string (clock w))])
  /\
  (~ In status TaskStatus ->
   exists message,
     updateTaskStatus actorId taskId status w = (w, inl (Error message)) /\
     classify (Error message) = ValidationError).
Proof.
  split.
  - intros before Ht Hfind Hmem Hs Hf. apply includes_In in Hs.
    destruct (updateTaskStatus_run actorId taskId status w before Ht Hfind Hmem Hs Hf)
      as (w' & Hrun).
    destruct (updateTaskStatus_success _ _ _ _ _ _ Hrun)
      as (b & _ & _ & _ & Hb & _ & _ & Hstore & _).
    rewrite Hfind in Hb. injection Hb as <-.
    exists w'. eexists. split; [exact Hrun|].
    unfold logs. rewrite Hstore. cbn [st_tasks st_activity_logs data].
    split; [exact (find_doc_patched _ _ _ _ Hfind)|].
    repeat split.
  - intros Hs. unfold updateTaskStatus. service_unfold.
    destruct (includes TaskStatus status) eqn:Ei;
      [apply includes_In in Ei; contradiction|].
    destruct (truthy actorId); cbn [negb]; [|eexists; split; reflexivity].
    destruct (truthy taskId); cbn [negb]; [|eexists; split; reflexivity].
    destruct (truthy status); cbn [negb]; eexists; split; reflexivity.
Qed.

Lemma updateTaskStatus_sets_status_witness :
  exists w' updated,
    updateTaskStatus "u2" "doc_5" "done" launch_with_task = (w', inr updated) /\
    Task.status (data updated) = "done" /\
    map (fun d => ActivityLog.action (data d)) (logs w')
    = ["create"; "add_member"; "create"; "status:done"].
Proof.
  destruct (updateTaskStatus_sets_status "u2" "doc_5" "done" launch_with_task)
    as [H _].
  destruct (H (mkDocument "doc_5"
                 (Task.make "doc_0" "Write the brief" None "todo" None None
                    "2026-01-01T00:00:00.000Z" "2026-01-01T00:00:00.000Z")))
    as (w' & updated & Hrun & _ & Hstatus & _ & Hlogs);
    [discriminate | vm_compute; reflexivity | vm_compute; reflexivity
    | right; right; left; reflexivity | vm_compute; reflexivity |].
  exists w', updated. split; [exact Hrun|]. split; [exact Hstatus|].
  rewrite Hlogs. vm_compute. reflexivity.
Defined.

(** C9. A successful [assignTask] leaves the task with every field as it was
    except [assigneeId], now the assignee, and [updatedAt], now the current
    time; a successful [updateTaskStatus] leaves it with every field as it
    was except [status], now the given status, and [updatedAt]. In both cases
    the task keeps its id, no other task changes, and projects and memberships
    are untouched. *)
Theorem task_updates_touch_two_fields (actorId taskId : string) (w w' : World)
    (before updated : Document Task.t) :
  find_doc taskId (st_tasks (store w)) = Some before ->
  let frame :=
    find_doc taskId (st_tasks (store w')) = Some updated /\
    id updated = id before /\
    (forall other, other <> taskId ->
       find_doc other (st_tasks (store w')) = find_doc other (st_tasks (store w))) /\
    st_projects (store w') = st_projects (store w) /\
    st_project_members (store w') = st_project_members (store w) in
  (forall assigneeId,
     assignTask actorId taskId assigneeId w = (w', inr updated) ->
     data updated
     = Task.make (Task.projectId (data before)) (Task.title (data before))
         (Task.description (data before)) (Task.status (data before))
         (Some assigneeId)
         (Task.dueDate (data before)) (Task.createdAt (data before)) (clock w) /\
     frame)
  /\
  (forall status,
     updateTaskStatus actorId taskId status w = (w', inr updated) ->
     data updated
     = Task.make (Task.projectId (data before)) (Task.title (data before))
         (Task.description (data before)) status
         (Task.assigneeId (data before))
         (Task.dueDate (data before)) (Task.createdAt (data before)) (clock w) /\
     frame).
Proof.
  intros Hfind frame. subst frame. split.
  - intros assigneeId Hrun.
    destruct (assignTask_success _ _ _ _ _ _ Hrun)
      as (b & _ & _ & _ & Hb & _ & _ & Hup & Hstore & _).
    rewrite Hfind in Hb. injection Hb as <-.
    rewrite Hstore, Hup. cbn [st_tasks st_projects st_project_members data id].
    split; [reflexivity|].
    split; [exact (find_doc_patched _ _ _ _ Hfind)|].
    split; [symmetry; exact (find_doc_id _ _ _ Hfind)|].
    split; [intros other Hne; exact (find_doc_untouched _ _ _ _ Hne)|].
    split; reflexivity.
  - intros status Hrun.
    destruct (updateTaskStatus_success _ _ _ _ _ _ Hrun)
      as (b & _ & _ & _ & Hb & _ & Hup & Hstore & _).
    rewrite Hfind in Hb. injection Hb as <-.
    rewrite Hstore, Hup. cbn [st_tasks st_projects st_project_members data id].
    split; [reflexivity|].
    split; [exact (find_doc_patched _ _ _ _ Hfind)|].
    split; [symmetry; exact (find_doc_id _ _ _ Hfind)|].
    split; [intros other Hne; exact (find_doc_untouched _ _ _ _ Hne)|].
    split; reflexivity.
Qed.

Lemma task_updates_touch_two_fields_witness :
  find_doc "doc_5"
    (st_tasks (store (after (assignTask "u1" "doc_5" "u2") launch_with_task)))
  = Some (mkDocument "doc_5"
            (Task.make "doc_0" "Write the brief" None "todo" (Some "u2") None
               "2026-01-01T00:00:00.000Z" "2026-01-01T00:00:00.000Z")).
Proof.
  assert (Hfind : find_doc "doc_5" (st_tasks (store launch_with_task))
                  = Some (mkDocument "doc_5"
                            (Task.make "doc_0" "Write the brief" None "todo" None None
                               "2026-01-01T00:00:00.000Z" "2026-01-01T00:00:00.000Z")))
    by (vm_compute; reflexivity).
  assert (Hrun : assignTask "u1" "doc_5" "u2" launch_with_task
                 = (after (assignTask "u1" "doc_5" "u2") launch_with_task,
                    inr (mkDocument "doc_5"
                           (Task.make "doc_0" "Write the brief" None "todo"
                              (Some "u2") None
                              "2026-01-01T00:00:00.000Z" "2026-01-01T00:00:00.000Z"))))
    by (vm_compute; reflexivity).
  destruct (task_updates_touch_two_fields "u1" "doc_5" launch_with_task
              (after (assignTask "u1" "doc_5" "u2") launch_with_task) _
              (mkDocument "doc_5"
                 (Task.make "doc_0" "Write the brief" None "todo" (Some "u2") None
                    "2026-01-01T00:00:00.000Z" "2026-01-01T00:00:00.000Z"))
              Hfind) as [H _].
  destruct (H "u2" Hrun) as (_ & Hafter & _). exact Hafter.
Defined.

(** * listUserProjects *)

Lemma getDocument_returned (c : Collection) (i : string) (w w' : World)
    (doc : Document (DataOf c)) :
  getDocument c i w = (w', inr doc) ->
  find_doc i (docs c (store w)) = Some doc /\ store w' = store w.
Proof.
  intros H. unfold getDocument, remote in H.
  destruct (hd false (faults w)); [discriminate H|].
  cbn [store set_faults] in H.
  destruct (find_doc i (docs c (store w))) as [d|]; [|discriminate H].
  apply returned_eq in H. destruct H as [<- <-]. split; reflexivity.
Qed.

Lemma getDocument_calm (c : Collection) (i : string) (w : World)
    (doc : Document (DataOf c)) :
  no_faults w = true ->
  find_doc i (docs c (store w)) = Some doc ->
  exists w', getDocument c i w = (w', inr doc) /\
             store w' = store w /\ no_faults w' = true.
Proof.
  intros Hf Hfind. unfold getDocument, remote.
  rewrite (calm_hd _ Hf). cbn [store set_faults]. rewrite Hfind.
  eexists. split; [reflexivity|]. split; [reflexivity|].
  exact (calm_tl _ Hf).
Qed.

(** What one fetch does, whatever it comes to. *)
Lemma fetch_project_run (m : Document ProjectMember.t) (w : World) :
  fetch_project m w
  = let i := ProjectMember.projectId (data m) in
    let w0 := set_faults (tl (faults w)) w in
    if hd false (faults w)
    then (record (Raised (GetDocument projects i) RemoteFailure) w0, inl RemoteFailure)
    else
      match find_doc i (st_projects (store w)) with
      | Some p => (record (Returned (GetDocument projects i)) w0, inr p)
      | None => (record (Raised (GetDocument projects i) (NotFound projects i)) w0,
                 inl (NotFound projects i))
      end.
Proof.
  unfold fetch_project, getDocument, remote. cbv zeta.
  destruct (hd false (faults w)); [reflexivity|].
  cbn [store set_faults docs DataOf].
  destruct (find_doc _ (st_projects (store w))); reflexivity.
Qed.

Lemma fetch_project_outcome (m : Document ProjectMember.t) (w w' : World)
    (r : Exn + Document Project.t) :
  fetch_project m w = (w', r) ->
  store w' = store w /\ races w' = races w /\
  faults w' = tl (faults w) /\ fetch_outcome (store w) m r.
Proof.
  rewrite fetch_project_run. cbv zeta. unfold fetch_outcome, project_of.
  destruct (hd false (faults w)).
  - intros E. injection E as <- <-. repeat split. now left.
  - destruct (find_doc _ (st_projects (store w))) as [p|] eqn:Ef;
      intros E; injection E as <- <-; repeat split; auto.
Qed.

(** The fetches of [listUserProjects] leave the store alone, and each comes
    to what the store holds for its row. *)
Lemma settle_all_fetches (ms : list (Document ProjectMember.t)) :
  forall w w' rs,
    settle_all fetch_project ms w = (w', rs) ->
    store w' = store w /\ races w' = races w /\
    Forall2 (fetch_outcome (store w)) ms rs.
Proof.
  induction ms as [|m ms IH]; intros w w' rs H; cbn [settle_all] in H.
  - injection H as <- <-. repeat split. constructor.
  - destruct (fetch_project m w) as [w1 r] eqn:E1.
    destruct (settle_all fetch_project ms w1) as [w2 rs'] eqn:E2.
    injection H as <- <-.
    apply fetch_project_outcome in E1. destruct E1 as (S1 & R1 & _ & O1).
    apply IH in E2. destruct E2 as (S2 & R2 & O2).
    rewrite S1 in S2, O2. rewrite R1 in R2.
    repeat split; [exact S2 | exact R2 |]. constructor; assumption.
Qed.

Lemma fulfilled_all (s : Store) (ms : list (Document ProjectMember.t))
    (rs : list (Exn + Document Project.t)) :
  Forall2 (fetch_outcome s) ms rs -> rejections rs = [] ->
  Forall2 (project_of s) ms (fulfilled rs).
Proof.
  intros HF. induction HF as [|m r ms rs Hr HF IH]; intros Hrej; [constructor|].
  destruct r as [e|p]; [discriminate Hrej|].
  cbn [fulfilled flat_map app]. constructor; [exact Hr|].
  apply IH. exact Hrej.
Qed.

Lemma Promise_all_fetched (ms : list (Document ProjectMember.t)) :
  forall w w' found,
    Promise_all fetch_project ms w = (w', inr found) ->
    Forall2 (project_of (store w)) ms found /\ store w' = store w.
Proof.
  intros w w' found H. unfold Promise_all in H.
  destruct (settle_all fetch_project ms w) as [w1 rs] eqn:E.
  apply settle_all_fetches in E. destruct E as (Hs & _ & HF).
  destruct (rejections rs) eqn:Erej; [|discriminate H].
  apply returned_eq in H. destruct H as [<- <-].
  split; [|exact Hs]. exact (fulfilled_all _ _ _ HF Erej).
Qed.

(** A failed [Promise.all] ends with the error of one of its promises. *)
Lemma Promise_all_rejected {A B} (f : A -> M B) (xs : list A) (w w' : World)
    (e : Exn) :
  Promise_all f xs w = (w', inl e) ->
  exists w1 rs,
    settle_all f xs w = (w1, rs) /\ In e (rejections rs) /\
    w' = set_races (tl (races w1)) w1.
Proof.
  unfold Promise_all. intros H.
  destruct (settle_all f xs w) as [w1 rs] eqn:E.
  exists w1, rs. split; [reflexivity|].
  destruct (rejections rs) as [|e0 es]; [discriminate H|].
  apply raised_eq in H. destruct H as [<- <-]. split; [|reflexivity].
  destruct (nth_in_or_default (hd 0 (races w1)) (e0 :: es) e0) as [Hin| ->];
    [exact Hin | now left].
Qed.

(** Every rejection among the promises is the error one of the calls ended
    with. *)
Lemma settle_all_rejection {A B} (f : A -> M B) (xs : list A) (w w' : World)
    (rs : list (Exn + B)) (e : Exn) :
  settle_all f xs w = (w', rs) -> In e (rejections rs) ->
  exists x w0 w1, In x xs /\ f x w0 = (w1, inl e).
Proof.
  revert w w' rs. induction xs as [|x xs IH]; intros w w' rs H Hin;
    cbn [settle_all] in H.
  - injection H as _ <-. destruct Hin.
  - destruct (f x w) as [w1 r] eqn:E1.
    destruct (settle_all f xs w1) as [w2 rs'] eqn:E2.
    injection H as _ <-.
    change (rejections (r :: rs'))
      with ((match r with inl e => [e] | inr _ => [] end) ++ rejections rs') in Hin.
    apply in_app_or in Hin. destruct Hin as [Hin|Hin].
    + destruct r as [e0|b]; [|destruct Hin]. destruct Hin as [<-|[]].
      exists x, w, w1. split; [now left | exact E1].
    + destruct (IH _ _ _ E2 Hin) as (y & w0 & w0' & Hy & Ey).
      exists y, w0, w0'. split; [now right | exact Ey].
Qed.

Lemma settle_all_calm (ms : list (Document ProjectMember.t)) :
  forall w,
    no_faults w = true ->
    (forall m, In m ms -> exists p, project_of (store w) m p) ->
    exists w' found,
      settle_all fetch_project ms w = (w', map inr found) /\
      store w' = store w /\ no_faults w' = true.
Proof.
  induction ms as [|m ms IH]; intros w Hf Hall; cbn [settle_all].
  - exists w, []. repeat split. exact Hf.
  - destruct (Hall m (or_introl eq_refl)) as [p Hp].
    rewrite fetch_project_run. cbv zeta. rewrite (calm_hd _ Hf).
    unfold project_of in Hp. rewrite Hp.
    set (w1 := record _ _).
    destruct (IH w1) as (w2 & ps & E2 & Hs2 & Hf2).
    { exact (calm_tl _ Hf). }
    { intros m' Hin. apply Hall. now right. }
    exists w2, (p :: ps). rewrite E2. repeat split; assumption.
Qed.

Lemma all_fulfilled {B} (found : list B) :
  rejections (map (@inr Exn B) found) = [] /\
  fulfilled (map (@inr Exn B) found) = found.
Proof.
  induction found as [|b l [IH1 IH2]]; [split; reflexivity|]. split.
  - exact IH1.
  - change (b :: fulfilled (map (@inr Exn B) l) = b :: l). now rewrite IH2.
Qed.

Lemma Promise_all_fetches (ms : list (Document ProjectMember.t)) :
  forall w,
    no_faults w = true ->
    (forall m, In m ms -> exists p, project_of (store w) m p) ->
    exists w' found,
      Promise_all fetch_project ms w = (w', inr found) /\
      store w' = store w /\ no_faults w' = true.
Proof.
  intros w Hf Hall.
  destruct (settle_all_calm ms w Hf Hall) as (w' & found & E & Hs & Hf').
  exists w', found. unfold Promise_all. rewrite E.
  destruct (all_fulfilled found) as [-> ->]. repeat split; assumption.
Qed.

Lemma fetched_ids (s : Store) (ms : list (Document ProjectMember.t))
    (found : list (Document Project.t)) :
  Forall2 (project_of s) ms found ->
  length found = length ms /\
  map id found = map (fun m => ProjectMember.projectId (data m)) ms.
Proof.
  intros HF. induction HF as [|m p ms ps Hp HF IH]; [split; reflexivity|].
  destruct IH as [IH1 IH2]. cbn [length map]. rewrite IH1, IH2.
  rewrite (find_doc_id _ _ _ Hp). split; reflexivity.
Qed.

(** What [listUserProjects] does once the user id is there and the lookup
    gets through. *)
Lemma listUserProjects_lookup (userId : string) (w : World) :
  userId <> "" -> hd false (faults w) = false ->
  listUserProjects userId w
  = let w1 := record (Returned (ListDocuments project_members))
                (set_faults (tl (faults w)) w) in
    match rows_of (store w) userId with
    | [] => (w1, inr [])
    | m :: ms => bind (Promise_all fetch_project (m :: ms)) ret w1
    end.
Proof.
  intros Hu Hf. unfold listUserProjects, rows_of.
  unfold bind at 1, throw_if. rewrite (truthy_true _ Hu). cbn [negb].
  unfold ret at 1. unfold bind at 1, listDocuments, remote.
  rewrite Hf. cbn [store set_faults sorted docs].
  destruct (firstn 100 _) as [|m ms]; reflexivity.
Qed.

(** C7. [listUserProjects] asks for the user's membership rows with the cap
    of 100. With no such row it returns the empty list without error. Any
    list it returns holds one project per row it looked up, in the order of
    those rows, each being the project the row refers to; and it does return
    one whenever the referred projects exist and no remote call fails. With
    an empty [userId] it fails with a ValidationError. *)
Theorem listUserProjects_follows_memberships (userId : string) (w : World) :
  length (rows_of (store w) userId) <= 100 /\
  (userId <> "" -> no_faults w = true -> rows_of (store w) userId = [] ->
   exists w', listUserProjects userId w = (w', inr [])) /\
  (forall w' found,
     listUserProjects userId w = (w', inr found) ->
     Forall2 (project_of (store w)) (rows_of (store w) userId) found) /\
  (userId <> "" -> no_faults w = true ->
   (forall m, In m (rows_of (store w) userId) -> exists p, project_of (store w) m p) ->
   exists w' found,
     listUserProjects userId w = (w', inr found) /\
     length found = length (rows_of (store w) userId) /\
     map id found
     = map (fun m => ProjectMember.projectId (data m)) (rows_of (store w) userId)) /\
  (userId = "" ->
   listUserProjects userId w = (w, inl (Error "userId is required")) /\
   classify (Error "userId is required") = ValidationError).
Proof.
  split; [apply firstn_le_length|].
  split; [|split; [|split]].
  - intros Hu Hf Hrows.
    rewrite (listUserProjects_lookup _ _ Hu (calm_hd _ Hf)), Hrows.
    eexists. reflexivity.
  - intros w' found H.
    destruct (truthy userId) eqn:Eu;
      [|unfold listUserProjects, bind, throw_if in H; rewrite Eu in H;
        discriminate H].
    apply truthy_nonempty in Eu.
    destruct (hd false (faults w)) eqn:Ef.
    { unfold listUserProjects, throw_if in H. unfold bind at 1 in H.
      rewrite (truthy_true _ Eu) in H. cbn [negb] in H. unfold ret at 1 in H.
      unfold bind at 1, listDocuments, remote in H. rewrite Ef in H.
      discriminate H. }
    rewrite (listUserProjects_lookup _ _ Eu Ef) in H. cbv zeta in H.
    destruct (rows_of (store w) userId) as [|m ms].
    + apply returned_eq in H. destruct H as [_ <-]. constructor.
    + unfold bind at 1 in H.
      destruct (Promise_all fetch_project (m :: ms) _) as [w2 [e|ps]] eqn:E;
        [discriminate H|].
      apply returned_eq in H. destruct H as [_ <-].
      apply Promise_all_fetched in E. exact (proj1 E).
  - intros Hu Hf Hall.
    rewrite (listUserProjects_lookup _ _ Hu (calm_hd _ Hf)). cbv zeta.
    destruct (rows_of (store w) userId) as [|m ms] eqn:Erows.
    + eexists. exists []. split; [reflexivity|]. split; reflexivity.
    + set (w1 := record _ _).
      destruct (Promise_all_fetches (m :: ms) w1) as (w2 & found & E & _ & _).
      { exact (calm_tl _ Hf). }
      { exact Hall. }
      exists w2, found. unfold bind at 1. rewrite E. split; [reflexivity|].
      apply (fetched_ids (store w)).
      apply Promise_all_fetched in E. exact (proj1 E).
  - intros ->. split; reflexivity.
Qed.

Lemma listUserProjects_follows_memberships_witness :
  exists w' found,
    listUserProjects "u2" launch_with_u2 = (w', inr found) /\
    map id found = ["doc_0"].
Proof.
  destruct (listUserProjects_follows_memberships "u2" launch_with_u2)
    as (_ & _ & _ & H & _).
  destruct H as (w' & found & Hrun & _ & Hids).
  - discriminate.
  - vm_compute. reflexivity.
  - intros m Hin. vm_compute in Hin. destruct Hin as [<-|[]].
    eexists. vm_compute. reflexivity.
  - exists w', found. split; [exact Hrun|]. rewrite Hids. vm_compute. reflexivity.
Defined.

(** * Properties that compose along a service computation *)

Section Preserves.

Context (R : World -> World -> Prop) `{Ledger R}.

Lemma preserves_ret {A} (a : A) : preserves R (ret a).
Proof. intros w w' r E. injection E as <- _. apply ledger_refl. Qed.

Lemma preserves_throw {A} (e : Exn) : preserves R (@throw A e).
Proof. intros w w' r E. injection E as <- _. apply ledger_refl. Qed.

Lemma preserves_throw_if (c : bool) (message : string) :
  preserves R (throw_if c message).
Proof. destruct c; [apply preserves_throw | apply preserves_ret]. Qed.

Lemma preserves_Date_now : preserves R Date_now.
Proof. intros w w' r E. injection E as <- _. apply ledger_refl. Qed.

Lemma preserves_bind {A B} (m : M A) (k : A -> M B) :
  preserves R m -> (forall a, preserves R (k a)) -> preserves R (bind m k).
Proof.
  intros Hm Hk w w' r E. unfold bind in E.
  destruct (m w) as [w1 [e|a]] eqn:E1.
  - injection E as <- _. exact (Hm _ _ _ E1).
  - exact (ledger_trans _ _ _ (Hm _ _ _ E1) (Hk a _ _ _ E)).
Qed.

Lemma preserves_try_catch {A} (m : M A) (handler : Exn -> M A) :
  preserves R m -> (forall e, preserves R (handler e)) ->
  preserves R (try_catch m handler).
Proof.
  intros Hm Hh w w' r E. unfold try_catch in E.
  destruct (m w) as [w1 [e|a]] eqn:E1.
  - exact (ledger_trans _ _ _ (Hm _ _ _ E1) (Hh e _ _ _ E)).
  - injection E as <- _. exact (Hm _ _ _ E1).
Qed.

Lemma preserves_settle_all {A B} (f : A -> M B) (xs : list A) :
  (forall x, preserves R (f x)) ->
  forall w w' rs, settle_all f xs w = (w', rs) -> R w w'.
Proof.
  intros Hf. induction xs as [|x xs IH]; intros w w' rs E; cbn [settle_all] in E.
  - injection E as <- _. apply ledger_refl.
  - destruct (f x w) as [w1 r] eqn:E1.
    destruct (settle_all f xs w1) as [w2 rs'] eqn:E2.
    injection E as <- _.
    exact (ledger_trans _ _ _ (Hf _ _ _ _ E1) (IH _ _ _ E2)).
Qed.

Lemma preserves_Promise_all {A B} (f : A -> M B) (xs : list A) :
  (forall x, preserves R (f x)) -> preserves R (Promise_all f xs).
Proof.
  intros Hf w w' r E. unfold Promise_all in E.
  destruct (settle_all f xs w) as [w1 rs] eqn:E1.
  pose proof (preserves_settle_all f xs Hf _ _ _ E1) as H1.
  destruct (rejections rs); injection E as <- _; [exact H1|].
  exact (ledger_trans _ _ _ H1 (ledger_races _ _)).
Qed.

Lemma preserves_remote {A} (call : Call) (body : M A) :
  preserves R body -> preserves R (remote call body).
Proof.
  intros Hb w w' r E. unfold remote in E.
  destruct (hd false (faults w)).
  - injection E as <- _.
    exact (ledger_trans _ _ _ (ledger_faults _ _) (ledger_record _ _)).
  - destruct (body (set_faults (tl (faults w)) w)) as [w1 [e|a]] eqn:E1;
      injection E as <- _;
      exact (ledger_trans _ _ _ (ledger_faults _ _)
               (ledger_trans _ _ _ (Hb _ _ _ E1) (ledger_record _ _))).
Qed.

End Preserves.

#[export] Instance log_grows_ledger : Ledger log_grows.
Proof.
  split.
  - intros w. exists []. now rewrite app_nil_r.
  - intros a b c [n1 H1] [n2 H2]. exists (n1 ++ n2).
    now rewrite H2, H1, app_assoc.
  - intros w f. exists []. now rewrite app_nil_r.
  - intros w r. exists []. now rewrite app_nil_r.
  - intros w e. exists []. now rewrite app_nil_r.
Qed.

Lemma world_eq {A} (w w' : World) (r r' : A) : (w, r) = (w', r') -> w = w'.
Proof. congruence. Qed.

(** The store primitives under [log_grows]: a creation appends to one
    collection, the reads change nothing, and the only updates the services
    issue go to [tasks]. *)
Lemma createDocument_log_grows (c : Collection) (d : DataOf c) :
  preserves log_grows (createDocument c d).
Proof.
  apply preserves_remote; [exact _|]. intros w w' r E. apply world_eq in E.
  subst w'. unfold log_grows, logs. cbn [store set_store].
  destruct c; cbn [set_docs docs bump st_activity_logs].
  1-3: exists []; now rewrite app_nil_r.
  eexists. reflexivity.
Qed.

Lemma listDocuments_log_grows (c : Collection) (f : DataOf c -> bool) (n : nat)
    (s : option ((DataOf c -> string) * Order)) :
  preserves log_grows (listDocuments c f n s).
Proof.
  apply preserves_remote; [exact _|]. intros w w' r E. apply world_eq in E.
  subst w'. apply ledger_refl.
Qed.

Lemma getDocument_log_grows (c : Collection) (i : string) :
  preserves log_grows (getDocument c i).
Proof.
  apply preserves_remote; [exact _|]. intros w w' r E.
  destruct (find_doc i (docs c (store w))); apply world_eq in E; subst w';
    apply ledger_refl.
Qed.

Lemma updateDocument_tasks_log_grows (i : string) (f : Task.t -> Task.t) :
  preserves log_grows (updateDocument tasks i f).
Proof.
  apply preserves_remote; [exact _|]. intros w w' r E. cbv zeta in E.
  destruct (find_doc i (docs tasks (store w))); apply world_eq in E; subst w'.
  - exists []. unfold logs. cbn. now rewrite app_nil_r.
  - apply ledger_refl.
Qed.

Lemma isProjectMember_log_grows (u p : string) :
  preserves log_grows (isProjectMember u p).
Proof.
  unfold isProjectMember. destruct (_ || _); [apply preserves_ret; exact _|].
  apply preserves_bind; [exact _ | apply listDocuments_log_grows|].
  intros a. apply preserves_ret. exact _.
Qed.

(** A step that leaves the store alone keeps the log as it is. *)
Lemma store_kept_log_grows {A} (m : M A) :
  (forall w w' r, m w = (w', r) -> store w' = store w) -> preserves log_grows m.
Proof.
  intros Hm w w' r E. exists []. unfold logs. rewrite (Hm _ _ _ E).
  now rewrite app_nil_r.
Qed.

Ltac store_kept :=
  apply store_kept_log_grows;
  let w0 := fresh "w" in
  let w1 := fresh "w" in
  let r0 := fresh "r" in
  let E := fresh "E" in
  intros w0 w1 r0 E; cbv beta zeta in E;
  repeat match type of E with
         | context[if ?c then _ else _] => destruct c
         | context[match ?c with _ => _ end] => destruct c
         end;
  apply world_eq in E; subst w1; reflexivity.

(** Walks down a service function: a sequence is handled step by step, a
    branch case by case, and each primitive step by [prim]. *)
Ltac along prim :=
  repeat first
    [ apply preserves_bind; [exact _ | | intro]
    | apply preserves_throw_if; exact _
    | apply preserves_ret; exact _
    | apply preserves_throw; exact _
    | apply preserves_Date_now; exact _
    | apply preserves_Promise_all; [exact _ | intro]
    | prim
    | match goal with
      | |- preserves _ (if ?c then _ else _) => destruct c
      | |- preserves _ (match ?c with _ => _ end) => destruct c
      end ].

Ltac log_grows_step :=
  first [ apply createDocument_log_grows
        | apply listDocuments_log_grows
        | apply getDocument_log_grows
        | apply updateDocument_tasks_log_grows
        | apply isProjectMember_log_grows
        | solve [auto] ].

Lemma watcher_steps_log_grows (h : nat) :
  (forall sig f, preserves log_grows (watcher_on h sig f)) /\
  preserves log_grows (watcher_connect h) /\
  preserves log_grows (watcher_disconnect h).
Proof.
  split; [|split].
  - intros sig f. unfold watcher_on. store_kept.
  - unfold watcher_connect. store_kept.
  - apply preserves_remote; [exact _|]. store_kept.
Qed.

Lemma auth_steps_log_grows :
  (forall e p x, preserves log_grows (auth_register e p x)) /\
  (forall e p, preserves log_grows (auth_login e p)) /\
  preserves log_grows auth_getUser /\
  preserves log_grows auth_isAuthenticated /\
  preserves log_grows auth_getCurrentUser /\
  preserves log_grows auth_logout.
Proof.
  repeat split; intros;
    try (apply preserves_remote; [exact _|]); store_kept.
Qed.

Lemma serve_log_grows (req : Request) (w w' : World) (r : option Exn) :
  serve req w = (w', r) -> log_grows w w'.
Proof.
  assert (Hout : forall A (m : M A),
             preserves log_grows m -> outcome m w = (w', r) -> log_grows w w').
  { intros A m Hm E. unfold outcome in E.
    destruct (m w) as [w1 [e|a]] eqn:E1; apply world_eq in E; subst w';
      exact (Hm _ _ _ E1). }
  destruct auth_steps_log_grows as (Hreg & Hlogin & Huser & Hauth & Hcur & Hout').
  destruct req; cbn [serve]; apply Hout.
  - unfold createProject. along log_grows_step.
  - unfold listUserProjects. along log_grows_step.
  - unfold addUserToProject. along log_grows_step.
  - unfold createTask. along log_grows_step.
  - unfold assignTask. along log_grows_step.
  - unfold updateTaskStatus. along log_grows_step.
  - unfold listProjectTasks. along log_grows_step.
  - unfold listActivityLogs. along log_grows_step.
  - unfold subscribeActivityLogs, and_then.
    apply preserves_bind; [exact _ | along log_grows_step | intros _].
    apply preserves_bind; [exact _ | unfold realtime_collection; store_kept |].
    intros h. destruct (watcher_steps_log_grows h) as (Hon & Hconn & _).
    along log_grows_step; auto.
  - unfold signup. along log_grows_step; auto.
  - unfold login. along log_grows_step; auto.
  - unfold getCurrentUser. apply preserves_try_catch; [exact _ | | intro].
    + along log_grows_step; auto.
    + along log_grows_step.
  - exact Hout'.
  - exact Hauth.
Qed.

(** * Failures of remote calls and what the caller sees *)

Lemma honest_silent {A} (m : M A) : silent m -> honest m.
Proof.
  intros Hm w w' r E. exists []. rewrite app_nil_r. split.
  - exact (Hm _ _ _ E).
  - intros call e [].
Qed.

Ltac silently :=
  let w0 := fresh "w" in
  let w1 := fresh "w" in
  let r0 := fresh "r" in
  let E := fresh "E" in
  intros w0 w1 r0 E; cbv beta zeta in E;
  repeat match type of E with
         | context[if ?c then _ else _] => destruct c
         | context[match ?c with _ => _ end] => destruct c
         end;
  apply world_eq in E; subst w1; reflexivity.

Lemma honest_ret {A} (a : A) : honest (ret a).
Proof. apply honest_silent. silently. Qed.

Lemma honest_throw {A} (e : Exn) : honest (@throw A e).
Proof. apply honest_silent. silently. Qed.

Lemma honest_throw_if (c : bool) (message : string) : honest (throw_if c message).
Proof. destruct c; [apply honest_throw | apply honest_ret]. Qed.

Lemma honest_Date_now : honest Date_now.
Proof. apply honest_silent. silently. Qed.

Lemma honest_bind {A B} (m : M A) (k : A -> M B) :
  honest m -> (forall a, honest (k a)) -> honest (bind m k).
Proof.
  intros Hm Hk w w' r E. unfold bind in E.
  destruct (m w) as [w1 [e|a]] eqn:E1.
  - destruct (Hm _ _ _ E1) as (evs & Ht & Hr).
    injection E as <- <-. exists evs. split; [exact Ht|].
    intros call e' Hin. f_equal. specialize (Hr _ _ Hin). congruence.
  - destruct (Hm _ _ _ E1) as (evs1 & Ht1 & Hr1).
    destruct (Hk a _ _ _ E) as (evs2 & Ht2 & Hr2).
    exists (evs1 ++ evs2). split; [rewrite Ht2, Ht1; symmetry; apply app_assoc|].
    intros call e Hin. apply in_app_or in Hin. destruct Hin as [Hin|Hin].
    + specialize (Hr1 _ _ Hin). discriminate Hr1.
    + exact (Hr2 _ _ Hin).
Qed.

Lemma honest_remote {A} (call : Call) (body : M A) :
  silent body -> honest (remote call body).
Proof.
  intros Hb w w' r E. unfold remote in E.
  destruct (hd false (faults w)).
  - injection E as <- <-. exists [Raised call RemoteFailure]. split; [reflexivity|].
    intros c e [[= _ <-]|[]]. reflexivity.
  - destruct (body (set_faults (tl (faults w)) w)) as [w1 [e|a]] eqn:E1;
      injection E as <- <-; apply Hb in E1; cbn [trace record set_faults] in *;
      rewrite E1.
    + exists [Raised call e]. split; [reflexivity|].
      intros c e' [[= _ <-]|[]]. reflexivity.
    + exists [Returned call]. split; [reflexivity|].
      intros c e' [[=]|[]].
Qed.

Lemma isProjectMember_honest (u p : string) : honest (isProjectMember u p).
Proof.
  unfold isProjectMember. destruct (_ || _); [apply honest_ret|].
  apply honest_bind; [apply honest_remote; silently|].
  intros a. apply honest_ret.
Qed.

Ltac honestly :=
  repeat first
    [ apply honest_bind; [ | intro]
    | apply honest_throw_if
    | apply honest_ret
    | apply honest_throw
    | apply honest_Date_now
    | apply isProjectMember_honest
    | apply honest_remote; silently
    | apply honest_silent; silently
    | match goal with
      | |- honest (if ?c then _ else _) => destruct c
      | |- honest (match ?c with _ => _ end) => destruct c
      end ].

Lemma services_honest :
  (forall o n, honest (createProject o n)) /\
  (forall p u a, honest (addUserToProject p u a)) /\
  (forall a p t d s due, honest (createTask a p t d s due)) /\
  (forall a t s, honest (assignTask a t s)) /\
  (forall a t s, honest (updateTaskStatus a t s)) /\
  (forall p, honest (listProjectTasks p)) /\
  (forall p n, honest (listActivityLogs p n)) /\
  (forall e p x, honest (signup e p x)) /\
  (forall e p, honest (login e p)) /\
  honest logout /\
  honest isAuthenticated.
Proof.
  repeat split; intros.
  - unfold createProject, createDocument. honestly.
  - unfold addUserToProject, listDocuments, createDocument. honestly.
  - unfold createTask, createDocument. honestly.
  - unfold assignTask, getDocument, updateDocument, createDocument. honestly.
  - unfold updateTaskStatus, getDocument, updateDocument, createDocument. honestly.
  - unfold listProjectTasks, listDocuments. honestly.
  - unfold listActivityLogs, listDocuments. honestly.
  - unfold signup, auth_register, auth_getUser, auth_getCurrentUser. honestly.
  - unfold login, auth_login, auth_getUser, auth_getCurrentUser. honestly.
  - unfold logout, auth_logout. honestly.
  - unfold isAuthenticated, auth_isAuthenticated. honestly.
Qed.

Lemma bind_returned {A B} (m : M A) (k : A -> M B) (w w' : World) (b : B) :
  bind m k w = (w', inr b) ->
  exists w1 a, m w = (w1, inr a) /\ k a w1 = (w', inr b).
Proof.
  unfold bind. intros E. destruct (m w) as [w1 [e|a]]; [discriminate E|].
  exists w1, a. split; [reflexivity | exact E].
Qed.

Lemma bind_step {A B} (m : M A) (k : A -> M B) (w w1 : World) (a : A) :
  m w = (w1, inr a) -> bind m k w = k a w1.
Proof. unfold bind. now intros ->. Qed.

Lemma throw_if_false {B} (message : string) (k : unit -> M B) (w : World) :
  bind (throw_if false message) k w = k tt w.
Proof. reflexivity. Qed.

Lemma update_nth_last {T} (f : T -> T) (l : list T) (x : T) :
  update_nth (length l) f (l ++ [x]) = l ++ [f x].
Proof. induction l as [|y l IH]; cbn; [reflexivity | now rewrite IH]. Qed.

Lemma nth_error_last {T} (l : list T) (x : T) :
  nth_error (l ++ [x]) (length l) = Some x.
Proof. induction l as [|y l IH]; [reflexivity | exact IH]. Qed.

(** Registering one optional handler on the watcher built last. *)
Lemma and_then_registers (handler : option Callback) (sig : Signal) (w : World)
    (ws : list Watcher) (c : Collection) (p : string)
    (ls : list (Signal * Callback)) (b : bool) :
  watchers w = ws ++ [mkWatcher c p ls b] ->
  exists w1,
    and_then handler (watcher_on (length ws) sig) w = (w1, inr tt) /\
    watchers w1 = ws ++ [mkWatcher c p (ls ++ listener sig handler) b] /\
    store w1 = store w /\ auth w1 = auth w /\
    faults w1 = faults w /\ trace w1 = trace w.
Proof.
  intros Hw. destruct handler as [f|]; cbn [and_then listener].
  - unfold watcher_on. eexists. split; [reflexivity|].
    cbn [watchers set_watchers store auth faults trace].
    rewrite Hw, update_nth_last. repeat split.
  - exists w. rewrite app_nil_r. repeat split. exact Hw.
Qed.

(** What [subscribeActivityLogs] does once the project id is there: the
    connection is started and not waited for, and the disposer is returned
    whether or not it is made. *)
Lemma subscribeActivityLogs_run (projectId : string) (handlers : Handlers)
    (w : World) :
  projectId <> "" ->
  exists w1,
    subscribeActivityLogs projectId handlers w
    = (w1, inr (disposer (length (watchers w)))) /\
    watchers w1
    = watchers w ++ [mkWatcher activity_logs projectId (registered handlers)
                       (negb (hd false (faults w)))] /\
    store w1 = store w /\ auth w1 = auth w /\ faults w1 = tl (faults w) /\
    trace w1
    = trace w ++ [if hd false (faults w)
                  then Raised (Connect (length (watchers w))) RemoteFailure
                  else Returned (Connect (length (watchers w)))].
Proof.
  intros Hp. unfold subscribeActivityLogs.
  rewrite (truthy_true _ Hp). cbn [negb]. rewrite throw_if_false.
  unfold bind at 1, realtime_collection.
  set (w0 := set_watchers _ w).
  assert (H0 : watchers w0
               = watchers w ++ [mkWatcher activity_logs projectId [] false])
    by reflexivity.
  destruct (and_then_registers (onConnected handlers) SigConnected _ _ _ _ _ _ H0)
    as (w1 & E1 & H1 & S1 & A1 & F1 & T1).
  rewrite (bind_step _ _ _ _ _ E1).
  destruct (and_then_registers (onCreate handlers) SigCreate _ _ _ _ _ _ H1)
    as (w2 & E2 & H2 & S2 & A2 & F2 & T2).
  rewrite (bind_step _ _ _ _ _ E2).
  destruct (and_then_registers (onUpdate handlers) SigUpdate _ _ _ _ _ _ H2)
    as (w3 & E3 & H3 & S3 & A3 & F3 & T3).
  rewrite (bind_step _ _ _ _ _ E3).
  destruct (and_then_registers (onDelete handlers) SigDelete _ _ _ _ _ _ H3)
    as (w4 & E4 & H4 & S4 & A4 & F4 & T4).
  rewrite (bind_step _ _ _ _ _ E4).
  destruct (and_then_registers (onError handlers) SigError _ _ _ _ _ _ H4)
    as (w5 & E5 & H5 & S5 & A5 & F5 & T5).
  rewrite (bind_step _ _ _ _ _ E5).
  destruct (and_then_registers (onClose handlers) SigClose _ _ _ _ _ _ H5)
    as (w6 & E6 & H6 & S6 & A6 & F6 & T6).
  rewrite (bind_step _ _ _ _ _ E6).
  cbn [app] in H6. rewrite <- !app_assoc in H6. fold (registered handlers) in H6.
  assert (Hf0 : faults w0 = faults w) by reflexivity.
  assert (Hs0 : store w0 = store w) by reflexivity.
  assert (Ha0 : auth w0 = auth w) by reflexivity.
  assert (Ht0 : trace w0 = trace w) by reflexivity.
  assert (Hf : faults w6 = faults w) by congruence.
  assert (Hs : store w6 = store w) by congruence.
  assert (Ha : auth w6 = auth w) by congruence.
  assert (Ht : trace w6 = trace w) by congruence.
  unfold bind, watcher_connect, ret. cbv zeta. rewrite Hf.
  destruct (hd false (faults w)); cbn [negb].
  - eexists. split; [reflexivity|].
    cbn [watchers store auth faults trace record set_faults].
    rewrite Ht. auto.
  - eexists. split; [reflexivity|].
    cbn [watchers store auth faults trace record set_faults set_watchers].
    rewrite H6, update_nth_last, Ht.
    cbn [topic scope listeners]. auto.
Qed.

Lemma subscribeActivityLogs_returns (projectId : string) (handlers : Handlers)
    (w w1 : World) (dispose : M unit) :
  subscribeActivityLogs projectId handlers w = (w1, inr dispose) ->
  dispose = disposer (length (watchers w)).
Proof.
  intros E. unfold subscribeActivityLogs in E.
  apply bind_returned in E. destruct E as (w2 & [] & E0 & E).
  assert (w2 = w) as ->.
  { unfold throw_if in E0. destruct (negb (truthy projectId));
      [discriminate E0 | now apply returned_eq in E0]. }
  apply bind_returned in E. destruct E as (w3 & h & Eh & E).
  apply returned_eq in Eh. destruct Eh as [_ <-].
  do 7 (apply bind_returned in E; destruct E as (? & [] & _ & E)).
  apply returned_eq in E. destruct E as [_ <-]. reflexivity.
Qed.

Lemma disposer_never_throws (h : nat) (w : World) :
  exists w',
    disposer h w = (w', inr tt) /\
    (closed h w = true ->
     store w' = store w /\ auth w' = auth w /\ watchers w' = watchers w).
Proof.
  unfold disposer, try_catch, watcher_disconnect, remote, closed.
  destruct (hd false (faults w)).
  - eexists. split; [reflexivity|]. intros _. repeat split.
  - cbn [watchers set_faults].
    destruct (nth_error (watchers w) h) as [x|].
    + destruct (connected x).
      * eexists. split; [reflexivity|]. discriminate.
      * eexists. split; [reflexivity|]. intros _. repeat split.
    + eexists. split; [reflexivity|]. intros _. repeat split.
Qed.

Lemma honest_reports {A} (m : M A) : honest m -> reports m.
Proof.
  intros Hm w w' r E. destruct (Hm _ _ _ E) as (evs & Ht & Hr).
  exists evs. split; [exact Ht|]. intros call e Hin.
  exists call, e. split; [exact Hin | exact (Hr _ _ Hin)].
Qed.

Lemma reports_bind {A B} (m : M A) (k : A -> M B) :
  honest m -> (forall a, reports (k a)) -> reports (bind m k).
Proof.
  intros Hm Hk w w' r E. unfold bind in E.
  destruct (m w) as [w1 [e|a]] eqn:E1.
  - destruct (Hm _ _ _ E1) as (evs & Ht & Hr).
    injection E as <- <-. exists evs. split; [exact Ht|].
    intros call e' Hin. exists call, e'. split; [exact Hin|].
    f_equal. specialize (Hr _ _ Hin). congruence.
  - destruct (Hm _ _ _ E1) as (evs1 & Ht1 & Hr1).
    destruct (Hk a _ _ _ E) as (evs2 & Ht2 & Hr2).
    exists (evs1 ++ evs2). split; [rewrite Ht2, Ht1; symmetry; apply app_assoc|].
    intros call e Hin. apply in_app_or in Hin. destruct Hin as [Hin|Hin].
    + specialize (Hr1 _ _ Hin). discriminate Hr1.
    + destruct (Hr2 _ _ Hin) as (call' & e' & Hin' & Hr').
      exists call', e'. split; [apply in_or_app; now right | exact Hr'].
Qed.

Lemma reports_bind_ret {A} (m : M A) : reports m -> reports (bind m (fun a => ret a)).
Proof.
  intros Hm w w' r E. apply (Hm w w' r). unfold bind, ret in E.
  destruct (m w) as [w1 [e|a]]; exact E.
Qed.

(** Each fetch adds one event to the call log, a failure exactly when the
    fetch is rejected. *)
Lemma fetch_project_event (m : Document ProjectMember.t) (w w' : World)
    (r : Exn + Document Project.t) :
  fetch_project m w = (w', r) ->
  exists ev,
    trace w' = trace w ++ [ev] /\
    (forall call e, ev = Raised call e -> r = inl e) /\
    (forall e, r = inl e -> exists call, ev = Raised call e).
Proof.
  rewrite fetch_project_run. cbv zeta.
  destruct (hd false (faults w)).
  - intros E. injection E as <- <-. eexists. split; [reflexivity|].
    split; [intros call e [= _ <-]; reflexivity|].
    intros e [= <-]. eexists. reflexivity.
  - destruct (find_doc _ (st_projects (store w))) as [p|];
      intros E; injection E as <- <-; eexists; (split; [reflexivity|]).
    + split; [intros call e [=] | intros e [=]].
    + split; [intros call e [= _ <-]; reflexivity|].
      intros e [= <-]. eexists. reflexivity.
Qed.

Lemma settle_all_trace (ms : list (Document ProjectMember.t)) :
  forall w w' rs,
    settle_all fetch_project ms w = (w', rs) ->
    exists evs,
      trace w' = trace w ++ evs /\
      (forall call e, In (Raised call e) evs -> In e (rejections rs)) /\
      (forall e, In e (rejections rs) -> exists call, In (Raised call e) evs).
Proof.
  induction ms as [|m ms IH]; intros w w' rs H; cbn [settle_all] in H.
  - injection H as <- <-. exists []. rewrite app_nil_r.
    split; [reflexivity|]. split; [intros call e [] | intros e []].
  - destruct (fetch_project m w) as [w1 r] eqn:E1.
    destruct (settle_all fetch_project ms w1) as [w2 rs'] eqn:E2.
    injection H as <- <-.
    apply fetch_project_event in E1. destruct E1 as (ev & Ht1 & Hev & Hr).
    apply IH in E2. destruct E2 as (evs & Ht2 & H1 & H2).
    exists (ev :: evs). split; [rewrite Ht2, Ht1, <- app_assoc; reflexivity|].
    change (rejections (r :: rs'))
      with ((match r with inl e => [e] | inr _ => [] end) ++ rejections rs').
    split.
    + intros call e [Hin|Hin]; apply in_or_app.
      * left. rewrite (Hev _ _ Hin). now left.
      * right. exact (H1 _ _ Hin).
    + intros e Hin. apply in_app_or in Hin. destruct Hin as [Hin|Hin].
      * destruct r as [e0|p]; [|destruct Hin].
        destruct Hin as [<-|[]]. destruct (Hr e0 eq_refl) as [call ->].
        exists call. now left.
      * destruct (H2 _ Hin) as [call Hc]. exists call. now right.
Qed.

(** When fetches of [listUserProjects] fail, the caller gets the error of
    one of them. *)
Lemma fetches_report (ms : list (Document ProjectMember.t)) :
  reports (Promise_all fetch_project ms).
Proof.
  intros w w' r E. unfold Promise_all in E.
  destruct (settle_all fetch_project ms w) as [w1 rs] eqn:E1.
  destruct (settle_all_trace _ _ _ _ E1) as (evs & Ht & H1 & H2).
  exists evs. destruct (rejections rs) as [|e0 es] eqn:Erej.
  - injection E as <- <-. split; [exact Ht|].
    intros call e Hin. destruct (H1 _ _ Hin).
  - injection E as <- <-. split; [exact Ht|]. intros call e Hin.
    assert (Hnth : In (nth (hd 0 (races w1)) (e0 :: es) e0) (e0 :: es)).
    { destruct (nth_in_or_default (hd 0 (races w1)) (e0 :: es) e0) as [H| ->];
        [exact H | now left]. }
    destruct (H2 _ Hnth) as [call' Hc].
    exists call'. eexists. split; [exact Hc | reflexivity].
Qed.

Lemma listUserProjects_reports (userId : string) : reports (listUserProjects userId).
Proof.
  unfold listUserProjects.
  apply reports_bind; [apply honest_throw_if|]. intros _.
  apply reports_bind; [unfold listDocuments; apply honest_remote; silently|].
  intros ms. destruct (_ =? 0)%nat; [apply honest_reports, honest_ret|].
  apply reports_bind_ret. exact (fetches_report ms).
Qed.

(** C8, as the code has it. A failure of a remote call made by a service
    function is the error the caller gets, for every service function but
    three. [listUserProjects] runs its fetches concurrently: when any of its
    calls fails the caller gets the error of one of the failed calls, and
    the other errors are dropped. [getCurrentUser] catches every error and
    answers null. [subscribeActivityLogs] does not wait for the connection of
    its watcher: when the connection fails nothing is thrown and the caller
    gets the disposer all the same. The disposer catches every error of the
    disconnect, so it never throws, and on a channel that is already closed
    it changes neither the store, nor the session, nor the watchers. *)
Theorem remote_failures_reach_the_caller :
  (forall req w w' r,
     req <> GetCurrentUser ->
     (forall p h, req <> SubscribeActivityLogs p h) ->
     serve req w = (w', r) ->
     exists evs,
       trace w' = trace w ++ evs /\
       (forall call e, In (Raised call e) evs ->
                       exists call' e', In (Raised call' e') evs /\ r = Some e') /\
       ((forall u, req <> ListUserProjects u) ->
        forall call e, In (Raised call e) evs -> r = Some e)) /\
  (forall w,
     exists w' user evs,
       getCurrentUser w = (w', inr user) /\
       trace w' = trace w ++ evs /\
       (forall call e, In (Raised call e) evs -> user = None)) /\
  (forall projectId handlers w,
     projectId <> "" ->
     exists w1 dispose,
       subscribeActivityLogs projectId handlers w = (w1, inr dispose) /\
       (hd false (faults w) = true ->
        trace w1
        = trace w ++ [Raised (Connect (length (watchers w))) RemoteFailure])) /\
  (forall projectId handlers w w1 dispose,
     subscribeActivityLogs projectId handlers w = (w1, inr dispose) ->
     forall w2,
       exists w3,
         dispose w2 = (w3, inr tt) /\
         (closed (length (watchers w)) w2 = true ->
          store w3 = store w2 /\ auth w3 = auth w2 /\ watchers w3 = watchers w2)).
Proof.
  split; [|split; [|split]].
  - assert (Hout : forall A (m : M A) (P : Prop) w w' r,
               honest m -> outcome m w = (w', r) ->
               exists evs,
                 trace w' = trace w ++ evs /\
                 (forall call e, In (Raised call e) evs ->
                    exists call' e', In (Raised call' e') evs /\ r = Some e') /\
                 (P -> forall call e, In (Raised call e) evs -> r = Some e)).
    { intros A m P w w' r Hm E. unfold outcome in E.
      destruct (m w) as [w1 [e|a]] eqn:E1;
        destruct (Hm _ _ _ E1) as (evs & Ht & Hr);
        injection E as <- <-; exists evs; (split; [exact Ht|]); split.
      - intros call e' Hin. exists call, e'. split; [exact Hin|].
        specialize (Hr _ _ Hin). congruence.
      - intros _ call e' Hin. specialize (Hr _ _ Hin). congruence.
      - intros call e' Hin. specialize (Hr _ _ Hin). discriminate Hr.
      - intros _ call e' Hin. specialize (Hr _ _ Hin). discriminate Hr. }
    destruct services_honest
      as (H1 & H2 & H3 & H4 & H5 & H6 & H7 & H8 & H9 & H10 & H11).
    intros req w w' r Hreq Hsub E.
    destruct req; cbn [serve] in E;
      try (eapply Hout; [|exact E]; auto; fail).
    + unfold outcome in E.
      destruct (listUserProjects userId w) as [w1 res] eqn:E1.
      destruct (listUserProjects_reports _ _ _ _ E1) as (evs & Ht & Hr).
      assert (Hw : w1 = w') by (destruct res; congruence). subst w1.
      exists evs. split; [exact Ht|]. split.
      * intros call e Hin. destruct (Hr _ _ Hin) as (call' & e' & Hin' & ->).
        exists call', e'. split; [exact Hin' | congruence].
      * intros Hno. destruct (Hno userId eq_refl).
    + destruct (Hsub projectId handlers eq_refl).
    + contradiction.
  - intros w. unfold getCurrentUser, try_catch, bind, auth_isAuthenticated,
      auth_getCurrentUser, remote, ret.
    destruct (session (auth w)) as [u|] eqn:Es; cbn [negb].
    + destruct (hd false (faults w)).
      * eexists. exists None. eexists. split; [reflexivity|].
        split; [reflexivity|]. reflexivity.
      * cbn [auth set_faults]. rewrite Es.
        eexists. eexists. exists [Returned AuthCurrentUser].
        split; [reflexivity|]. split; [reflexivity|].
        intros call e [[=]|[]].
    + exists w, None, []. split; [reflexivity|].
      rewrite app_nil_r. split; [reflexivity|]. intros call e [].
  - intros projectId handlers w Hp.
    destruct (subscribeActivityLogs_run projectId handlers w Hp)
      as (w1 & Hrun & _ & _ & _ & _ & Ht).
    exists w1. eexists. split; [exact Hrun|].
    intros Hf. rewrite Hf in Ht. exact Ht.
  - intros projectId handlers w w1 dispose E w2.
    rewrite (subscribeActivityLogs_returns _ _ _ _ _ E).
    apply disposer_never_throws.
Qed.

Lemma remote_failures_reach_the_caller_witness :
  exists evs,
    trace (after (createProject "u1" "Launch") outage_after_first_write)
    = trace outage_after_first_write ++ evs /\
    forall call e, In (Raised call e) evs -> Some RemoteFailure = Some e.
Proof.
  destruct remote_failures_reach_the_caller as [H _].
  destruct (H (CreateProject "u1" "Launch") outage_after_first_write
              (after (createProject "u1" "Launch") outage_after_first_write)
              (Some RemoteFailure))
    as (evs & Ht & _ & Hr).
  - discriminate.
  - discriminate.
  - vm_compute. reflexivity.
  - exists evs. split; [exact Ht|]. apply Hr. discriminate.
Defined.

(** C8 as the spec words it fails on [getCurrentUser]: with somebody signed
    in and the auth provider out of reach, the provider call fails and
    [getCurrentUser] returns null; the caller gets no error. *)
Lemma getCurrentUser_discards_the_failure :
  exists w',
    serve GetCurrentUser signed_in_offline = (w', None) /\
    getCurrentUser signed_in_offline = (w', inr None) /\
    trace w' = trace signed_in_offline ++ [Raised AuthCurrentUser RemoteFailure].
Proof.
  exists (after getCurrentUser signed_in_offline).
  split; [vm_compute; reflexivity|].
  split; vm_compute; reflexivity.
Qed.

(** * One activity log entry per mutation *)

Lemma createProject_success (o n : string) (w w1 : World)
    (project : Document Project.t) :
  createProject o n w = (w1, inr project) ->
  exists entry,
    logs w1 = logs w ++ [entry] /\
    trace w1 = trace w ++ [Returned (CreateDocument projects);
                           Returned (CreateDocument project_members);
                           Returned (CreateDocument activity_logs)].
Proof.
  intros H. unfold createProject in H. service_unfold.
  branch H. branch H. branch H. branch H. branch H. finished H.
  eexists. split; [reflexivity|]. rewrite <- !app_assoc. reflexivity.
Qed.

Lemma lookups_write_no_log (lookups : list Event) :
  Forall (eq (Returned (ListDocuments project_members))) lookups ->
  existsb writes_log lookups = false.
Proof.
  induction 1 as [|e l He _ IH]; [reflexivity|].
  cbn [existsb]. rewrite IH, <- He. reflexivity.
Qed.

(** C1. A mutating operation that succeeds has appended exactly one entry to
    the activity log, by its last remote call, after the write to its primary
    entity and with no other write to the log before it. And no service
    function, whatever its outcome, updates or deletes a log entry: the log
    it leaves is the log it found, followed by what was appended; the same
    holds of the disposers handed out by [subscribeActivityLogs]. *)
Theorem one_log_entry_per_mutation :
  (forall req w w',
     mutating req = true ->
     serve req w = (w', None) ->
     exists entry call before between,
       logs w' = logs w ++ [entry] /\
       primary_write req = Some call /\
       trace w' = trace w ++ before ++ [Returned call] ++ between
                          ++ [Returned (CreateDocument activity_logs)] /\
       existsb writes_log (before ++ [Returned call] ++ between) = false) /\
  (forall req w w' r,
     serve req w = (w', r) -> exists new, logs w' = logs w ++ new) /\
  (forall h w w' r,
     disposer h w = (w', r) -> exists new, logs w' = logs w ++ new).
Proof.
  split; [|split; [exact serve_log_grows|]].
  2: { intros h. destruct (watcher_steps_log_grows h) as (_ & _ & Hoff).
       apply preserves_try_catch; [exact _ | exact Hoff|].
       intros e. apply preserves_ret. exact _. }
  assert (Hok : forall A (m : M A) w w',
             outcome m w = (w', None) -> exists a, m w = (w', inr a)).
  { intros A m w w' E. unfold outcome in E.
    destruct (m w) as [w1 [e|a]]; [discriminate E|].
    exists a. now apply world_eq in E as ->. }
  intros req w w' Hmut E.
  destruct req; try discriminate Hmut; cbn [serve] in E;
    apply Hok in E; destruct E as [a E]; cbn [primary_write].
  - destruct (createProject_success _ _ _ _ _ E) as (entry & Hlogs & Ht).
    exists entry, (CreateDocument projects), [],
      [Returned (CreateDocument project_members)].
    repeat split; assumption || reflexivity.
  - destruct (addUserToProject_success _ _ _ _ _ _ E)
      as (_ & _ & _ & _ & _ & _ & Hstore & Ht & _).
    eexists. exists (CreateDocument project_members),
      [Returned (ListDocuments project_members);
       Returned (ListDocuments project_members)], [].
    unfold logs at 1. rewrite Hstore, Ht. repeat split.
  - destruct (createTask_success _ _ _ _ _ _ _ _ _ E)
      as (_ & _ & _ & _ & _ & _ & Hstore & lookups & Ht & Hl).
    eexists. exists (CreateDocument tasks), lookups, [].
    unfold logs at 1. rewrite Hstore, Ht. repeat split.
    rewrite existsb_app, (lookups_write_no_log _ Hl). reflexivity.
  - destruct (assignTask_success _ _ _ _ _ _ E)
      as (b & _ & _ & _ & _ & _ & _ & _ & Hstore & Ht).
    eexists. exists (UpdateDocument tasks taskId),
      [Returned (GetDocument tasks taskId);
       Returned (ListDocuments project_members);
       Returned (ListDocuments project_members)], [].
    unfold logs at 1. rewrite Hstore, Ht. repeat split.
  - destruct (updateTaskStatus_success _ _ _ _ _ _ E)
      as (b & _ & _ & _ & _ & _ & _ & Hstore & Ht).
    eexists. exists (UpdateDocument tasks taskId),
      [Returned (GetDocument tasks taskId);
       Returned (ListDocuments project_members)], [].
    unfold logs at 1. rewrite Hstore, Ht. repeat split.
Qed.

Lemma one_log_entry_per_mutation_witness :
  exists entry call before between,
    logs launch_with_task = logs launch_with_u2 ++ [entry] /\
    primary_write (CreateTask "u1" "doc_0" "Write the brief" None None None)
    = Some call /\
    trace launch_with_task
    = trace launch_with_u2 ++ before ++ [Returned call] ++ between
        ++ [Returned (CreateDocument activity_logs)] /\
    existsb writes_log (before ++ [Returned call] ++ between) = false.
Proof.
  destruct one_log_entry_per_mutation as [H _].
  apply (H (CreateTask "u1" "doc_0" "Write the brief" None None None)
           launch_with_u2 launch_with_task).
  - reflexivity.
  - vm_compute. reflexivity.
Defined.

(** * More on the tasks service *)

(** The primitive steps when no outage is scheduled: what they return and
    what they leave behind. *)
Lemma isProjectMember_calm (u p : string) (w : World) :
  no_faults w = true ->
  exists w1,
    isProjectMember u p w = (w1, inr (is_member (store w) u p)) /\
    store w1 = store w /\ clock w1 = clock w /\ no_faults w1 = true.
Proof.
  intros Hf. rewrite isProjectMember_run. unfold is_member.
  destruct (truthy u); cbn [negb orb andb];
    [destruct (truthy p); cbn [negb andb]|].
  - rewrite (calm_hd _ Hf). eexists. split; [reflexivity|].
    repeat split. exact (calm_tl _ Hf).
  - exists w. repeat split. exact Hf.
  - exists w. repeat split. exact Hf.
Qed.

Lemma getDocument_calm_clock (c : Collection) (i : string) (w : World)
    (doc : Document (DataOf c)) :
  no_faults w = true ->
  find_doc i (docs c (store w)) = Some doc ->
  exists w1,
    getDocument c i w = (w1, inr doc) /\
    store w1 = store w /\ clock w1 = clock w /\ no_faults w1 = true.
Proof.
  intros Hf Hfind. unfold getDocument, remote.
  rewrite (calm_hd _ Hf). cbn [store set_faults]. rewrite Hfind.
  eexists. split; [reflexivity|]. repeat split. exact (calm_tl _ Hf).
Qed.

Lemma createDocument_calm (c : Collection) (d : DataOf c) (w : World) :
  no_faults w = true ->
  exists w1,
    createDocument c d w = (w1, inr (mkDocument (fresh_id (next_id (store w))) d)) /\
    store w1 = put c d (store w) /\ clock w1 = clock w /\ no_faults w1 = true.
Proof.
  intros Hf. unfold createDocument, remote. rewrite (calm_hd _ Hf).
  eexists. split; [reflexivity|]. repeat split. exact (calm_tl _ Hf).
Qed.

Lemma updateDocument_calm (i : string) (f : Task.t -> Task.t) (w : World)
    (doc : Document Task.t) :
  no_faults w = true ->
  find_doc i (st_tasks (store w)) = Some doc ->
  exists w1,
    updateDocument tasks i f w = (w1, inr (mkDocument i (f (data doc)))) /\
    store w1 = patched i f (store w) /\ clock w1 = clock w /\ no_faults w1 = true.
Proof.
  intros Hf Hfind. unfold updateDocument, remote. rewrite (calm_hd _ Hf).
  cbv zeta. cbn [store set_faults docs DataOf]. rewrite Hfind.
  unfold patch_doc at 2. rewrite (find_doc_id _ _ _ Hfind), String.eqb_refl.
  eexists. split; [reflexivity|]. repeat split. exact (calm_tl _ Hf).
Qed.

Lemma assignTask_error (a t s message : string) (w w' : World) :
  assignTask a t s w = (w', inl (Error message)) -> store w' = store w.
Proof.
  intros H. unfold assignTask in H. service_unfold.
  destruct (truthy a) eqn:Ea; [|wrote_nothing H].
  destruct (truthy t) eqn:Et; [|wrote_nothing H].
  destruct (truthy s) eqn:Es; [|wrote_nothing H].
  cbn [negb] in H.
  branch H. branch H. rewrite isProjectMember_run in H.
  branch H; [wrote_nothing H|]. branch H. branch H; [wrote_nothing H|].
  rewrite isProjectMember_run in H. wrote_nothing H.
Qed.

(** What [assignTask] answers on an existing task when no remote call fails. *)
Lemma assignTask_run (a t s : string) (w : World) (before : Document Task.t) :
  a <> "" -> t <> "" -> s <> "" ->
  find_doc t (st_tasks (store w)) = Some before ->
  no_faults w = true ->
  exists w',
    assignTask a t s w
    = (w', if is_member (store w) a (Task.projectId (data before))
           then if is_member (store w) s (Task.projectId (data before))
                then inr (mkDocument t
                            (merge_Task (assign_patch s (clock w)) (data before)))
                else inl (Error "assignee is not a member of the project")
           else inl (Error "actor is not a member of the project")).
Proof.
  intros Ha Ht Hs Hfind Hf. unfold assignTask.
  rewrite (truthy_true _ Ha), (truthy_true _ Ht), (truthy_true _ Hs).
  cbn [negb]. rewrite !throw_if_false.
  destruct (getDocument_calm_clock tasks t w before Hf Hfind)
    as (w1 & E1 & S1 & C1 & F1).
  rewrite (bind_step _ _ _ _ _ E1). cbv zeta.
  destruct (isProjectMember_calm a (Task.projectId (data before)) w1 F1)
    as (w2 & E2 & S2 & C2 & F2).
  rewrite (bind_step _ _ _ _ _ E2). rewrite S1.
  destruct (is_member (store w) a _); cbn [negb];
    [rewrite throw_if_false | eexists; reflexivity].
  destruct (isProjectMember_calm s (Task.projectId (data before)) w2 F2)
    as (w3 & E3 & S3 & C3 & F3).
  rewrite (bind_step _ _ _ _ _ E3). rewrite S2, S1.
  destruct (is_member (store w) s _); cbn [negb];
    [rewrite throw_if_false | eexists; reflexivity].
  unfold bind at 1, Date_now.
  assert (Hfind3 : find_doc t (st_tasks (store w3)) = Some before)
    by (rewrite S3, S2, S1; exact Hfind).
  destruct (updateDocument_calm t
              (merge_Task (assign_patch s (clock w3))) w3 before F3 Hfind3)
    as (w4 & E4 & S4 & C4 & F4).
  unfold assign_patch in E4.
  rewrite (bind_step _ _ _ _ _ E4).
  destruct (createDocument_calm activity_logs
              (ActivityLog.make (Task.projectId (data before)) a "task" t "assign"
                 (clock w3)) w4 F4)
    as (w5 & E5 & _).
  rewrite (bind_step _ _ _ _ _ E5).
  rewrite C3, C2, C1. eexists. reflexivity.
Qed.

Lemma In_firstn {T} (n : nat) (x : T) (l : list T) : In x (firstn n l) -> In x l.
Proof.
  intros H. rewrite <- (firstn_skipn n l). apply in_or_app. now left.
Qed.

Lemma is_member_truthy (s : Store) (u p : string) :
  is_member s u p = true -> u <> "" /\ p <> "" /\ has_membership s u p = true.
Proof.
  unfold is_member. intros H. apply andb_prop in H. destruct H as [H Hrow].
  apply andb_prop in H. destruct H as [Hu Hp].
  auto using truthy_nonempty.
Qed.

(** X1. On an existing task, with actor and assignee both members of the
    task's project and no remote failure, [assignTask] returns the task with
    [assigneeId] set to the assignee and [updatedAt] to the current time, the
    store holds that task under [taskId], and one entry with action "assign"
    is appended to the activity log. *)
Theorem assignTask_assigns (actorId taskId assigneeId : string) (w : World)
    (before : Document Task.t) :
  taskId <> "" ->
  find_doc taskId (st_tasks (store w)) = Some before ->
  is_member (store w) actorId (Task.projectId (data before)) = true ->
  is_member (store w) assigneeId (Task.projectId (data before)) = true ->
  no_faults w = true ->
  exists w' updated,
    assignTask actorId taskId assigneeId w = (w', inr updated) /\
    find_doc taskId (st_tasks (store w')) = Some updated /\
    Task.assigneeId (data updated) = Some assigneeId /\
    Task.updatedAt (data updated) = clock w /\
    logs w' = logs w ++
              [mkDocument (fresh_id (next_id (store w)))
                 (ActivityLog.make (Task.projectId (data before)) actorId "task"
                    taskId "assign" (clock w))].
Proof.
  intros Ht Hfind Hactor Hassignee Hf.
  destruct (is_member_truthy _ _ _ Hactor) as (Ha & _ & _).
  destruct (is_member_truthy _ _ _ Hassignee) as (Hs & _ & _).
  destruct (assignTask_run actorId taskId assigneeId w before Ha Ht Hs Hfind Hf)
    as (w' & Hrun).
  rewrite Hactor, Hassignee in Hrun.
  destruct (assignTask_success _ _ _ _ _ _ Hrun)
    as (b & _ & _ & _ & Hb & _ & _ & _ & Hstore & _).
  rewrite Hfind in Hb. injection Hb as <-.
  exists w'. eexists. split; [exact Hrun|].
  unfold logs. rewrite Hstore. cbn [st_tasks st_activity_logs data].
  split; [exact (find_doc_patched _ _ _ _ Hfind)|].
  repeat split.
Qed.

Lemma assignTask_assigns_witness :
  exists w' updated,
    assignTask "u1" "doc_5" "u2" launch_with_task = (w', inr updated) /\
    Task.assigneeId (data updated) = Some "u2".
Proof.
  destruct (assignTask_assigns "u1" "doc_5" "u2" launch_with_task
              (mkDocument "doc_5"
                 (Task.make "doc_0" "Write the brief" None "todo" None None
                    "2026-01-01T00:00:00.000Z" "2026-01-01T00:00:00.000Z")))
    as (w' & updated & Hrun & _ & Hassignee & _);
    [discriminate | vm_compute; reflexivity | vm_compute; reflexivity
    | vm_compute; reflexivity | vm_compute; reflexivity |].
  exists w', updated. split; assumption.
Defined.

(** X2. On an existing task, when the actor or the assignee is not a member
    of the task's project, [assignTask] fails with an AuthorizationError and
    writes nothing; a member acting for an outsider is told "assignee is not
    a member of the project". *)
Theorem assignTask_turns_down_outsiders (actorId taskId assigneeId : string)
    (w : World) (before : Document Task.t) :
  actorId <> "" -> taskId <> "" -> assigneeId <> "" ->
  find_doc taskId (st_tasks (store w)) = Some before ->
  is_member (store w) actorId (Task.projectId (data before))
  && is_member (store w) assigneeId (Task.projectId (data before)) = false ->
  no_faults w = true ->
  exists w' message,
    assignTask actorId taskId assigneeId w = (w', inl (Error message)) /\
    classify (Error message) = AuthorizationError /\
    store w' = store w /\
    (is_member (store w) actorId (Task.projectId (data before)) = true ->
     message = "assignee is not a member of the project").
Proof.
  intros Ha Ht Hs Hfind Hout Hf.
  destruct (assignTask_run actorId taskId assigneeId w before Ha Ht Hs Hfind Hf)
    as (w' & Hrun).
  exists w'.
  destruct (is_member (store w) actorId _); cbn [andb] in Hout.
  - rewrite Hout in Hrun. eexists. split; [exact Hrun|].
    split; [reflexivity|]. split; [exact (assignTask_error _ _ _ _ _ _ Hrun)|].
    reflexivity.
  - eexists. split; [exact Hrun|].
    split; [reflexivity|]. split; [exact (assignTask_error _ _ _ _ _ _ Hrun)|].
    discriminate.
Qed.

Lemma assignTask_turns_down_outsiders_witness :
  exists w',
    assignTask "u1" "doc_5" "u3" launch_with_task
    = (w', inl (Error "assignee is not a member of the project")) /\
    store w' = store launch_with_task.
Proof.
  destruct (assignTask_turns_down_outsiders "u1" "doc_5" "u3" launch_with_task
              (mkDocument "doc_5"
                 (Task.make "doc_0" "Write the brief" None "todo" None None
                    "2026-01-01T00:00:00.000Z" "2026-01-01T00:00:00.000Z")))
    as (w' & message & Hrun & _ & Hstore & Hmsg);
    [discriminate | discriminate | discriminate | vm_compute; reflexivity
    | vm_compute; reflexivity | vm_compute; reflexivity |].
  exists w'. rewrite Hmsg in Hrun by (vm_compute; reflexivity).
  split; assumption.
Defined.

(** X3. When the store holds no task under [taskId], [assignTask] and
    [updateTaskStatus] fail with the store's not-found error right at the
    fetch: it is the only remote call made, no membership is looked up, and
    nothing is written. *)
Theorem missing_task_is_reported (actorId taskId : string) (w : World) :
  actorId <> "" -> taskId <> "" ->
  find_doc taskId (st_tasks (store w)) = None ->
  hd false (faults w) = false ->
  let fetch_failed :=
    trace w ++ [Raised (GetDocument tasks taskId) (NotFound tasks taskId)] in
  (forall assigneeId,
     assigneeId <> "" ->
     exists w',
       assignTask actorId taskId assigneeId w = (w', inl (NotFound tasks taskId)) /\
       store w' = store w /\ trace w' = fetch_failed) /\
  (forall status,
     In status TaskStatus ->
     exists w',
       updateTaskStatus actorId taskId status w
       = (w', inl (NotFound tasks taskId)) /\
       store w' = store w /\ trace w' = fetch_failed) /\
  classify (NotFound tasks taskId) = NotFoundError.
Proof.
  intros Ha Ht Hfind Hf fetch_failed. subst fetch_failed.
  split; [|split; [|reflexivity]].
  - intros assigneeId Hs. unfold assignTask. service_unfold.
    rewrite (truthy_true _ Ha), (truthy_true _ Ht), (truthy_true _ Hs).
    world_simpl. rewrite Hf. world_simpl. rewrite Hfind.
    eexists. split; [reflexivity|]. split; reflexivity.
  - intros status Hs. apply includes_In in Hs.
    unfold updateTaskStatus. service_unfold.
    rewrite (truthy_true _ Ha), (truthy_true _ Ht), (status_truthy _ Hs), Hs.
    world_simpl. rewrite Hf. world_simpl. rewrite Hfind.
    eexists. split; [reflexivity|]. split; reflexivity.
Qed.

Lemma missing_task_is_reported_witness :
  exists w',
    updateTaskStatus "u1" "doc_9" "done" launch_with_task
    = (w', inl (NotFound tasks "doc_9")) /\
    store w' = store launch_with_task.
Proof.
  destruct (missing_task_is_reported "u1" "doc_9" launch_with_task)
    as (_ & H & _);
    [discriminate | discriminate | vm_compute; reflexivity
    | vm_compute; reflexivity |].
  destruct (H "done") as (w' & Hrun & Hstore & _);
    [right; right; left; reflexivity|].
  exists w'. split; assumption.
Defined.

(** X4. A member who names no assignee, an empty one, or a member of the
    project gets the task created: it is appended to [tasks] with status
    "todo", [createdAt] and [updatedAt] both the current time and the other
    fields as given, one "create" entry naming the task is appended to the
    activity log, and projects and memberships are untouched. *)
Theorem createTask_creates_todo_task (actorId projectId title : string)
    (description assigneeId dueDate : option string) (w : World) :
  actorId <> "" -> projectId <> "" -> title <> "" ->
  has_membership (store w) actorId projectId = true ->
  (forall x, assigneeId = Some x -> x <> "" ->
             has_membership (store w) x projectId = true) ->
  no_faults w = true ->
  let n := next_id (store w) in
  let task :=
    mkDocument (fresh_id n)
      (Task.make projectId title description "todo" assigneeId dueDate
         (clock w) (clock w)) in
  exists w',
    createTask actorId projectId title description assigneeId dueDate w
    = (w', inr task) /\
    st_tasks (store w') = st_tasks (store w) ++ [task] /\
    logs w' = logs w ++
              [mkDocument (fresh_id (S n))
                 (ActivityLog.make projectId actorId "task" (fresh_id n) "create"
                    (clock w))] /\
    st_projects (store w') = st_projects (store w) /\
    st_project_members (store w') = st_project_members (store w).
Proof.
  intros Ha Hp Ht Hactor Hassignee Hf n task. subst n task.
  destruct (createTask_run actorId projectId title description assigneeId dueDate
              w Ha Hp Ht Hf) as (w' & Hrun).
  rewrite Hactor in Hrun.
  assert (Hok : match assigneeId with
                | Some x => truthy x && negb (has_membership (store w) x projectId)
                | None => false
                end = false).
  { destruct assigneeId as [x|]; [|reflexivity].
    destruct (truthy x) eqn:Ex; [|reflexivity].
    rewrite (Hassignee x eq_refl (truthy_nonempty _ Ex)). reflexivity. }
  rewrite Hok in Hrun.
  destruct (createTask_success _ _ _ _ _ _ _ _ _ Hrun)
    as (_ & _ & _ & _ & _ & _ & Hstore & _).
  exists w'. split; [exact Hrun|]. unfold logs. rewrite Hstore.
  repeat split.
Qed.

Lemma createTask_creates_todo_task_witness :
  exists w',
    createTask "u2" "doc_0" "Review" None (Some "u1") None launch_with_u2
    = (w', inr (mkDocument "doc_5"
                  (Task.make "doc_0" "Review" None "todo" (Some "u1") None
                     "2026-01-01T00:00:00.000Z" "2026-01-01T00:00:00.000Z"))).
Proof.
  destruct (createTask_creates_todo_task "u2" "doc_0" "Review" None (Some "u1")
              None launch_with_u2) as (w' & Hrun & _);
    [discriminate | discriminate | discriminate | vm_compute; reflexivity
    | intros x [= <-] _; vm_compute; reflexivity | vm_compute; reflexivity |].
  exists w'. exact Hrun.
Defined.

(** X5. [listProjectTasks] asks for no membership: for any caller it
    returns the first 200 tasks of the project in store order. Every task it
    returns is a stored task of that project, none is missing when the
    project has at most 200, and the store is left as it was; with an empty
    [projectId] it fails with a ValidationError before any remote call. *)
Theorem listProjectTasks_lists_the_project (projectId : string) (w : World) :
  (projectId = "" ->
   listProjectTasks projectId w = (w, inl (Error "projectId is required")) /\
   classify (Error "projectId is required") = ValidationError) /\
  (projectId <> "" -> hd false (faults w) = false ->
   exists w',
     listProjectTasks projectId w
     = (w', inr (firstn 200 (tasks_of (store w) projectId)))) /\
  (forall w' found,
     listProjectTasks projectId w = (w', inr found) ->
     found = firstn 200 (tasks_of (store w) projectId) /\
     store w' = store w /\
     length found <= 200 /\
     (forall t, In t found ->
                In t (st_tasks (store w)) /\ Task.projectId (data t) = projectId) /\
     (length (tasks_of (store w) projectId) <= 200 ->
      forall t, In t (st_tasks (store w)) ->
                Task.projectId (data t) = projectId -> In t found)).
Proof.
  split; [|split].
  - intros ->. split; reflexivity.
  - intros Hp Hf. unfold listProjectTasks. service_unfold.
    rewrite (truthy_true _ Hp). world_simpl. rewrite Hf.
    eexists. reflexivity.
  - intros w' found H. unfold listProjectTasks in H. service_unfold.
    branch H. branch H. finished H.
    fold (tasks_of (store w) projectId).
    split; [reflexivity|]. split; [reflexivity|].
    split; [apply firstn_le_length|]. split.
    + intros t Hin. apply In_firstn in Hin. unfold tasks_of in Hin.
      apply filter_In in Hin. destruct Hin as [Hin Hp].
      apply String.eqb_eq in Hp. split; assumption.
    + intros Hlen t Hin Hp. rewrite firstn_all2 by exact Hlen.
      unfold tasks_of. apply filter_In. split; [exact Hin|].
      now apply String.eqb_eq.
Qed.

Lemma listProjectTasks_lists_the_project_witness :
  exists w',
    listProjectTasks "doc_0" launch_with_task
    = (w', inr [mkDocument "doc_5"
                  (Task.make "doc_0" "Write the brief" None "todo" None None
                     "2026-01-01T00:00:00.000Z" "2026-01-01T00:00:00.000Z")]).
Proof.
  destruct (listProjectTasks_lists_the_project "doc_0" launch_with_task)
    as (_ & H & _).
  destruct H as (w' & Hrun); [discriminate | vm_compute; reflexivity |].
  exists w'. rewrite Hrun. vm_compute. reflexivity.
Defined.

(** * The activity feed *)

Section InsertionSort.

Variable T : Type.
Variable le : T -> T -> bool.
Hypothesis le_total : forall a b, le a b = true \/ le b a = true.

Lemma chain_tail (a : T) (l : list T) : chain le (a :: l) -> chain le l.
Proof. destruct l; [trivial | now intros [_ H]]. Qed.

Lemma insert_by_chain (x : T) (l : list T) : chain le l -> chain le (insert_by le x l).
Proof.
  induction l as [|y l IH]; intros Hl; [exact I|].
  cbn [insert_by]. destruct (le x y) eqn:E.
  - split; assumption.
  - assert (Hyx : le y x = true) by (destruct (le_total x y); congruence).
    specialize (IH (chain_tail _ _ Hl)).
    destruct l as [|z l]; [split; [exact Hyx | exact I]|].
    cbn [insert_by] in *. destruct (le x z).
    + split; assumption.
    + split; [exact (proj1 Hl) | exact IH].
Qed.

Lemma sort_by_chain (l : list T) : chain le (sort_by le l).
Proof.
  induction l as [|x l IH]; [exact I|]. apply insert_by_chain. exact IH.
Qed.

Lemma insert_by_In (x y : T) (l : list T) :
  In y (insert_by le x l) <-> y = x \/ In y l.
Proof.
  induction l as [|z l IH]; cbn [insert_by In].
  - intuition congruence.
  - destruct (le x z); cbn [In]; [intuition congruence|].
    rewrite IH. intuition congruence.
Qed.

Lemma sort_by_In (y : T) (l : list T) : In y (sort_by le l) <-> In y l.
Proof.
  induction l as [|x l IH]; [reflexivity|].
  unfold sort_by in *. cbn [fold_right In]. rewrite insert_by_In, IH.
  intuition congruence.
Qed.

Lemma insert_by_length (x : T) (l : list T) :
  length (insert_by le x l) = S (length l).
Proof.
  induction l as [|z l IH]; [reflexivity|]. cbn [insert_by].
  destruct (le x z); cbn [length]; congruence.
Qed.

Lemma sort_by_length (l : list T) : length (sort_by le l) = length l.
Proof.
  induction l as [|x l IH]; [reflexivity|].
  unfold sort_by in *. cbn [fold_right length]. now rewrite insert_by_length, IH.
Qed.

Lemma firstn_chain (n : nat) (l : list T) : chain le l -> chain le (firstn n l).
Proof.
  revert l. induction n as [|n IH]; intros l Hl; [exact I|].
  destruct l as [|a l]; [exact I|]. cbn [firstn].
  specialize (IH l (chain_tail _ _ Hl)).
  destruct l as [|b l]; [rewrite firstn_nil; exact I|].
  destruct n; [exact I|]. cbn [firstn] in *. split; [exact (proj1 Hl) | exact IH].
Qed.

End InsertionSort.

(** X6. [listActivityLogs] returns entries of the project only, each of them
    taken from the stored log, at most [limit] of them and most recent first
    by [createdAt]; none of the project's entries is missing when it has at
    most [limit]; the store is left as it was. With an empty [projectId] it
    fails with a ValidationError before any remote call. *)
Theorem listActivityLogs_most_recent_first (projectId : string) (limit : nat)
    (w : World) :
  (projectId = "" ->
   listActivityLogs projectId limit w = (w, inl (Error "projectId is required")) /\
   classify (Error "projectId is required") = ValidationError) /\
  (projectId <> "" -> hd false (faults w) = false ->
   exists w' found, listActivityLogs projectId limit w = (w', inr found)) /\
  (forall w' found,
     listActivityLogs projectId limit w = (w', inr found) ->
     newest_first found /\
     length found <= limit /\
     (forall e, In e found ->
                In e (logs w) /\ ActivityLog.projectId (data e) = projectId) /\
     (length (entries_of (store w) projectId) <= limit ->
      forall e, In e (logs w) ->
                ActivityLog.projectId (data e) = projectId -> In e found) /\
     store w' = store w).
Proof.
  split; [|split].
  - intros ->. split; reflexivity.
  - intros Hp Hf. unfold listActivityLogs. service_unfold.
    rewrite (truthy_true _ Hp). world_simpl. rewrite Hf.
    eexists. eexists. reflexivity.
  - intros w' found H. unfold listActivityLogs in H. service_unfold.
    branch H. branch H. finished H.
    fold (entries_of (store w) projectId).
    change (fun a b : Document ActivityLog.t =>
              String.leb (ActivityLog.createdAt (data b))
                (ActivityLog.createdAt (data a))) with newer.
    assert (Htotal : forall a b, newer a b = true \/ newer b a = true)
      by (intros a b; apply String.leb_total).
    split; [|split; [|split; [|split]]].
    + apply firstn_chain, sort_by_chain. exact Htotal.
    + apply firstn_le_length.
    + intros e Hin. apply In_firstn in Hin. apply sort_by_In in Hin.
      unfold entries_of in Hin. apply filter_In in Hin.
      destruct Hin as [Hin Hp]. apply String.eqb_eq in Hp. split; assumption.
    + intros Hlen e Hin Hp.
      rewrite firstn_all2 by (rewrite sort_by_length; exact Hlen).
      apply sort_by_In. unfold entries_of. apply filter_In.
      split; [exact Hin | now apply String.eqb_eq].
    + reflexivity.
Qed.

Lemma listActivityLogs_most_recent_first_witness :
  exists w' found,
    listActivityLogs "doc_0" 2 launch_with_task = (w', inr found) /\
    length found <= 2.
Proof.
  destruct (listActivityLogs_most_recent_first "doc_0" 2 launch_with_task)
    as (_ & Hrun & Hfound).
  destruct Hrun as (w' & found & Hrun);
    [discriminate | vm_compute; reflexivity |].
  exists w', found. split; [exact Hrun|].
  destruct (Hfound w' found Hrun) as (_ & Hlen & _). exact Hlen.
Defined.

(** * Realtime subscriptions *)

(** X7. With a non-empty [projectId], [subscribeActivityLogs] adds one
    watcher on [activity_logs] scoped to the project, carrying exactly the
    handlers that were passed, in the order connected, create, update,
    delete, error, close; earlier watchers, the store and the session are
    untouched. It starts the connection without waiting for it and always
    returns the disposer of that watcher: if the connection is made the
    watcher is open, and if it fails nothing is thrown to the caller and the
    watcher stays behind, closed. With an empty [projectId] it fails with a
    ValidationError and no watcher is built. *)
Theorem subscribeActivityLogs_opens_one_channel (projectId : string)
    (handlers : Handlers) (w : World) :
  (projectId = "" ->
   subscribeActivityLogs projectId handlers w
   = (w, inl (Error "projectId is required")) /\
   classify (Error "projectId is required") = ValidationError) /\
  (projectId <> "" ->
   let h := length (watchers w) in
   exists w1,
     subscribeActivityLogs projectId handlers w = (w1, inr (disposer h)) /\
     store w1 = store w /\ auth w1 = auth w /\
     (hd false (faults w) = false ->
      watchers w1
      = watchers w ++ [mkWatcher activity_logs projectId (registered handlers) true] /\
      trace w1 = trace w ++ [Returned (Connect h)]) /\
     (hd false (faults w) = true ->
      watchers w1
      = watchers w ++ [mkWatcher activity_logs projectId (registered handlers) false] /\
      trace w1 = trace w ++ [Raised (Connect h) RemoteFailure])).
Proof.
  split.
  - intros ->. split; reflexivity.
  - intros Hp h.
    destruct (subscribeActivityLogs_run projectId handlers w Hp)
      as (w1 & Hrun & Hw & Hs & Ha & _ & Ht).
    exists w1. split; [exact Hrun|]. split; [exact Hs|]. split; [exact Ha|].
    split; intros Hf; rewrite Hf in Hw, Ht; split; assumption.
Qed.

Lemma subscribeActivityLogs_opens_one_channel_witness :
  exists w1,
    subscribeActivityLogs "doc_0" (mkHandlers None (Some 7) None None (Some 9) None)
      (set_faults [true] launch) = (w1, inr (disposer 0)) /\
    watchers w1
    = [mkWatcher activity_logs "doc_0" [(SigCreate, 7); (SigError, 9)] false].
Proof.
  destruct (subscribeActivityLogs_opens_one_channel "doc_0"
              (mkHandlers None (Some 7) None None (Some 9) None)
              (set_faults [true] launch))
    as (_ & H).
  destruct H as (w1 & Hrun & _ & _ & _ & Hfails); [discriminate|].
  exists w1. split; [exact Hrun|].
  destruct Hfails as (Hw & _); [vm_compute; reflexivity|].
  rewrite Hw. vm_compute. reflexivity.
Defined.

(** X8. Subscribing and then disposing closes the channel again: when
    [subscribeActivityLogs] has returned its disposer and the disconnect gets
    through, running the disposer leaves the watcher closed, with its
    handlers, and the other watchers as they were; running it a second time
    returns normally and changes no watcher. *)
Theorem subscribe_then_dispose_closes (projectId : string) (handlers : Handlers)
    (w w1 : World) (dispose : M unit) :
  subscribeActivityLogs projectId handlers w = (w1, inr dispose) ->
  hd false (faults w1) = false ->
  exists w2 w3,
    dispose w1 = (w2, inr tt) /\
    watchers w2
    = watchers w ++ [mkWatcher activity_logs projectId (registered handlers) false] /\
    closed (length (watchers w)) w2 = true /\
    dispose w2 = (w3, inr tt) /\
    watchers w3 = watchers w2.
Proof.
  intros Hsub Hf.
  assert (Hp : projectId <> "").
  { intros ->. discriminate Hsub. }
  destruct (subscribeActivityLogs_run projectId handlers w Hp)
    as (w1' & Hrun & Hw & _).
  rewrite Hsub in Hrun.
  assert (Hw1 : w1' = w1) by congruence.
  assert (Hd : dispose = disposer (length (watchers w))) by congruence.
  subst w1' dispose. clear Hrun.
  set (h := length (watchers w)) in *.
  set (ws := watchers w ++
             [mkWatcher activity_logs projectId (registered handlers) false]).
  assert (E2 : exists w2,
             disposer h w1 = (w2, inr tt) /\ watchers w2 = ws).
  { unfold disposer, try_catch, watcher_disconnect, remote, ret.
    rewrite Hf. cbn [watchers set_faults]. subst h.
    rewrite Hw, nth_error_last. cbn [connected].
    destruct (hd false (faults w)); cbn [negb].
    - eexists. split; [reflexivity|]. cbn [watchers record set_faults].
      exact Hw.
    - eexists. split; [reflexivity|].
      cbn [watchers record set_faults set_watchers].
      rewrite update_nth_last. reflexivity. }
  destruct E2 as (w2 & E2 & Hw2).
  destruct (disposer_never_throws h w2) as (w3 & E3 & Hnoop).
  exists w2, w3. split; [exact E2|]. split; [exact Hw2|].
  assert (Hc : closed h w2 = true).
  { unfold closed. rewrite Hw2. subst h ws. rewrite nth_error_last. reflexivity. }
  split; [exact Hc|]. split; [exact E3|].
  exact (proj2 (proj2 (Hnoop Hc))).
Qed.

Lemma subscribe_then_dispose_closes_witness :
  exists w2 w3,
    disposer 0 (after (subscribeActivityLogs "doc_0"
                         (mkHandlers None (Some 7) None None None None)) launch)
    = (w2, inr tt) /\
    closed 0 w2 = true /\
    disposer 0 w2 = (w3, inr tt) /\
    watchers w3 = watchers w2.
Proof.
  destruct (subscribe_then_dispose_closes "doc_0"
              (mkHandlers None (Some 7) None None None None) launch
              (after (subscribeActivityLogs "doc_0"
                        (mkHandlers None (Some 7) None None None None)) launch)
              (disposer 0))
    as (w2 & w3 & E2 & _ & Hc & E3 & Hw);
    [vm_compute; reflexivity | vm_compute; reflexivity |].
  exists w2, w3. repeat split; assumption.
Defined.

(** * What no service call ever does *)

#[export] Instance archive_grows_ledger : Ledger archive_grows.
Proof.
  split.
  - intros w. split; exists []; now rewrite app_nil_r.
  - intros a b c [[p1 Hp1] [m1 Hm1]] [[p2 Hp2] [m2 Hm2]]. split.
    + exists (p1 ++ p2). now rewrite Hp2, Hp1, app_assoc.
    + exists (m1 ++ m2). now rewrite Hm2, Hm1, app_assoc.
  - intros w f. split; exists []; now rewrite app_nil_r.
  - intros w r. split; exists []; now rewrite app_nil_r.
  - intros w e. split; exists []; now rewrite app_nil_r.
Qed.

#[export] Instance store_same_ledger : Ledger store_same.
Proof.
  split; unfold store_same; intros; try reflexivity. congruence.
Qed.

#[export] Instance tasks_persist_ledger : Ledger tasks_persist.
Proof.
  assert (Hrefl : forall w w', store w' = store w -> tasks_persist w w').
  { intros w w' Hs i before Hfind. exists before. rewrite Hs.
    split; [exact Hfind|]. repeat split. }
  split.
  - intros w. now apply Hrefl.
  - intros a b c Hab Hbc i before Hfind.
    destruct (Hab _ _ Hfind) as (mid & Hmid & Hid1 & H1).
    destruct (Hbc _ _ Hmid) as (last_ & Hlast & Hid2 & H2).
    exists last_. split; [exact Hlast|]. split; [congruence|].
    destruct H1 as (? & ? & ? & ? & ?), H2 as (? & ? & ? & ? & ?).
    repeat split; congruence.
  - intros w f. now apply Hrefl.
  - intros w r. now apply Hrefl.
  - intros w e. now apply Hrefl.
Qed.

(** A step that leaves the store alone respects every ledger that only looks
    at the store. *)
Lemma store_same_archive_grows (w w' : World) :
  store_same w w' -> archive_grows w w'.
Proof. unfold store_same. intros H. split; exists []; rewrite H, app_nil_r; reflexivity. Qed.

Lemma store_same_tasks_persist (w w' : World) :
  store_same w w' -> tasks_persist w w'.
Proof.
  unfold store_same. intros Hs i before Hfind. exists before. rewrite Hs.
  split; [exact Hfind|]. repeat split.
Qed.

Lemma preserves_weaken (R R' : World -> World -> Prop) {A} (m : M A) :
  (forall w w', R w w' -> R' w w') -> preserves R m -> preserves R' m.
Proof. intros HR Hm w w' r E. exact (HR _ _ (Hm _ _ _ E)). Qed.

(** Proves [preserves store_same] of a step given by its code. *)
Ltac kept :=
  try (apply preserves_remote; [exact _|]);
  let w0 := fresh "w" in
  let w1 := fresh "w" in
  let r0 := fresh "r" in
  let E := fresh "E" in
  intros w0 w1 r0 E; cbv beta zeta in E;
  repeat match type of E with
         | context[if ?c then _ else _] => destruct c
         | context[match ?c with _ => _ end] => destruct c
         end;
  apply world_eq in E; subst w1; reflexivity.

Lemma reads_keep_store :
  (forall c f n s, preserves store_same (listDocuments c f n s)) /\
  (forall c i, preserves store_same (getDocument c i)) /\
  (forall u p, preserves store_same (isProjectMember u p)).
Proof.
  split; [|split]; intros.
  - unfold listDocuments. kept.
  - unfold getDocument. kept.
  - unfold isProjectMember. destruct (_ || _); [apply preserves_ret; exact _|].
    apply preserves_bind; [exact _ | unfold listDocuments; kept|].
    intros a. apply preserves_ret. exact _.
Qed.

Lemma sessions_keep_store :
  (forall e p x, preserves store_same (auth_register e p x)) /\
  (forall e p, preserves store_same (auth_login e p)) /\
  preserves store_same auth_getUser /\
  preserves store_same auth_isAuthenticated /\
  preserves store_same auth_getCurrentUser /\
  preserves store_same auth_logout /\
  (forall c p, preserves store_same (realtime_collection c p)) /\
  (forall h sig f, preserves store_same (watcher_on h sig f)) /\
  (forall h, preserves store_same (watcher_connect h)) /\
  (forall h, preserves store_same (watcher_disconnect h)).
Proof.
  assert (Hconn : forall h, preserves store_same (watcher_connect h)).
  { intros h w w' r E. unfold watcher_connect in E. cbv zeta in E.
    destruct (hd false (faults w)); apply world_eq in E; subst w'; reflexivity. }
  repeat apply conj; try exact Hconn; intros;
    first [ unfold auth_register | unfold auth_login | unfold auth_getUser
          | unfold auth_isAuthenticated | unfold auth_getCurrentUser
          | unfold auth_logout | unfold realtime_collection | unfold watcher_on
          | unfold watcher_connect | unfold watcher_disconnect ]; kept.
Qed.

Ltac store_same_step :=
  first [ apply (proj1 reads_keep_store)
        | apply (proj1 (proj2 reads_keep_store))
        | apply (proj2 (proj2 reads_keep_store))
        | solve [auto] ].

(** The requests that read, sign in or subscribe leave the store as it was. *)
Lemma quiet_requests_keep_store (req : Request) (w w' : World) (r : option Exn) :
  mutating req = false -> serve req w = (w', r) -> store w' = store w.
Proof.
  assert (Hout : forall A (m : M A),
             preserves store_same m -> outcome m w = (w', r) -> store w' = store w).
  { intros A m Hm E. unfold outcome in E.
    destruct (m w) as [w1 [e|a]] eqn:E1; apply world_eq in E; subst w';
      exact (Hm _ _ _ E1). }
  destruct sessions_keep_store
    as (Hreg & Hlogin & Huser & Hauth & Hcur & Hlogout & Hrt & Hon & Hconn & Hoff).
  intros Hq. destruct req; try discriminate Hq; cbn [serve]; apply Hout.
  - unfold listUserProjects. along store_same_step.
  - unfold listProjectTasks. along store_same_step.
  - unfold listActivityLogs. along store_same_step.
  - unfold subscribeActivityLogs, and_then. along store_same_step.
  - unfold signup. along store_same_step.
  - unfold login. along store_same_step.
  - unfold getCurrentUser. apply preserves_try_catch; [exact _ | | intro];
      along store_same_step.
  - exact Hlogout.
  - exact Hauth.
Qed.

Lemma find_doc_app {T} (i : string) (l l' : list (Document T)) (d : Document T) :
  find_doc i l = Some d -> find_doc i (l ++ l') = Some d.
Proof.
  unfold find_doc. induction l as [|x l IH]; [discriminate|].
  cbn [find app]. destruct (id x =? i); [trivial | exact IH].
Qed.

Lemma createDocument_archive_grows (c : Collection) (d : DataOf c) :
  preserves archive_grows (createDocument c d).
Proof.
  apply preserves_remote; [exact _|]. intros w w' r E. apply world_eq in E.
  subst w'. unfold archive_grows. cbn [store set_store].
  destruct c; cbn [set_docs docs bump st_projects st_project_members];
    split; eexists; try reflexivity; now rewrite app_nil_r.
Qed.

Lemma createDocument_tasks_persist (c : Collection) (d : DataOf c) :
  preserves tasks_persist (createDocument c d).
Proof.
  apply preserves_remote; [exact _|]. intros w w' r E. apply world_eq in E.
  subst w'. intros i before Hfind. exists before. cbn [store set_store].
  split; [|repeat split].
  destruct c; cbn [set_docs docs bump st_tasks]; try exact Hfind.
  apply find_doc_app. exact Hfind.
Qed.

Lemma updateDocument_archive_grows (i : string) (f : Task.t -> Task.t) :
  preserves archive_grows (updateDocument tasks i f).
Proof.
  apply preserves_remote; [exact _|]. intros w w' r E. cbv zeta in E.
  destruct (find_doc i (docs tasks (store w))); apply world_eq in E; subst w';
    split; exists []; cbn; now rewrite app_nil_r.
Qed.

Lemma updateDocument_tasks_persist (i : string) (p : PartialTask.t) :
  late_fields_only p ->
  preserves tasks_persist (updateDocument tasks i (merge_Task p)).
Proof.
  intros (H1 & H2 & H3 & H4 & H5).
  apply preserves_remote; [exact _|]. intros w w' r E. cbv zeta in E.
  cbn [docs DataOf] in E.
  destruct (find_doc i (st_tasks (store w))) as [doc|] eqn:Ei;
    apply world_eq in E; subst w'; [|now apply store_same_tasks_persist].
  intros j before Hfind. cbn [store set_store set_docs st_tasks].
  destruct (String.eqb_spec j i) as [->|Hne].
  - rewrite (find_doc_patched _ _ _ _ Hfind). eexists. split; [reflexivity|].
    split; [symmetry; exact (find_doc_id _ _ _ Hfind)|].
    unfold same_origin, merge_Task. cbn. rewrite H1, H2, H3, H4, H5.
    repeat split.
  - rewrite (find_doc_untouched _ _ _ _ Hne). exists before.
    split; [exact Hfind|]. repeat split.
Qed.

Ltac archive_step :=
  first [ apply createDocument_archive_grows
        | apply updateDocument_archive_grows
        | apply (preserves_weaken store_same archive_grows);
          [exact store_same_archive_grows | store_same_step] ].

Ltac persist_step :=
  first [ apply createDocument_tasks_persist
        | apply updateDocument_tasks_persist; repeat split
        | apply (preserves_weaken store_same tasks_persist);
          [exact store_same_tasks_persist | store_same_step] ].

Lemma outcome_preserves (R : World -> World -> Prop) {A} (m : M A)
    (w w' : World) (r : option Exn) :
  preserves R m -> outcome m w = (w', r) -> R w w'.
Proof.
  intros Hm E. unfold outcome in E.
  destruct (m w) as [w1 [e|a]] eqn:E1; apply world_eq in E; subst w';
    exact (Hm _ _ _ E1).
Qed.

Lemma serve_archive_grows (req : Request) (w w' : World) (r : option Exn) :
  serve req w = (w', r) -> archive_grows w w'.
Proof.
  destruct (mutating req) eqn:Hm.
  - destruct req; try discriminate Hm; cbn [serve];
      apply outcome_preserves.
    + unfold createProject. along archive_step.
    + unfold addUserToProject. along archive_step.
    + unfold createTask. along archive_step.
    + unfold assignTask. along archive_step.
    + unfold updateTaskStatus. along archive_step.
  - intros E. apply store_same_archive_grows.
    exact (quiet_requests_keep_store _ _ _ _ Hm E).
Qed.

Lemma serve_tasks_persist (req : Request) (w w' : World) (r : option Exn) :
  serve req w = (w', r) -> tasks_persist w w'.
Proof.
  destruct (mutating req) eqn:Hm.
  - destruct req; try discriminate Hm; cbn [serve];
      apply outcome_preserves.
    + unfold createProject. along persist_step.
    + unfold addUserToProject. along persist_step.
    + unfold createTask. along persist_step.
    + unfold assignTask. along persist_step.
    + unfold updateTaskStatus. along persist_step.
  - intros E. apply store_same_tasks_persist.
    exact (quiet_requests_keep_store _ _ _ _ Hm E).
Qed.

(** X9. No service call removes or rewrites a project or a membership: after
    any request, whatever its outcome, the projects and the memberships the
    store held are still there, in place and unchanged, followed by the new
    ones. So whoever has a membership row keeps it: once a member, always a
    member. *)
Theorem projects_and_memberships_only_grow (req : Request) (w w' : World)
    (r : option Exn) :
  serve req w = (w', r) ->
  (exists new, st_projects (store w') = st_projects (store w) ++ new) /\
  (exists new, st_project_members (store w')
               = st_project_members (store w) ++ new) /\
  (forall userId projectId,
     has_membership (store w) userId projectId = true ->
     has_membership (store w') userId projectId = true).
Proof.
  intros E. destruct (serve_archive_grows _ _ _ _ E) as [Hp [new Hm]].
  split; [exact Hp|]. split; [exists new; exact Hm|].
  intros u p. exact (has_membership_app _ _ _ _ _ Hm).
Qed.

Lemma projects_and_memberships_only_grow_witness :
  has_membership (store launch_with_task) "u2" "doc_0" = true.
Proof.
  destruct (projects_and_memberships_only_grow
              (CreateTask "u1" "doc_0" "Write the brief" None None None)
              launch_with_u2 launch_with_task None) as (_ & _ & H).
  - vm_compute. reflexivity.
  - apply H. vm_compute. reflexivity.
Defined.

(** X10. No service call deletes a task or touches the fields of its
    creation: after any request, whatever its outcome, every task the store
    held is still found under its id, with the [projectId], [title],
    [description], [dueDate] and [createdAt] it had. *)
Theorem tasks_keep_their_origin (req : Request) (w w' : World) (r : option Exn)
    (taskId : string) (before : Document Task.t) :
  serve req w = (w', r) ->
  find_doc taskId (st_tasks (store w)) = Some before ->
  exists after_,
    find_doc taskId (st_tasks (store w')) = Some after_ /\
    id after_ = id before /\
    Task.projectId (data after_) = Task.projectId (data before) /\
    Task.title (data after_) = Task.title (data before) /\
    Task.description (data after_) = Task.description (data before) /\
    Task.dueDate (data after_) = Task.dueDate (data before) /\
    Task.createdAt (data after_) = Task.createdAt (data before).
Proof.
  intros E Hfind. exact (serve_tasks_persist _ _ _ _ E _ _ Hfind).
Qed.

Lemma tasks_keep_their_origin_witness :
  exists after_,
    find_doc "doc_5"
      (st_tasks (store (after (updateTaskStatus "u2" "doc_5" "doing")
                          launch_with_task))) = Some after_ /\
    Task.title (data after_) = "Write the brief".
Proof.
  destruct (tasks_keep_their_origin (UpdateTaskStatus "u2" "doc_5" "doing")
              launch_with_task
              (after (updateTaskStatus "u2" "doc_5" "doing") launch_with_task)
              None "doc_5"
              (mkDocument "doc_5"
                 (Task.make "doc_0" "Write the brief" None "todo" None None
                    "2026-01-01T00:00:00.000Z" "2026-01-01T00:00:00.000Z")))
    as (after_ & Hfind & _ & _ & Htitle & _);
    [vm_compute; reflexivity | vm_compute; reflexivity |].
  exists after_. split; assumption.
Defined.

(** * Validation comes first *)

Lemma past_ret {A} (a : A) : past_validation (ret a).
Proof. intros w w' e E. discriminate E. Qed.

Lemma past_Date_now : past_validation Date_now.
Proof. intros w w' e E. discriminate E. Qed.

Lemma past_throw_if (c : bool) (message : string) :
  classify (Error message) <> ValidationError ->
  past_validation (throw_if c message).
Proof.
  intros Hm w w' e E. destruct c; [|discriminate E].
  apply raised_eq in E. destruct E as [_ <-]. exact Hm.
Qed.

Lemma past_bind {A B} (m : M A) (k : A -> M B) :
  past_validation m -> (forall a, past_validation (k a)) ->
  past_validation (bind m k).
Proof.
  intros Hm Hk w w' e E. unfold bind in E.
  destruct (m w) as [w1 [e1|a]] eqn:E1.
  - apply raised_eq in E. destruct E as [<- <-]. exact (Hm _ _ _ E1).
  - exact (Hk a _ _ _ E).
Qed.

Lemma past_try_catch {A} (m : M A) (handler : Exn -> M A) :
  (forall e, past_validation (handler e)) -> past_validation (try_catch m handler).
Proof.
  intros Hh w w' e E. unfold try_catch in E.
  destruct (m w) as [w1 [e1|a]]; [exact (Hh _ _ _ _ E) | discriminate E].
Qed.

Lemma past_Promise_all {A B} (f : A -> M B) (xs : list A) :
  (forall x, past_validation (f x)) -> past_validation (Promise_all f xs).
Proof.
  intros Hf w w' e E.
  destruct (Promise_all_rejected _ _ _ _ _ E) as (w1 & rs & Es & Hin & _).
  destruct (settle_all_rejection _ _ _ _ _ _ Es Hin) as (x & w0 & w0' & _ & Ex).
  exact (Hf _ _ _ _ Ex).
Qed.

Lemma past_remote {A} (call : Call) (body : M A) :
  past_validation body -> past_validation (remote call body).
Proof.
  intros Hb w w' e E. unfold remote in E.
  destruct (hd false (faults w)).
  - apply raised_eq in E. destruct E as [_ <-]. discriminate.
  - destruct (body (set_faults (tl (faults w)) w)) as [w1 [e1|a]] eqn:E1;
      [|discriminate E].
    apply raised_eq in E. destruct E as [_ <-]. exact (Hb _ _ _ E1).
Qed.

(** Proves [past_validation] of a step given by its code. *)
Ltac past_code :=
  let w0 := fresh "w" in
  let w1 := fresh "w" in
  let e0 := fresh "e" in
  let E := fresh "E" in
  intros w0 w1 e0 E; cbv beta zeta in E;
  repeat match type of E with
         | context[if ?c then _ else _] => destruct c
         | context[match ?c with _ => _ end] => destruct c
         end;
  first [ discriminate E
        | apply raised_eq in E; destruct E as [_ <-]; discriminate ].

Lemma isProjectMember_past (u p : string) : past_validation (isProjectMember u p).
Proof.
  unfold isProjectMember. destruct (_ || _); [apply past_ret|].
  apply past_bind; [apply past_remote; past_code|].
  intros a. apply past_ret.
Qed.

Ltac past :=
  repeat first
    [ apply past_bind; [ | intro]
    | apply past_throw_if; discriminate
    | apply past_ret
    | apply past_Date_now
    | apply past_Promise_all; intro
    | apply past_try_catch; intro
    | apply isProjectMember_past
    | apply past_remote; past_code
    | match goal with
      | |- past_validation (if ?c then _ else _) => destruct c
      | |- past_validation (match ?c with _ => _ end) => destruct c
      end
    | past_code ].

Lemma validates_first_throw_if {B} (c : bool) (message : string)
    (k : unit -> M B) :
  validates_first (k tt) -> validates_first (bind (throw_if c message) k).
Proof.
  intros Hk w w' e E Hv. destruct c.
  - apply world_eq in E. now subst.
  - exact (Hk _ _ _ E Hv).
Qed.

Lemma validates_first_past {A} (m : M A) : past_validation m -> validates_first m.
Proof. intros Hm w w' e E Hv. destruct (Hm _ _ _ E Hv). Qed.

Ltac validated :=
  repeat apply validates_first_throw_if;
  apply validates_first_past; past.

(** X11. Every ValidationError is raised before anything else happens: when
    a service function ends with one, the world is exactly as it was; no
    remote call has been made, nothing has been written, no watcher built. *)
Theorem validation_comes_first (req : Request) (w w' : World) (e : Exn) :
  serve req w = (w', Some e) ->
  classify e = ValidationError ->
  w' = w.
Proof.
  assert (Hout : forall A (m : M A),
             validates_first m -> outcome m w = (w', Some e) ->
             classify e = ValidationError -> w' = w).
  { intros A m Hm E Hv. unfold outcome in E.
    destruct (m w) as [w1 [e1|a]] eqn:E1; [|discriminate E].
    assert (w1 = w' /\ e1 = e) as [<- <-] by (split; congruence).
    exact (Hm _ _ _ E1 Hv). }
  destruct req; cbn [serve]; apply Hout.
  - unfold createProject, createDocument. validated.
  - unfold listUserProjects, listDocuments, getDocument. validated.
  - unfold addUserToProject, listDocuments, createDocument. validated.
  - unfold createTask, createDocument. validated.
  - unfold assignTask, getDocument, updateDocument, createDocument. validated.
  - unfold updateTaskStatus, getDocument, updateDocument, createDocument. validated.
  - unfold listProjectTasks, listDocuments. validated.
  - unfold listActivityLogs, listDocuments. validated.
  - unfold subscribeActivityLogs, and_then, realtime_collection, watcher_on,
      watcher_connect. validated.
  - unfold signup, auth_register, auth_getUser, auth_getCurrentUser. validated.
  - unfold login, auth_login, auth_getUser, auth_getCurrentUser. validated.
  - unfold getCurrentUser. validated.
  - unfold logout, auth_logout. validated.
  - unfold isAuthenticated, auth_isAuthenticated. validated.
Qed.

Lemma validation_comes_first_witness :
  after (updateTaskStatus "u1" "doc_5" "finished") launch_with_task
  = launch_with_task.
Proof.
  apply (validation_comes_first (UpdateTaskStatus "u1" "doc_5" "finished")
           launch_with_task _ (Error "invalid status")).
  - vm_compute. reflexivity.
  - vm_compute. reflexivity.
Defined.

(** * The effect of a mutation on the store, whatever its outcome *)

Lemma run_eq {A} (w w' : World) (r r' : Exn + A) :
  (w, r) = (w', r') -> w = w' /\ r = r'.
Proof. intros H. split; congruence. Qed.

(** A leaf of the run in [H] at which the store is still as it was. *)
Ltac untouched H :=
  apply run_eq in H; destruct H as [<- <-]; world_simpl; left; reflexivity.

(** Follows the run in [H] test by test, closing the leaves that wrote
    nothing. *)
Ltac follow H :=
  repeat (first [ rewrite isProjectMember_run in H | branch H ];
          try solve [untouched H]).

(** A leaf of the run in [H] that wrote: read off world and result. *)
Ltac wrote H :=
  apply run_eq in H; destruct H as [<- <-]; world_simpl;
  repeat match goal with
         | E : negb _ = false |- _ => apply negb_false_iff in E
         end.

Lemma row_found (s : Store) (p u : string) :
  (length
     (firstn 1
        (filter
           (fun doc : Document ProjectMember.t =>
              (ProjectMember.projectId (data doc) =? p)%string
              && (ProjectMember.userId (data doc) =? u)%string)
           (st_project_members s))) =? 0)%nat = false ->
  has_membership s u p = true.
Proof.
  rewrite first_row_missing. intros H. apply negb_false_iff in H. exact H.
Qed.

Lemma row_absent (s : Store) (p u : string) :
  (0 <? length
          (firstn 1
             (filter
                (fun doc : Document ProjectMember.t =>
                   (ProjectMember.projectId (data doc) =? p)%string
                   && (ProjectMember.userId (data doc) =? u)%string)
                (st_project_members s))))%nat = false ->
  has_membership s u p = false.
Proof. rewrite first_row_present. trivial. Qed.

Lemma createProject_effect (o n : string) (w w' : World)
    (r : Exn + Document Project.t) :
  createProject o n w = (w', r) ->
  let s := store w in
  let s1 := put projects (Project.make n o (clock w)) s in
  let s2 := put project_members
              (ProjectMember.make (fresh_id (next_id s)) o (clock w)) s1 in
  let s3 := put activity_logs
              (ActivityLog.make (fresh_id (next_id s)) o "project"
                 (fresh_id (next_id s)) "create" (clock w)) s2 in
  store w' = s \/
  (store w' = s1 /\ r = inl RemoteFailure) \/
  (store w' = s2 /\ r = inl RemoteFailure) \/
  (store w' = s3 /\ exists a, r = inr a).
Proof.
  intros H. cbv zeta. unfold createProject in H. service_unfold. follow H.
  - wrote H. right. left. split; reflexivity.
  - wrote H. right. right. left. split; reflexivity.
  - wrote H. right. right. right. split; [reflexivity | eexists; reflexivity].
Qed.

Lemma addUserToProject_effect (p u a : string) (w w' : World)
    (r : Exn + Document ProjectMember.t) :
  addUserToProject p u a w = (w', r) ->
  let s := store w in
  let s1 := put project_members (ProjectMember.make p u (clock w)) s in
  let s2 := put activity_logs
              (ActivityLog.make p a "project_member" (fresh_id (next_id s))
                 "add_member" (clock w)) s1 in
  store w' = s \/
  (has_membership s a p = true /\ has_membership s u p = false /\
   ((store w' = s1 /\ r = inl RemoteFailure) \/
    (store w' = s2 /\ exists v, r = inr v))).
Proof.
  intros H. cbv zeta. unfold addUserToProject in H. service_unfold. follow H.
  - wrote H. right. split; [exact (row_found _ _ _ E3)|].
    split; [exact (row_absent _ _ _ E5)|]. left. split; reflexivity.
  - wrote H. right. split; [exact (row_found _ _ _ E3)|].
    split; [exact (row_absent _ _ _ E5)|]. right.
    split; [reflexivity | eexists; reflexivity].
Qed.

Lemma createTask_effect (a p t : string) (d x due : option string)
    (w w' : World) (r : Exn + Document Task.t) :
  createTask a p t d x due w = (w', r) ->
  let s := store w in
  let s1 := put tasks (Task.make p t d "todo" x due (clock w) (clock w)) s in
  let s2 := put activity_logs
              (ActivityLog.make p a "task" (fresh_id (next_id s)) "create"
                 (clock w)) s1 in
  store w' = s \/
  (has_membership s a p = true /\
   (forall y, x = Some y -> y <> "" -> has_membership s y p = true) /\
   ((store w' = s1 /\ r = inl RemoteFailure) \/
    (store w' = s2 /\ exists v, r = inr v))).
Proof.
  intros H. cbv zeta. unfold createTask in H. service_unfold.
  branch H; [untouched H|]. branch H; [untouched H|]. branch H; [untouched H|].
  rewrite isProjectMember_run in H. branch H; [untouched H|].
  branch H; [untouched H|]. branch H; [untouched H|].
  apply negb_false_iff in E4.
  destruct x as [y|]; [destruct (truthy y) eqn:Ey|].
  - follow H.
    + wrote H. right. split; [exact E4|].
      split; [intros ? [= <-] _; assumption|]. left. split; reflexivity.
    + wrote H. right. split; [exact E4|].
      split; [intros ? [= <-] _; assumption|]. right.
      split; [reflexivity | eexists; reflexivity].
  - follow H.
    + wrote H. right. split; [exact E4|].
      split; [intros ? [= <-] Hy; apply truthy_empty in Ey; contradiction|].
      left. split; reflexivity.
    + wrote H. right. split; [exact E4|].
      split; [intros ? [= <-] Hy; apply truthy_empty in Ey; contradiction|].
      right. split; [reflexivity | eexists; reflexivity].
  - follow H.
    + wrote H. right. split; [exact E4|]. split; [discriminate|].
      left. split; reflexivity.
    + wrote H. right. split; [exact E4|]. split; [discriminate|].
      right. split; [reflexivity | eexists; reflexivity].
Qed.

Lemma is_member_from (s : Store) (u p : string) :
  negb (truthy u) || negb (truthy p) = false ->
  has_membership s u p = true ->
  is_member s u p = true.
Proof.
  unfold is_member. intros H Hrow. apply orb_false_elim in H.
  destruct H as [Hu Hp]. apply negb_false_iff in Hu, Hp.
  now rewrite Hu, Hp, Hrow.
Qed.

Lemma assignTask_effect (a t x : string) (w w' : World)
    (r : Exn + Document Task.t) :
  assignTask a t x w = (w', r) ->
  let s := store w in
  store w' = s \/
  exists before,
    find_doc t (st_tasks s) = Some before /\
    is_member s a (Task.projectId (data before)) = true /\
    is_member s x (Task.projectId (data before)) = true /\
    let s1 := patched t (merge_Task (assign_patch x (clock w))) s in
    let s2 := put activity_logs
                (ActivityLog.make (Task.projectId (data before)) a "task" t
                   "assign" (clock w)) s1 in
    (store w' = s1 /\ r = inl RemoteFailure) \/
    (store w' = s2 /\ exists v, r = inr v).
Proof.
  intros H. cbv zeta. unfold assignTask in H. service_unfold. follow H.
  - wrote H. right. exists d.
    split; [reflexivity|]. split; [exact (is_member_from _ _ _ E4 E6)|].
    split; [exact (is_member_from _ _ _ E7 E9)|]. left. split; reflexivity.
  - wrote H. right. exists d.
    split; [reflexivity|]. split; [exact (is_member_from _ _ _ E4 E6)|].
    split; [exact (is_member_from _ _ _ E7 E9)|]. right.
    split; [reflexivity | eexists; reflexivity].
Qed.

Lemma updateTaskStatus_effect (a t x : string) (w w' : World)
    (r : Exn + Document Task.t) :
  updateTaskStatus a t x w = (w', r) ->
  let s := store w in
  store w' = s \/
  exists before,
    find_doc t (st_tasks s) = Some before /\
    is_member s a (Task.projectId (data before)) = true /\
    includes TaskStatus x = true /\
    let s1 := patched t (merge_Task (status_patch x (clock w))) s in
    let s2 := put activity_logs
                (ActivityLog.make (Task.projectId (data before)) a "task" t
                   ("status:" ++ x)%string (clock w)) s1 in
    (store w' = s1 /\ r = inl RemoteFailure) \/
    (store w' = s2 /\ exists v, r = inr v).
Proof.
  intros H. cbv zeta. unfold updateTaskStatus in H. service_unfold. follow H.
  - wrote H. right. exists d.
    split; [reflexivity|]. split; [exact (is_member_from _ _ _ E5 E7)|].
    split; [exact E2|]. left. split; reflexivity.
  - wrote H. right. exists d.
    split; [reflexivity|]. split; [exact (is_member_from _ _ _ E5 E7)|].
    split; [exact E2|]. right.
    split; [reflexivity | eexists; reflexivity].
Qed.

Lemma outcome_raised {A} (m : M A) (w w' : World) (e : Exn) :
  outcome m w = (w', Some e) -> m w = (w', inl e).
Proof.
  unfold outcome. destruct (m w) as [w1 [e1|a]]; [|discriminate].
  intros H. f_equal; congruence.
Qed.

(** X12. Only a remote failure can leave a write sequence half done: when a
    service function ends with any other error (validation, authorization,
    conflict, not found, a refusal of the auth provider), the store is
    exactly as it was. *)
Theorem only_remote_failures_leave_writes (req : Request) (w w' : World) (e : Exn) :
  serve req w = (w', Some e) ->
  e <> RemoteFailure ->
  store w' = store w.
Proof.
  intros E He. destruct (mutating req) eqn:Hm;
    [|exact (quiet_requests_keep_store _ _ _ _ Hm E)].
  destruct req; try discriminate Hm; cbn [serve] in E;
    apply outcome_raised in E.
  - destruct (createProject_effect _ _ _ _ _ E)
      as [H|[[_ H]|[[_ H]|[_ [v H]]]]]; congruence.
  - destruct (addUserToProject_effect _ _ _ _ _ _ E)
      as [H|(_ & _ & [[_ H]|[_ [v H]]])]; congruence.
  - destruct (createTask_effect _ _ _ _ _ _ _ _ _ E)
      as [H|(_ & _ & [[_ H]|[_ [v H]]])]; congruence.
  - destruct (assignTask_effect _ _ _ _ _ _ E)
      as [H|(b & _ & _ & _ & [[_ H]|[_ [v H]]])]; congruence.
  - destruct (updateTaskStatus_effect _ _ _ _ _ _ E)
      as [H|(b & _ & _ & _ & [[_ H]|[_ [v H]]])]; congruence.
Qed.

Lemma only_remote_failures_leave_writes_witness :
  store (after (assignTask "u3" "doc_5" "u1") launch_with_task)
  = store launch_with_task.
Proof.
  apply (only_remote_failures_leave_writes (AssignTask "u3" "doc_5" "u1")
           launch_with_task _ (Error "actor is not a member of the project")).
  - vm_compute. reflexivity.
  - discriminate.
Defined.

(** X13. A call that fails leaves no trace in the activity log: whatever the
    error, remote failures included, and whatever was written before it, the
    log is exactly as it was. With C1 this makes a new log entry the mark of
    a successful mutation. *)
Theorem failed_calls_leave_no_log_entry (req : Request) (w w' : World) (e : Exn) :
  serve req w = (w', Some e) ->
  logs w' = logs w.
Proof.
  intros E. unfold logs. destruct (mutating req) eqn:Hm;
    [|now rewrite (quiet_requests_keep_store _ _ _ _ Hm E)].
  destruct req; try discriminate Hm; cbn [serve] in E;
    apply outcome_raised in E.
  - destruct (createProject_effect _ _ _ _ _ E)
      as [H|[[H _]|[[H _]|[_ [v H]]]]]; try discriminate H;
      rewrite H; reflexivity.
  - destruct (addUserToProject_effect _ _ _ _ _ _ E)
      as [H|(_ & _ & [[H _]|[_ [v H]]])]; try discriminate H;
      rewrite H; reflexivity.
  - destruct (createTask_effect _ _ _ _ _ _ _ _ _ E)
      as [H|(_ & _ & [[H _]|[_ [v H]]])]; try discriminate H;
      rewrite H; reflexivity.
  - destruct (assignTask_effect _ _ _ _ _ _ E)
      as [H|(b & _ & _ & _ & [[H _]|[_ [v H]]])]; try discriminate H;
      rewrite H; reflexivity.
  - destruct (updateTaskStatus_effect _ _ _ _ _ _ E)
      as [H|(b & _ & _ & _ & [[H _]|[_ [v H]]])]; try discriminate H;
      rewrite H; reflexivity.
Qed.

Lemma failed_calls_leave_no_log_entry_witness :
  logs (after (createProject "u1" "Launch") outage_after_first_write)
  = logs outage_after_first_write.
Proof.
  apply (failed_calls_leave_no_log_entry (CreateProject "u1" "Launch")
           outage_after_first_write _ RemoteFailure).
  vm_compute. reflexivity.
Defined.

(** X14. [createProject] does not roll back. If the membership write fails,
    the project stays in the store without a member, its owner included, and
    without a log entry; if the log write fails, project and owner membership
    stay without a log entry. Either way the caller gets the remote
    failure. *)
Theorem createProject_does_not_roll_back (ownerId name : string) (w : World) :
  ownerId <> "" -> name <> "" ->
  hd false (faults w) = false ->
  let n := next_id (store w) in
  let project := mkDocument (fresh_id n) (Project.make name ownerId (clock w)) in
  let member :=
    mkDocument (fresh_id (S n)) (ProjectMember.make (fresh_id n) ownerId (clock w)) in
  exists w',
    createProject ownerId name w
    = (w', if hd false (tl (faults w)) || hd false (tl (tl (faults w)))
           then inl RemoteFailure else inr project) /\
    st_projects (store w') = st_projects (store w) ++ [project] /\
    (hd false (tl (faults w)) = true ->
     st_project_members (store w') = st_project_members (store w) /\
     logs w' = logs w) /\
    (hd false (tl (faults w)) = false -> hd false (tl (tl (faults w))) = true ->
     st_project_members (store w') = st_project_members (store w) ++ [member] /\
     logs w' = logs w).
Proof.
  intros Ho Hn Hf. cbv zeta. unfold createProject. service_unfold.
  rewrite (truthy_true _ Ho), (truthy_true _ Hn). world_simpl. rewrite Hf.
  world_simpl.
  destruct (hd false (tl (faults w))) eqn:E1; world_simpl; cbn [orb].
  - eexists. split; [reflexivity|]. split; [reflexivity|].
    split; [intros _; split; reflexivity | discriminate].
  - destruct (hd false (tl (tl (faults w)))) eqn:E2; world_simpl.
    + eexists. split; [reflexivity|]. split; [reflexivity|].
      split; [discriminate | intros _ _; split; reflexivity].
    + eexists. split; [reflexivity|]. split; [reflexivity|].
      split; discriminate.
Qed.

Lemma createProject_does_not_roll_back_witness :
  exists w',
    createProject "u1" "Launch" outage_after_first_write = (w', inl RemoteFailure) /\
    map data (st_projects (store w'))
    = [Project.make "Launch" "u1" "2026-01-01T00:00:00.000Z"] /\
    st_project_members (store w') = [].
Proof.
  destruct (createProject_does_not_roll_back "u1" "Launch" outage_after_first_write)
    as (w' & Hrun & Hp & Hm & _);
    [discriminate | discriminate | vm_compute; reflexivity |].
  exists w'. split; [exact Hrun|]. rewrite Hp.
  destruct Hm as [Hm _]; [vm_compute; reflexivity|]. rewrite Hm.
  split; vm_compute; reflexivity.
Defined.

(** * Referential integrity *)

Lemma fresh_id_inj (a b : nat) : fresh_id a = fresh_id b -> a = b.
Proof.
  unfold fresh_id. cbn [append]. intros H.
  injection H as H. apply DecimalNat.Unsigned.to_uint_inj.
  apply (f_equal NilEmpty.uint_of_string) in H.
  rewrite !NilEmpty.usu in H. congruence.
Qed.

Lemma issued_later (s s' : Store) (i : string) :
  next_id s <= next_id s' -> issued s i -> issued s' i.
Proof. intros Hle (k & Hk & ->). exists k. split; [lia | reflexivity]. Qed.

Lemma next_id_not_issued (s : Store) : ~ issued s (fresh_id (next_id s)).
Proof. intros (k & Hk & E). apply fresh_id_inj in E. lia. Qed.

Lemma has_project_later (s s' : Store) (i : string)
    (new : list (Document Project.t)) :
  st_projects s' = st_projects s ++ new -> has_project s i -> has_project s' i.
Proof.
  intros Hs (p & Hin & Hid). exists p. rewrite Hs.
  split; [apply in_or_app; now left | exact Hid].
Qed.

Lemma has_membership_row (s : Store) (u p : string) :
  has_membership s u p = true ->
  exists m, In m (st_project_members s) /\ pair_of m = (p, u).
Proof.
  unfold has_membership, member_rows. intros H. apply Nat.ltb_lt in H.
  destruct (filter _ _) as [|m l] eqn:E; [cbn in H; lia|].
  assert (Hin : In m (filter (fun doc => membership p u (data doc))
                        (st_project_members s)))
    by (rewrite E; now left).
  apply filter_In in Hin. destruct Hin as [Hin Hm].
  exists m. split; [exact Hin|]. unfold membership in Hm.
  apply andb_prop in Hm. destruct Hm as [Hp Hu].
  apply String.eqb_eq in Hp, Hu. unfold pair_of. congruence.
Qed.

Lemma no_row_no_pair (s : Store) (u p : string) :
  has_membership s u p = false ->
  ~ In (p, u) (map pair_of (st_project_members s)).
Proof.
  unfold has_membership, member_rows. intros H Hin.
  apply in_map_iff in Hin. destruct Hin as (m & Hpair & Hin).
  assert (Hf : In m (filter (fun doc => membership p u (data doc))
                       (st_project_members s))).
  { apply filter_In. split; [exact Hin|]. unfold pair_of in Hpair.
    injection Hpair as Hp Hu. unfold membership.
    now rewrite Hp, Hu, !String.eqb_refl. }
  destruct (filter _ _); [destruct Hf | discriminate H].
Qed.

Lemma member_has_project (s : Store) (u p : string) :
  coherent s -> has_membership s u p = true -> has_project s p.
Proof.
  intros Hc H. destruct (has_membership_row _ _ _ H) as (m & Hin & Hpair).
  injection Hpair as Hp _. rewrite <- Hp. exact (members_refer s Hc m Hin).
Qed.

Lemma NoDup_snoc {T} (l : list T) (x : T) :
  NoDup l -> ~ In x l -> NoDup (l ++ [x]).
Proof.
  induction l as [|y l IH]; intros Hnd Hx; cbn [app].
  - constructor; [intros [] | constructor].
  - inversion Hnd as [|? ? Hy Hnd']; subst. constructor.
    + intros Hin. apply in_app_or in Hin. destruct Hin as [Hin|[->|[]]].
      * exact (Hy Hin).
      * apply Hx. now left.
    + apply IH; [exact Hnd'|]. intros Hin. apply Hx. now right.
Qed.

Lemma find_doc_unique {T} (l : list (Document T)) (d : Document T) :
  NoDup (map id l) -> In d l -> find_doc (id d) l = Some d.
Proof.
  unfold find_doc. induction l as [|x l IH]; intros Hnd Hin; [destruct Hin|].
  cbn [map] in Hnd. inversion Hnd as [|? ? Hx Hnd']; subst.
  cbn [find]. destruct Hin as [->|Hin]; [now rewrite String.eqb_refl|].
  destruct (String.eqb_spec (id x) (id d)) as [E|_]; [|exact (IH Hnd' Hin)].
  exfalso. apply Hx. rewrite E. now apply in_map.
Qed.

Lemma patch_doc_id {T} (i : string) (f : T -> T) (l : list (Document T)) :
  map id (map (patch_doc i f) l) = map id l.
Proof.
  induction l as [|x l IH]; [reflexivity|]. cbn [map]. rewrite IH.
  f_equal. unfold patch_doc. destruct (id x =? i); reflexivity.
Qed.

(** A store with the same projects, memberships and tasks, and an id counter
    that did not go back, is as coherent as the one it came from. *)
Lemma coherent_same_documents (s s' : Store) :
  st_projects s' = st_projects s ->
  st_project_members s' = st_project_members s ->
  st_tasks s' = st_tasks s ->
  next_id s <= next_id s' ->
  coherent s -> coherent s'.
Proof.
  intros Hp Hm Ht Hn [C1 C2 C3 C4 C5 C6 C7 C8].
  assert (Hproj : forall i, has_project s i -> has_project s' i).
  { intros i. apply (has_project_later s s' i []). now rewrite app_nil_r. }
  split; rewrite ?Hp, ?Hm, ?Ht; auto.
  - intros p Hin. exact (issued_later _ _ _ Hn (C1 p Hin)).
  - intros t Hin. exact (issued_later _ _ _ Hn (C2 t Hin)).
  - intros t a Hin Ha Hne. unfold has_membership, member_rows. rewrite Hm.
    exact (C8 t a Hin Ha Hne).
Qed.

Lemma coherent_put_log (l : ActivityLog.t) (s : Store) :
  coherent s -> coherent (put activity_logs l s).
Proof. apply coherent_same_documents; cbn; auto. Qed.

Lemma coherent_put_project (p : Project.t) (s : Store) :
  coherent s -> coherent (put projects p s).
Proof.
  intros [C1 C2 C3 C4 C5 C6 C7 C8].
  set (s' := put projects p s).
  assert (Hnew : st_projects s'
                 = st_projects s ++ [mkDocument (fresh_id (next_id s)) p])
    by reflexivity.
  assert (Hlater : forall i, has_project s i -> has_project s' i)
    by (intros i; exact (has_project_later s s' i _ Hnew)).
  assert (Hn : next_id s <= next_id s') by (cbn; lia).
  split.
  - intros q Hin. rewrite Hnew in Hin. apply in_app_or in Hin.
    destruct Hin as [Hin|[<-|[]]].
    + exact (issued_later _ _ _ Hn (C1 q Hin)).
    + exists (next_id s). split; [cbn; lia | reflexivity].
  - intros t Hin. exact (issued_later _ _ _ Hn (C2 t Hin)).
  - exact C3.
  - intros m Hin. exact (Hlater _ (C4 m Hin)).
  - exact C5.
  - intros t Hin. exact (Hlater _ (C6 t Hin)).
  - exact C7.
  - exact C8.
Qed.

Lemma coherent_put_member (p u joined : string) (s : Store) :
  coherent s ->
  has_project s p ->
  ~ In (p, u) (map pair_of (st_project_members s)) ->
  coherent (put project_members (ProjectMember.make p u joined) s).
Proof.
  intros [C1 C2 C3 C4 C5 C6 C7 C8] Hp Hnew.
  set (s' := put project_members (ProjectMember.make p u joined) s).
  assert (Hrows : st_project_members s'
                  = st_project_members s
                    ++ [mkDocument (fresh_id (next_id s))
                          (ProjectMember.make p u joined)])
    by reflexivity.
  assert (Hlater : forall i, has_project s i -> has_project s' i).
  { intros i. apply (has_project_later s s' i []). now rewrite app_nil_r. }
  assert (Hn : next_id s <= next_id s') by (cbn; lia).
  split.
  - intros q Hin. exact (issued_later _ _ _ Hn (C1 q Hin)).
  - intros t Hin. exact (issued_later _ _ _ Hn (C2 t Hin)).
  - exact C3.
  - intros m Hin. rewrite Hrows in Hin. apply in_app_or in Hin.
    destruct Hin as [Hin|[<-|[]]]; [exact (Hlater _ (C4 m Hin))|].
    exact (Hlater _ Hp).
  - rewrite Hrows, map_app. apply NoDup_snoc; assumption.
  - intros t Hin. exact (Hlater _ (C6 t Hin)).
  - exact C7.
  - intros t a Hin Ha Hne.
    exact (has_membership_app s s' _ _ _ Hrows (C8 t a Hin Ha Hne)).
Qed.

Lemma coherent_put_task (p t : string) (d x due : option string) (now_ : string)
    (s : Store) :
  coherent s ->
  has_project s p ->
  (forall y, x = Some y -> y <> "" -> has_membership s y p = true) ->
  coherent (put tasks (Task.make p t d "todo" x due now_ now_) s).
Proof.
  intros [C1 C2 C3 C4 C5 C6 C7 C8] Hp Hx.
  set (new := mkDocument (fresh_id (next_id s))
                (Task.make p t d "todo" x due now_ now_)).
  set (s' := put tasks (Task.make p t d "todo" x due now_ now_) s).
  assert (Hnew : st_tasks s' = st_tasks s ++ [new]) by reflexivity.
  assert (Hlater : forall i, has_project s i -> has_project s' i).
  { intros i. apply (has_project_later s s' i []). now rewrite app_nil_r. }
  assert (Hn : next_id s <= next_id s') by (cbn; lia).
  split.
  - intros q Hin. exact (issued_later _ _ _ Hn (C1 q Hin)).
  - intros q Hin. rewrite Hnew in Hin. apply in_app_or in Hin.
    destruct Hin as [Hin|[<-|[]]].
    + exact (issued_later _ _ _ Hn (C2 q Hin)).
    + exists (next_id s). split; [cbn; lia | reflexivity].
  - rewrite Hnew, map_app. apply NoDup_snoc; [exact C3|].
    intros Hin. apply in_map_iff in Hin. destruct Hin as (q & Hid & Hin).
    apply (next_id_not_issued s). cbn [id new map] in Hid. rewrite <- Hid.
    exact (C2 q Hin).
  - intros m Hin. exact (Hlater _ (C4 m Hin)).
  - exact C5.
  - intros q Hin. rewrite Hnew in Hin. apply in_app_or in Hin.
    destruct Hin as [Hin|[<-|[]]]; [exact (Hlater _ (C6 q Hin))|].
    exact (Hlater _ Hp).
  - intros q Hin. rewrite Hnew in Hin. apply in_app_or in Hin.
    destruct Hin as [Hin|[<-|[]]]; [exact (C7 q Hin)|]. now left.
  - intros q a Hin Ha Hne. rewrite Hnew in Hin. apply in_app_or in Hin.
    destruct Hin as [Hin|[<-|[]]]; [exact (C8 q a Hin Ha Hne)|].
    exact (Hx a Ha Hne).
Qed.

(** Patching the task under [i] keeps the store coherent when the patch
    leaves the project alone, sets a valid status and assigns a member. *)
Lemma coherent_patched (i : string) (f : Task.t -> Task.t) (s : Store)
    (before : Document Task.t) :
  coherent s ->
  find_doc i (st_tasks s) = Some before ->
  Task.projectId (f (data before)) = Task.projectId (data before) ->
  In (Task.status (f (data before))) TaskStatus ->
  (forall a, Task.assigneeId (f (data before)) = Some a -> a <> "" ->
             has_membership s a (Task.projectId (data before)) = true) ->
  coherent (patched i f s).
Proof.
  intros [C1 C2 C3 C4 C5 C6 C7 C8] Hfind Hproj Hstatus Hassignee.
  assert (Hcase : forall q, In q (st_tasks (patched i f s)) ->
            In q (st_tasks s) \/
            (q = mkDocument (id before) (f (data before)) /\ In before (st_tasks s))).
  { intros q Hin. cbn [patched set_docs st_tasks] in Hin.
    apply in_map_iff in Hin. destruct Hin as (q0 & Hq & Hin).
    unfold patch_doc in Hq. destruct (String.eqb_spec (id q0) i) as [E|_].
    - right. assert (q0 = before) as ->.
      { pose proof (find_doc_unique _ _ C3 Hin) as Hu. rewrite E, Hfind in Hu.
        congruence. }
      split; [now symmetry | exact Hin].
    - left. now subst. }
  split.
  - exact C1.
  - intros q Hin. destruct (Hcase q Hin) as [H|[-> H]];
      [exact (C2 q H) | exact (C2 before H)].
  - cbn [patched set_docs st_tasks]. rewrite patch_doc_id. exact C3.
  - exact C4.
  - exact C5.
  - intros q Hin. destruct (Hcase q Hin) as [H|[-> H]]; [exact (C6 q H)|].
    cbn [data]. rewrite Hproj. exact (C6 before H).
  - intros q Hin. destruct (Hcase q Hin) as [H|[-> H]]; [exact (C7 q H)|].
    exact Hstatus.
  - intros q a Hin Ha Hne. destruct (Hcase q Hin) as [H|[-> H]];
      [exact (C8 q a H Ha Hne)|].
    cbn [data] in *. rewrite Hproj. exact (Hassignee a Ha Hne).
Qed.

Lemma coherent_empty : coherent empty_store.
Proof.
  split.
  - intros p [].
  - intros t [].
  - constructor.
  - intros m [].
  - constructor.
  - intros t [].
  - intros t [].
  - intros t a [].
Qed.

Lemma find_doc_In {T} (i : string) (l : list (Document T)) (d : Document T) :
  find_doc i l = Some d -> In d l.
Proof. unfold find_doc. intros H. apply find_some in H. tauto. Qed.

Lemma serve_coherent (req : Request) (w w' : World) (r : option Exn) :
  coherent (store w) -> serve req w = (w', r) -> coherent (store w').
Proof.
  intros Hc E. destruct (mutating req) eqn:Hm;
    [|now rewrite (quiet_requests_keep_store _ _ _ _ Hm E)].
  assert (Hout : forall A (m : M A),
             outcome m w = (w', r) -> exists v, m w = (w', v)).
  { intros A m Ho. unfold outcome in Ho.
    destruct (m w) as [w1 [e|a]]; apply world_eq in Ho; subst w1;
      eexists; reflexivity. }
  destruct req; try discriminate Hm; cbn [serve] in E;
    apply Hout in E; destruct E as [v E].
  - pose proof (coherent_put_project (Project.make name ownerId (clock w)) _ Hc)
      as Hc1.
    assert (Hc2 : coherent
                    (put project_members
                       (ProjectMember.make (fresh_id (next_id (store w))) ownerId
                          (clock w))
                       (put projects (Project.make name ownerId (clock w))
                          (store w)))).
    { apply coherent_put_member; [exact Hc1| |].
      - exists (mkDocument (fresh_id (next_id (store w)))
                  (Project.make name ownerId (clock w))).
        split; [|reflexivity].
        cbn [put bump set_docs docs st_projects]. apply in_or_app.
        right. left. reflexivity.
      - cbn [put bump set_docs docs st_project_members]. intros Hin.
        apply in_map_iff in Hin. destruct Hin as (m & Hpair & Hin).
        injection Hpair as Hp _.
        destruct (members_refer _ Hc m Hin) as (q & Hq & Hid).
        apply (next_id_not_issued (store w)). rewrite <- Hp, <- Hid.
        exact (project_ids_issued _ Hc q Hq). }
    destruct (createProject_effect _ _ _ _ _ E)
      as [H|[[H _]|[[H _]|[H _]]]]; rewrite H; auto using coherent_put_log.
  - destruct (addUserToProject_effect _ _ _ _ _ _ E)
      as [H|(Ha & Hu & HH)]; [now rewrite H|].
    assert (Hc1 : coherent
                    (put project_members
                       (ProjectMember.make projectId userId (clock w)) (store w))).
    { apply coherent_put_member; [exact Hc | |].
      - exact (member_has_project _ _ _ Hc Ha).
      - exact (no_row_no_pair _ _ _ Hu). }
    destruct HH as [[H _]|[H _]]; rewrite H; auto using coherent_put_log.
  - destruct (createTask_effect _ _ _ _ _ _ _ _ _ E)
      as [H|(Ha & Hx & HH)]; [now rewrite H|].
    assert (Hc1 : coherent
                    (put tasks
                       (Task.make projectId title description "todo" assigneeId
                          dueDate (clock w) (clock w)) (store w))).
    { apply coherent_put_task; [exact Hc | | exact Hx].
      exact (member_has_project _ _ _ Hc Ha). }
    destruct HH as [[H _]|[H _]]; rewrite H; auto using coherent_put_log.
  - destruct (assignTask_effect _ _ _ _ _ _ E)
      as [H|(before & Hfind & _ & Hx & HH)]; [now rewrite H|].
    assert (Hc1 : coherent
                    (patched taskId
                       (merge_Task (assign_patch assigneeId (clock w))) (store w))).
    { apply (coherent_patched _ _ _ before Hc Hfind).
      - reflexivity.
      - exact (tasks_status _ Hc before (find_doc_In _ _ _ Hfind)).
      - intros a [= <-] _. exact (proj2 (proj2 (is_member_truthy _ _ _ Hx))). }
    cbv zeta in HH.
    destruct HH as [[H _]|[H _]]; rewrite H; auto using coherent_put_log.
  - destruct (updateTaskStatus_effect _ _ _ _ _ _ E)
      as [H|(before & Hfind & _ & Hs & HH)]; [now rewrite H|].
    assert (Hc1 : coherent
                    (patched taskId
                       (merge_Task (status_patch status (clock w))) (store w))).
    { apply (coherent_patched _ _ _ before Hc Hfind).
      - reflexivity.
      - apply includes_In. exact Hs.
      - intros a Ha Hne.
        exact (tasks_assignee _ Hc before a (find_doc_In _ _ _ Hfind) Ha Hne). }
    cbv zeta in HH.
    destruct HH as [[H _]|[H _]]; rewrite H; auto using coherent_put_log.
Qed.

Lemma serve_all_coherent (reqs : list Request) :
  forall w, coherent (store w) -> coherent (store (serve_all reqs w)).
Proof.
  induction reqs as [|req reqs IH]; intros w Hc; cbn [serve_all]; [exact Hc|].
  apply IH. destruct (serve req w) as [w' r] eqn:E.
  exact (serve_coherent _ _ _ _ Hc E).
Qed.

(** X15. The service layer keeps the referential integrity the store does
    not enforce. The empty store is coherent, and from a coherent store every
    request, whatever its outcome and whatever the outages, leaves a coherent
    store, and so does every sequence of requests: project and task ids are
    ids the store issued, task ids are distinct, every membership and every
    task refers to an existing project, no (project, user) pair has two
    membership rows, every task status is one of todo, doing, done, and every
    non-empty assignee is a member of the task's project. *)
Theorem coherence_is_kept :
  coherent empty_store /\
  (forall req w w' r,
     coherent (store w) -> serve req w = (w', r) -> coherent (store w')) /\
  (forall reqs w,
     coherent (store w) -> coherent (store (serve_all reqs w))).
Proof.
  split; [exact coherent_empty|]. split; [exact serve_coherent|].
  exact serve_all_coherent.
Qed.

Lemma coherence_is_kept_witness :
  NoDup (map pair_of
           (st_project_members
              (store (serve_all [CreateProject "u1" "Launch";
                                 AddUserToProject "doc_0" "u2" "u1";
                                 AddUserToProject "doc_0" "u2" "u1"]
                        genesis)))).
Proof.
  destruct coherence_is_kept as (Hempty & _ & Hall).
  apply members_unique. apply Hall. exact Hempty.
Defined.

Lemma has_project_found (s : Store) (i : string) :
  has_project s i -> exists p, find_doc i (st_projects s) = Some p.
Proof.
  intros (q & Hin & Hid). unfold find_doc.
  destruct (find _ _) as [p|] eqn:E; [now exists p|].
  pose proof (find_none _ _ E q Hin) as Hq. cbn in Hq.
  rewrite Hid, String.eqb_refl in Hq. discriminate.
Qed.

Lemma rows_of_refer (s : Store) (u : string) :
  coherent s ->
  forall m, In m (rows_of s u) -> exists p, project_of s m p.
Proof.
  intros Hc m Hin. unfold rows_of in Hin. apply In_firstn in Hin.
  apply filter_In in Hin. destruct Hin as [Hin _].
  exact (has_project_found _ _ (members_refer _ Hc m Hin)).
Qed.

Lemma Promise_all_fetch_fails (ms : list (Document ProjectMember.t)) :
  forall w w' e,
    (forall m, In m ms -> exists p, project_of (store w) m p) ->
    Promise_all fetch_project ms w = (w', inl e) ->
    e = RemoteFailure.
Proof.
  intros w w' e Hall H.
  destruct (Promise_all_rejected _ _ _ _ _ H) as (w1 & rs & Es & Hin & _).
  destruct (settle_all_fetches _ _ _ _ Es) as (_ & _ & HF).
  clear H Es. induction HF as [|m r ms rs Hr HF IH]; [destruct Hin|].
  change (rejections (r :: rs))
    with ((match r with inl e => [e] | inr _ => [] end) ++ rejections rs) in Hin.
  apply in_app_or in Hin. destruct Hin as [Hin|Hin].
  - destruct r as [e0|p]; [|destruct Hin]. destruct Hin as [<-|[]].
    destruct Hr as [->|[_ Hnone]]; [reflexivity|].
    destruct (Hall m (or_introl eq_refl)) as [q Hq]. unfold project_of in Hq.
    congruence.
  - apply IH; [|exact Hin]. intros m' Hm. apply Hall. now right.
Qed.

(** X16. In a coherent store [listUserProjects] never runs into a missing
    project: with a user id and no remote failure it returns one project per
    membership row it looked up, in row order, and the only errors it can end
    with are the validation error and a remote failure. *)
Theorem listUserProjects_finds_every_project (userId : string) (w : World) :
  coherent (store w) ->
  (userId <> "" -> no_faults w = true ->
   exists w' found,
     listUserProjects userId w = (w', inr found) /\
     map id found
     = map (fun m => ProjectMember.projectId (data m)) (rows_of (store w) userId)) /\
  (forall w' e,
     listUserProjects userId w = (w', inl e) ->
     e = Error "userId is required" \/ e = RemoteFailure).
Proof.
  intros Hc. split.
  - intros Hu Hf.
    rewrite (listUserProjects_lookup _ _ Hu (calm_hd _ Hf)). cbv zeta.
    destruct (rows_of (store w) userId) as [|m ms] eqn:Erows.
    + eexists. exists []. split; reflexivity.
    + set (w1 := record _ _).
      destruct (Promise_all_fetches (m :: ms) w1) as (w2 & found & E & _ & _).
      { exact (calm_tl _ Hf). }
      { rewrite <- Erows. exact (rows_of_refer _ _ Hc). }
      exists w2, found. unfold bind at 1. rewrite E. split; [reflexivity|].
      apply (fetched_ids (store w)).
      apply Promise_all_fetched in E. exact (proj1 E).
  - intros w' e H.
    destruct (truthy userId) eqn:Eu.
    2:{ left. unfold listUserProjects, bind, throw_if in H. rewrite Eu in H.
        now apply raised_eq in H. }
    right. apply truthy_nonempty in Eu.
    destruct (hd false (faults w)) eqn:Ef.
    { unfold listUserProjects, throw_if in H. unfold bind at 1 in H.
      rewrite (truthy_true _ Eu) in H. cbn [negb] in H. unfold ret at 1 in H.
      unfold bind at 1, listDocuments, remote in H. rewrite Ef in H.
      now apply raised_eq in H. }
    rewrite (listUserProjects_lookup _ _ Eu Ef) in H. cbv zeta in H.
    destruct (rows_of (store w) userId) as [|m ms] eqn:Erows; [discriminate H|].
    unfold bind at 1 in H.
    destruct (Promise_all fetch_project (m :: ms) _) as [w2 [e2|ps]] eqn:E;
      [|discriminate H].
    apply raised_eq in H. destruct H as [_ <-].
    refine (Promise_all_fetch_fails _ _ _ _ _ E).
    intros m' Hin. cbn [store record set_faults].
    apply (rows_of_refer _ userId Hc). rewrite Erows. exact Hin.
Qed.

Lemma listUserProjects_finds_every_project_witness :
  exists w' found,
    listUserProjects "u1" launch_with_task = (w', inr found) /\
    map id found = ["doc_0"].
Proof.
  destruct (listUserProjects_finds_every_project "u1" launch_with_task)
    as (H & _).
  - assert (Hw : launch_with_task
                 = serve_all [CreateProject "u1" "Launch";
                              AddUserToProject "doc_0" "u2" "u1";
                              CreateTask "u1" "doc_0" "Write the brief" None None
                                None]
                     genesis)
      by (vm_compute; reflexivity).
    rewrite Hw. apply serve_all_coherent. exact coherent_empty.
  - destruct H as (w' & found & Hrun & Hids);
      [discriminate | vm_compute; reflexivity |].
    exists w', found. split; [exact Hrun|]. rewrite Hids. vm_compute. reflexivity.
Defined.

(** * The membership policy and how the operations compose *)

Lemma row_has_membership (s : Store) (u p : string) (m : Document ProjectMember.t) :
  In m (st_project_members s) -> pair_of m = (p, u) ->
  has_membership s u p = true.
Proof.
  intros Hin Hpair. destruct (has_membership s u p) eqn:E; [reflexivity|].
  exfalso. apply (no_row_no_pair _ _ _ E). rewrite <- Hpair. now apply in_map.
Qed.

(** X17. The membership policy: [isProjectMember] never fails on its own
    account and never writes; it answers true exactly when both ids are
    non-empty and the store holds a membership row for the pair, however many
    such rows there are. For an empty id it answers false without asking the
    store. *)
Theorem isProjectMember_policy (userId projectId : string) (w : World) :
  (forall w' r,
     isProjectMember userId projectId w = (w', r) ->
     store w' = store w /\
     (r = inl RemoteFailure \/
      exists b,
        r = inr b /\
        (b = true <->
         userId <> "" /\ projectId <> "" /\
         exists m, In m (st_project_members (store w)) /\
                   ProjectMember.projectId (data m) = projectId /\
                   ProjectMember.userId (data m) = userId))) /\
  (userId = "" \/ projectId = "" ->
   isProjectMember userId projectId w = (w, inr false)) /\
  (hd false (faults w) = false ->
   exists w' b, isProjectMember userId projectId w = (w', inr b)).
Proof.
  assert (Hiff : is_member (store w) userId projectId = true <->
                 userId <> "" /\ projectId <> "" /\
                 exists m, In m (st_project_members (store w)) /\
                           ProjectMember.projectId (data m) = projectId /\
                           ProjectMember.userId (data m) = userId).
  { split.
    - intros H. destruct (is_member_truthy _ _ _ H) as (Hu & Hp & Hrow).
      split; [exact Hu|]. split; [exact Hp|].
      destruct (has_membership_row _ _ _ Hrow) as (m & Hin & Hpair).
      exists m. unfold pair_of in Hpair. injection Hpair as H1 H2. auto.
    - intros (Hu & Hp & m & Hin & H1 & H2). unfold is_member.
      rewrite (truthy_true _ Hu), (truthy_true _ Hp). cbn [andb].
      apply (row_has_membership _ _ _ m Hin). unfold pair_of. congruence. }
  split; [|split].
  - intros w' r H. rewrite isProjectMember_run in H.
    unfold is_member in Hiff.
    destruct (truthy userId); cbn [negb orb andb] in *;
      [destruct (truthy projectId); cbn [negb andb] in *|].
    + destruct (hd false (faults w)); apply run_eq in H; destruct H as [<- <-];
        (split; [reflexivity|]); [left; reflexivity|].
      right. eexists. split; [reflexivity | exact Hiff].
    + apply run_eq in H. destruct H as [<- <-]. split; [reflexivity|].
      right. eexists. split; [reflexivity | exact Hiff].
    + apply run_eq in H. destruct H as [<- <-]. split; [reflexivity|].
      right. eexists. split; [reflexivity | exact Hiff].
  - intros [-> | ->]; rewrite isProjectMember_run; cbn [truthy negb orb];
      [reflexivity|].
    destruct (negb (truthy userId)); reflexivity.
  - intros Hf. rewrite isProjectMember_run, Hf.
    destruct (_ || _); eexists; eexists; reflexivity.
Qed.

Lemma isProjectMember_policy_witness :
  exists w' b, isProjectMember "u2" "doc_0" launch_with_u2 = (w', inr b).
Proof.
  destruct (isProjectMember_policy "u2" "doc_0" launch_with_u2) as (_ & _ & H).
  apply H. vm_compute. reflexivity.
Defined.

(** X18. A member adds a user who is not yet a member: with non-empty
    arguments and no remote failure, [addUserToProject] returns the new
    membership row, appends it to the memberships and appends one
    "add_member" entry naming the actor and the new row to the activity log;
    projects and tasks are untouched. *)
Theorem addUserToProject_adds_member (projectId userId actorId : string)
    (w : World) :
  projectId <> "" -> userId <> "" -> actorId <> "" ->
  has_membership (store w) actorId projectId = true ->
  has_membership (store w) userId projectId = false ->
  no_faults w = true ->
  let n := next_id (store w) in
  let member :=
    mkDocument (fresh_id n) (ProjectMember.make projectId userId (clock w)) in
  exists w',
    addUserToProject projectId userId actorId w = (w', inr member) /\
    st_project_members (store w') = st_project_members (store w) ++ [member] /\
    logs w' = logs w ++
              [mkDocument (fresh_id (S n))
                 (ActivityLog.make projectId actorId "project_member" (fresh_id n)
                    "add_member" (clock w))] /\
    st_projects (store w') = st_projects (store w) /\
    st_tasks (store w') = st_tasks (store w).
Proof.
  intros Hp Hu Ha Hactor Huser Hf n member. subst n member.
  destruct (addUserToProject_run _ _ _ _ Hp Hu Ha Hf) as (w' & Hrun & _).
  rewrite Hactor, Huser in Hrun.
  destruct (addUserToProject_success _ _ _ _ _ _ Hrun)
    as (_ & _ & _ & _ & _ & _ & Hstore & _).
  exists w'. split; [exact Hrun|]. unfold logs. rewrite Hstore. repeat split.
Qed.

Lemma addUserToProject_adds_member_witness :
  exists w',
    addUserToProject "doc_0" "u3" "u2" launch_with_u2
    = (w', inr (mkDocument "doc_5"
                  (ProjectMember.make "doc_0" "u3" "2026-01-01T00:00:00.000Z"))).
Proof.
  destruct (addUserToProject_adds_member "doc_0" "u3" "u2" launch_with_u2)
    as (w' & Hrun & _);
    [discriminate | discriminate | discriminate | vm_compute; reflexivity
    | vm_compute; reflexivity | vm_compute; reflexivity |].
  exists w'. exact Hrun.
Defined.

(** X19. Assignment and status change do not disturb each other: when one
    has succeeded and the other succeeds after it, in either order, the task
    carries both the assignee and the status, and the store holds it under
    its id. *)
Theorem assignment_and_status_compose (actorId actor' taskId assigneeId status : string)
    (w w1 w2 : World) (first_ second_ : Document Task.t) :
  (assignTask actorId taskId assigneeId w = (w1, inr first_) ->
   updateTaskStatus actor' taskId status w1 = (w2, inr second_) ->
   Task.assigneeId (data second_) = Some assigneeId /\
   Task.status (data second_) = status /\
   find_doc taskId (st_tasks (store w2)) = Some second_) /\
  (updateTaskStatus actorId taskId status w = (w1, inr first_) ->
   assignTask actor' taskId assigneeId w1 = (w2, inr second_) ->
   Task.assigneeId (data second_) = Some assigneeId /\
   Task.status (data second_) = status /\
   find_doc taskId (st_tasks (store w2)) = Some second_).
Proof.
  split; intros H1 H2.
  - destruct (assignTask_success _ _ _ _ _ _ H1)
      as (b1 & _ & _ & _ & Hb1 & _ & _ & Hu1 & Hs1 & _).
    destruct (updateTaskStatus_success _ _ _ _ _ _ H2)
      as (b2 & _ & _ & _ & Hb2 & _ & Hu2 & Hs2 & _).
    assert (Hmid : find_doc taskId (st_tasks (store w1)) = Some first_).
    { rewrite Hs1, Hu1. exact (find_doc_patched _ _ _ _ Hb1). }
    rewrite Hmid in Hb2. injection Hb2 as <-.
    rewrite Hs2. cbn [st_tasks]. rewrite (find_doc_patched _ _ _ _ Hmid).
    rewrite Hu2, Hu1. cbn. repeat split.
  - destruct (updateTaskStatus_success _ _ _ _ _ _ H1)
      as (b1 & _ & _ & _ & Hb1 & _ & Hu1 & Hs1 & _).
    destruct (assignTask_success _ _ _ _ _ _ H2)
      as (b2 & _ & _ & _ & Hb2 & _ & _ & Hu2 & Hs2 & _).
    assert (Hmid : find_doc taskId (st_tasks (store w1)) = Some first_).
    { rewrite Hs1, Hu1. exact (find_doc_patched _ _ _ _ Hb1). }
    rewrite Hmid in Hb2. injection Hb2 as <-.
    rewrite Hs2. cbn [st_tasks]. rewrite (find_doc_patched _ _ _ _ Hmid).
    rewrite Hu2, Hu1. cbn. repeat split.
Qed.

Lemma assignment_and_status_compose_witness :
  find_doc "doc_5"
    (st_tasks (store (after (updateTaskStatus "u2" "doc_5" "done")
                        (after (assignTask "u1" "doc_5" "u2") launch_with_task))))
  = Some (mkDocument "doc_5"
            (Task.make "doc_0" "Write the brief" None "done" (Some "u2") None
               "2026-01-01T00:00:00.000Z" "2026-01-01T00:00:00.000Z")).
Proof.
  destruct (assignment_and_status_compose "u1" "u2" "doc_5" "u2" "done"
              launch_with_task
              (after (assignTask "u1" "doc_5" "u2") launch_with_task)
              (after (updateTaskStatus "u2" "doc_5" "done")
                 (after (assignTask "u1" "doc_5" "u2") launch_with_task))
              (mkDocument "doc_5"
                 (Task.make "doc_0" "Write the brief" None "todo" (Some "u2") None
                    "2026-01-01T00:00:00.000Z" "2026-01-01T00:00:00.000Z"))
              (mkDocument "doc_5"
                 (Task.make "doc_0" "Write the brief" None "done" (Some "u2") None
                    "2026-01-01T00:00:00.000Z" "2026-01-01T00:00:00.000Z")))
    as [H _].
  destruct H as (_ & _ & Hfind);
    [vm_compute; reflexivity | vm_compute; reflexivity |].
  exact Hfind.
Defined.

(** X20. A task just created is listed: when [createTask] has succeeded in a
    project that had fewer than 200 tasks, [listProjectTasks] for that
    project, run next and reaching the store, returns the new task together
    with all the earlier tasks of the project and nothing else, in whatever
    order the store lists them. *)
Theorem created_task_is_listed (actorId projectId title : string)
    (description assigneeId dueDate : option string) (w w1 : World)
    (task : Document Task.t) :
  createTask actorId projectId title description assigneeId dueDate w
  = (w1, inr task) ->
  length (tasks_of (store w) projectId) < 200 ->
  hd false (faults w1) = false ->
  exists w2 found,
    listProjectTasks projectId w1 = (w2, inr found) /\
    Permutation found (task :: tasks_of (store w) projectId).
Proof.
  intros Hrun Hlen Hf.
  destruct (createTask_success _ _ _ _ _ _ _ _ _ Hrun)
    as (_ & Hp & _ & _ & _ & Htask & Hstore & _).
  unfold listProjectTasks. service_unfold.
  rewrite (truthy_true _ Hp). world_simpl. rewrite Hf, Hstore.
  cbn [st_tasks]. rewrite filter_app.
  assert (Hnew : filter (fun doc : Document Task.t =>
                           Task.projectId (data doc) =? projectId) [task]
                 = [task]).
  { rewrite Htask. cbn. now rewrite String.eqb_refl. }
  rewrite Hnew. fold (tasks_of (store w) projectId).
  rewrite firstn_all2 by (rewrite length_app; cbn; lia).
  eexists. eexists. split; [reflexivity|].
  apply Permutation_sym, Permutation_cons_append.
Qed.

Lemma created_task_is_listed_witness :
  exists w2 found,
    listProjectTasks "doc_0" launch_with_task = (w2, inr found) /\
    Permutation found
      [mkDocument "doc_5"
         (Task.make "doc_0" "Write the brief" None "todo" None None
            "2026-01-01T00:00:00.000Z" "2026-01-01T00:00:00.000Z")].
Proof.
  destruct (created_task_is_listed "u1" "doc_0" "Write the brief" None None None
              launch_with_u2 launch_with_task
              (mkDocument "doc_5"
                 (Task.make "doc_0" "Write the brief" None "todo" None None
                    "2026-01-01T00:00:00.000Z" "2026-01-01T00:00:00.000Z")))
    as (w2 & found & Hrun & Hperm);
    [vm_compute; reflexivity | vm_compute; lia | vm_compute; reflexivity |].
  exists w2, found. split; [exact Hrun|].
  assert (Hnone : tasks_of (store launch_with_u2) "doc_0" = [])
    by (vm_compute; reflexivity).
  rewrite Hnone in Hperm. exact Hperm.
Defined.

Lemma createProject_returned (o n : string) (w w1 : World)
    (project : Document Project.t) :
  createProject o n w = (w1, inr project) ->
  let k := next_id (store w) in
  let member :=
    mkDocument (fresh_id (S k)) (ProjectMember.make (fresh_id k) o (clock w)) in
  o <> "" /\
  project = mkDocument (fresh_id k) (Project.make n o (clock w)) /\
  st_projects (store w1) = st_projects (store w) ++ [project] /\
  st_project_members (store w1) = st_project_members (store w) ++ [member].
Proof.
  intros H. cbv zeta. unfold createProject in H. service_unfold.
  destruct (truthy o) eqn:Eo; [|discriminate H]. cbn [negb] in H.
  branch H. branch H. branch H. branch H. finished H.
  repeat split. exact (truthy_nonempty _ Eo).
Qed.

Lemma find_doc_last {T} (i : string) (l : list (Document T)) (d : Document T) :
  (forall x, In x l -> id x <> i) -> id d = i ->
  find_doc i (l ++ [d]) = Some d.
Proof.
  intros Hl Hd. unfold find_doc. induction l as [|x l IH]; cbn [app find].
  - now rewrite Hd, String.eqb_refl.
  - destruct (String.eqb_spec (id x) i) as [E|_].
    + destruct (Hl x (or_introl eq_refl) E).
    + apply IH. intros y Hy. apply Hl. now right.
Qed.

Lemma Forall2_single {A B} (R : A -> B -> Prop) (x : A) (l : list B) :
  Forall2 R [x] l -> exists y, l = [y] /\ R x y.
Proof.
  intros H. inversion H as [|? y ? l' Hxy Hnil]; subst.
  inversion Hnil; subst. exists y. split; [reflexivity | exact Hxy].
Qed.

(** A project found after a creation under the id of an earlier row is the
    project that was there before. *)
Lemma project_of_earlier (s s' : Store) (new : list (Document Project.t))
    (ms : list (Document ProjectMember.t)) (ps : list (Document Project.t)) :
  st_projects s' = st_projects s ++ new ->
  (forall m, In m ms -> exists q, project_of s m q) ->
  Forall2 (project_of s') ms ps -> Forall2 (project_of s) ms ps.
Proof.
  intros Hs Hall HF. induction HF as [|m p ms ps Hp HF IH]; constructor.
  - destruct (Hall m (or_introl eq_refl)) as [q Hq].
    unfold project_of in *. rewrite Hs in Hp.
    rewrite (find_doc_app _ _ new _ Hq) in Hp. congruence.
  - apply IH. intros m' Hin. apply Hall. now right.
Qed.

(** X21. A project just created is listed for its owner: in a coherent
    store, when [createProject] has succeeded for an owner who had fewer than
    100 memberships, [listUserProjects] for that owner, run next without
    remote failure, returns the new project together with the project of
    each of the owner's earlier membership rows and nothing else, in
    whatever order the store lists the rows. *)
Theorem created_project_is_listed (ownerId name : string) (w w1 : World)
    (project : Document Project.t) :
  coherent (store w) ->
  createProject ownerId name w = (w1, inr project) ->
  length (memberships_of (store w) ownerId) < 100 ->
  no_faults w1 = true ->
  exists w2 found earlier,
    listUserProjects ownerId w1 = (w2, inr found) /\
    Forall2 (project_of (store w)) (memberships_of (store w) ownerId) earlier /\
    Permutation found (project :: earlier).
Proof.
  intros Hc Hrun Hlen Hf.
  destruct (createProject_returned _ _ _ _ _ Hrun) as (Ho & Hproject & Hp & Hm).
  assert (Hc1 : coherent (store w1)).
  { apply (serve_coherent (CreateProject ownerId name) w w1 None Hc).
    cbn [serve]. unfold outcome. now rewrite Hrun. }
  set (member := mkDocument (fresh_id (S (next_id (store w))))
                   (ProjectMember.make (fresh_id (next_id (store w))) ownerId
                      (clock w))) in *.
  assert (Hrows : rows_of (store w1) ownerId
                  = memberships_of (store w) ownerId ++ [member]).
  { unfold rows_of. rewrite Hm, filter_app.
    fold (memberships_of (store w) ownerId).
    assert (Hnew : filter (fun doc : Document ProjectMember.t =>
                             ProjectMember.userId (data doc) =? ownerId) [member]
                   = [member])
      by (cbn; now rewrite String.eqb_refl).
    rewrite Hnew. apply firstn_all2. rewrite length_app. cbn. lia. }
  rewrite (listUserProjects_lookup _ _ Ho (calm_hd _ Hf)). cbv zeta.
  cbn [store record set_faults]. rewrite Hrows.
  remember (memberships_of (store w) ownerId ++ [member]) as rows eqn:Erows.
  destruct rows as [|m0 ms0].
  { destruct (memberships_of (store w) ownerId); discriminate Erows. }
  set (w1' := record _ _).
  destruct (Promise_all_fetches (m0 :: ms0) w1') as (w2 & found & E & _ & _).
  { exact (calm_tl _ Hf). }
  { intros m Hin. rewrite <- Hrows in Hin.
    exact (rows_of_refer _ _ Hc1 m Hin). }
  pose proof (proj1 (Promise_all_fetched _ _ _ _ E)) as HF.
  cbn [store record set_faults w1'] in HF. rewrite Erows in HF.
  apply Forall2_app_inv_l in HF.
  destruct HF as (earlier & last_ & Hearlier & Hlast & Hfound).
  destruct (Forall2_single _ _ _ Hlast) as (p & Hp1 & Hpo).
  rewrite Hp1 in Hfound. clear Hlast Hp1 last_.
  assert (p = project) as ->.
  { unfold project_of in Hpo. cbn [data member ProjectMember.projectId] in Hpo.
    rewrite Hp in Hpo.
    rewrite (find_doc_last _ _ project) in Hpo; [congruence| |].
    - intros x Hx Hid. apply (next_id_not_issued (store w)).
      rewrite <- Hid. exact (project_ids_issued _ Hc x Hx).
    - rewrite Hproject. reflexivity. }
  exists w2, found, earlier. unfold bind at 1. rewrite E.
  split; [reflexivity|]. split.
  - apply (project_of_earlier _ (store w1) [project]); [exact Hp| |exact Hearlier].
    intros m Hin. apply filter_In in Hin. destruct Hin as [Hin _].
    exact (has_project_found _ _ (members_refer _ Hc m Hin)).
  - rewrite Hfound. apply Permutation_sym, Permutation_cons_append.
Qed.

Lemma created_project_is_listed_witness :
  exists w2 found,
    listUserProjects "u1" launch = (w2, inr found) /\
    Permutation found
      [mkDocument "doc_0" (Project.make "Launch" "u1" "2026-01-01T00:00:00.000Z")].
Proof.
  destruct (created_project_is_listed "u1" "Launch" genesis launch
              (mkDocument "doc_0"
                 (Project.make "Launch" "u1" "2026-01-01T00:00:00.000Z")))
    as (w2 & found & earlier & Hrun & Hearlier & Hperm);
    [exact coherent_empty | vm_compute; reflexivity | vm_compute; lia
    | vm_compute; reflexivity |].
  exists w2, found. split; [exact Hrun|].
  assert (Hnone : memberships_of (store genesis) "u1" = [])
    by (vm_compute; reflexivity).
  rewrite Hnone in Hearlier. inversion Hearlier; subst. exact Hperm.
Defined.

(** * The fan-out of listUserProjects *)

Lemma fetch_project_call (m : Document ProjectMember.t) (w w' : World)
    (r : Exn + Document Project.t) :
  fetch_project m w = (w', r) ->
  exists ev,
    trace w' = trace w ++ [ev] /\
    call_of ev = GetDocument projects (ProjectMember.projectId (data m)).
Proof.
  rewrite fetch_project_run. cbv zeta.
  destruct (hd false (faults w));
    [|destruct (find_doc _ (st_projects (store w)))];
    intros E; injection E as <- _; eexists; split; reflexivity.
Qed.

Lemma settle_all_calls (ms : list (Document ProjectMember.t)) :
  forall w w' rs,
    settle_all fetch_project ms w = (w', rs) ->
    exists evs,
      trace w' = trace w ++ evs /\
      map call_of evs
      = map (fun m => GetDocument projects (ProjectMember.projectId (data m))) ms.
Proof.
  induction ms as [|m ms IH]; intros w w' rs H; cbn [settle_all] in H.
  - injection H as <- _. exists []. now rewrite app_nil_r.
  - destruct (fetch_project m w) as [w1 r] eqn:E1.
    destruct (settle_all fetch_project ms w1) as [w2 rs'] eqn:E2.
    injection H as <- _.
    destruct (fetch_project_call _ _ _ _ E1) as (ev & Ht1 & Hev).
    destruct (IH _ _ _ E2) as (evs & Ht2 & Hcalls).
    exists (ev :: evs). split; [rewrite Ht2, Ht1, <- app_assoc; reflexivity|].
    cbn [map]. now rewrite Hev, Hcalls.
Qed.

(** X22. [listUserProjects] starts every fetch: once the membership lookup
    has got through, the call log holds one fetch per membership row looked
    up, in row order, whether the call returns or fails and whichever of the
    fetches fail; an earlier failure does not keep a later fetch from being
    made. The store is left as it was. *)
Theorem listUserProjects_starts_every_fetch (userId : string) (w w' : World)
    (r : Exn + list (Document Project.t)) :
  userId <> "" -> hd false (faults w) = false ->
  listUserProjects userId w = (w', r) ->
  exists evs,
    trace w' = trace w ++ Returned (ListDocuments project_members) :: evs /\
    map call_of evs
    = map (fun m => GetDocument projects (ProjectMember.projectId (data m)))
        (rows_of (store w) userId) /\
    store w' = store w.
Proof.
  intros Hu Hf H.
  rewrite (listUserProjects_lookup _ _ Hu Hf) in H. cbv zeta in H.
  destruct (rows_of (store w) userId) as [|m ms].
  - injection H as <- _. exists []. repeat split.
  - set (w1 := record _ _) in H.
    assert (Hm : Promise_all fetch_project (m :: ms) w1 = (w', r)).
    { unfold bind, ret in H.
      destruct (Promise_all fetch_project (m :: ms) w1) as [w2 [e|ps]]; exact H. }
    unfold Promise_all in Hm.
    destruct (settle_all fetch_project (m :: ms) w1) as [w2 rs] eqn:Es.
    destruct (settle_all_calls _ _ _ _ Es) as (evs & Ht & Hcalls).
    destruct (settle_all_fetches _ _ _ _ Es) as (Hs & _ & _).
    exists evs.
    assert (Hw : trace w' = trace w2 /\ store w' = store w2).
    { destruct (rejections rs); injection Hm as <- _; split; reflexivity. }
    destruct Hw as [-> ->]. rewrite Ht, Hs.
    split; [|split; [exact Hcalls | reflexivity]].
    cbn [trace record set_faults w1]. rewrite <- app_assoc. reflexivity.
Qed.

Lemma listUserProjects_starts_every_fetch_witness :
  exists w' evs,
    listUserProjects "u1" first_fetch_fails = (w', inl RemoteFailure) /\
    trace w'
    = trace first_fetch_fails ++ Returned (ListDocuments project_members) :: evs /\
    map call_of evs = [GetDocument projects "doc_0"; GetDocument projects "doc_3"].
Proof.
  assert (Hrun : listUserProjects "u1" first_fetch_fails
                 = (after (listUserProjects "u1") first_fetch_fails,
                    inl RemoteFailure))
    by (vm_compute; reflexivity).
  destruct (listUserProjects_starts_every_fetch "u1" first_fetch_fails _ _
              ltac:(discriminate) ltac:(reflexivity) Hrun)
    as (evs & Ht & Hcalls & _).
  exists (after (listUserProjects "u1") first_fetch_fails), evs.
  split; [exact Hrun|]. split; [exact Ht|].
  rewrite Hcalls. vm_compute. reflexivity.
Defined.
